(* ===== verification/_CoqProject ===== *)
-Q . S2P
Prelude.v
PyStr.v
Bitstream.v
Channel.v
Image.v
Embed.v
Retrieve.v
RetrieveMachine.v
Delimiter.v
Codec.v
Caesar.v
World.v
Watermark.v
Main.v
