(* ===== verification/Prelude.v ===== *)
(** * StegEM: a verification development of the LSB steganography tool

    The repository (src/Steganography.py, src/CaesarCipher.py,
    src/Watermarking.py) is an interactive Python script.  Its core is a
    least-significant-bit codec: [embed_message] writes the bits of a text
    message followed by a delimiter into the lowest bit of the red, green
    and blue channels of an image, pixel by pixel in row-major order, and
    [retrieve_message] reads those bits back in the same order until the
    accumulated bit string contains the delimiter.  Around it sit a
    capacity estimate ([calculate_max_message_size]), the choice of the
    delimiter ([get_delimiter], [generate_random_delimiter]), a Caesar
    cipher (imported on demand from CaesarCipher.py, whose module-level
    code runs at the import), a text watermark (Watermarking.py) and the
    top-level menu that calls one of them and then offers to delete the
    original image.

    ** Files, in dependency order

    - [Prelude] (this file): the error monad [res] of Python exceptions
      with its notation [let! x := m in k] (scope [py_scope]), the loop
      combinators [for_each] ([for x in xs]), [for_break] (a [for] loop
      whose body may [break]) and [fold_break], [map_res] (a generator
      joined by [''.join] whose elements may raise), [py_try] (a [try]
      with its [except] clauses) and [except_exception] (an
      [except Exception as e] clause, which [SystemExit] passes), their
      lemmas, the hint databases
      [stegem] and [stegem_rw] and the tactic [res_simp].
    - [PyStr]: Python strings as lists of code points ([pystr := list Z])
      and the built-ins the code applies to them: [in] ([contains], with
      [find_index] the lowest occurrence), [str.find] ([py_find]),
      slicing ([py_slice], [py_slice_to]), [str.strip], [str.upper],
      [str.capitalize], [int(c)] on one character ([py_int_char]), [int(s, 2)]
      ([py_int_base2]), [str(n)] on a bit ([str_bit]),
      [format(n, '08b')] ([format_08b]), [chr] ([py_chr]),
      [range(a, b, step)] ([py_range_step]).
    - [Bitstream]: line 75 ([encode_message], [binary_message]) and
      line 153 ([decode_chunk], [decode_message]) of Steganography.py.
    - [Channel]: the abstract specification of the codec on the sequence
      of channel values in traversal order: [set_lsb] ([(v & ~1) | d]),
      [write_slots] (what embedding does to that sequence), [scan_f] (the
      delimiter search of the extractor) and [reveal] (lines 150-156); the
      interface [LsbCarrier] / [LsbCarrierLaws] that the image implements,
      and the abstract round trip [carrier_roundtrip] proved in a Section
      against the interface.
    - [Image]: PIL images as the code sees them (mode, size, a raster of
      pixel tuples), [Image.convert('RGB')] ([convert_rgb],
      [ensure_rgb]), [pixels[x, y]] ([get_pixel], [put_pixel]), [convert('RGBA')],
      [r, g, b = ...] ([unpack3]) and [calculate_max_message_size]
      (lines 26-31).
    - [Embed]: [embed_message] (lines 56-112): the capacity warning and
      the abort, the conversion, the nested loops as a state-passing
      program over (pixel buffer, [binary_index]) ([inject_bit],
      [inject_if_needed], [embed_pixel], [embed_loop], [embed_image]).
    - [Retrieve]: [retrieve_message] (lines 114-156): the two loops with
      the three inner [break]s and the outer one ([retrieve_pixel],
      [retrieve_row], [retrieve_loop]), then the slicing and decoding.
    - [RetrieveMachine]: the same two loops as a small-step machine
      ([rstate], [rstep]): one state per point of control of lines
      129-148 ([AtRow], [AtPixel], [AtChannel], [AfterRow],
      [Finished]), each carrying [binary_message], and one rule per
      transfer of control, the four [break]s included.
    - [Delimiter]: [get_delimiter] and [generate_random_delimiter]
      (lines 33-54), the answers and the random draws being inputs.
    - [Codec]: the image as an instance of [LsbCarrier], the codec round
      trip, and embedding-then-retrieving evaluated on the inputs where
      the message is lost.
    - [Caesar]: [caesar_cipher_encrypt] / [caesar_cipher_decrypt]
      (CaesarCipher.py lines 5-18) over the class [CharClass] of
      [str.isalpha], [str.isupper], [str.isdigit], with the Latin-1
      instance [latin1_class].
    - [World]: what the file system and PIL answer to the script's
      calls ([Image.open], [os.makedirs], [os.path.exists], [os.mkdir],
      [ImageFont.truetype], [draw.text], [Image.alpha_composite],
      [save], [os.remove]), as a record of functions returning a value or an
      exception; these are library code, outside the repository.
    - [Watermark]: [user_driven_watermarking] (Watermarking.py
      lines 1-83): the settings dialogue, [int()] on a decimal literal,
      and the drawing inside its [try] block with the font fallback and
      the handler that catches every [Exception].
    - [Main]: the script of Steganography.py: the start-up
      (lines 17-25 and 158-196, [exit()] being [SystemExit]), then one
      run (lines 198-244) with the menu ([stegem_menu]), the module-level
      code of CaesarCipher.py and the deletion question with its
      [os.remove], as functions of the answers to the prompts
      ([startup_answers], [answers]) and of the [world].

    ** What the theorems show (claims C1-C35)

    - Round trips: two runs of the program, embedding then retrieving,
      give the message back when it has one byte per character, fits with
      the delimiter, and the delimiter is binary and first occurs after it
      (C1, [Main.stegem_roundtrip]); decoding inverts encoding exactly on
      one-byte characters (C4), and encoding inverts decoding on bit
      strings of whole bytes (C32); Caesar decryption inverts encryption
      on ASCII letters and digits (C19), and only there (C21), and two
      encryptions compose into one by the sum of the shifts (C33).
    - Refinement: the nested pixel loops with in-place writes and the
      cursor compute [write_slots] on the channel sequence (C2), and the
      loops with breaks compute [scan_f] (C3).
    - Errors and invariants of the embedding: it raises exactly the
      [ValueError] of [int()] on a non-digit among the bits it writes
      (C5); every saved image is a well-formed RGB image of the same size
      (C6); only the lowest bits change, and they hold the bit string
      (C7); the abort path (C8); an RGBA image is saved as RGB, its
      alpha channel dropped (C35).
    - Retrieval never raises (C9) and never finds a non-binary delimiter
      (C10).  Its early exits do not change its result: it is equivalent
      to reading every channel and cutting at the first occurrence (C25);
      it finds the delimiter whenever it occurs among the lowest bits
      (C26); what it returns is one character below U+0100 per slice of
      eight bits (C27); it stops right after the first occurrence (C30).
    - Where the message is lost, as runs of the program: the scenario of
      the specification returns [chr(1)] (C11); the capacity check
      ignores the delimiter (C12); a message containing the default
      delimiter comes back empty (C13); a character above U+00FF comes
      back as two (C14); the random fallback delimiter makes the
      embedding crash (C15).
    - The delimiter question (C16-C18), the cipher (C19, C20), the
      watermark settings (C22), the menu that says "Exiting." and goes on
      (C23), the prompts of CaesarCipher.py at its import (C24), the
      watermark action, which raises only through [int()] (C28), and the
      start-up, which reaches the menu exactly when the image opens and
      the destination folder is accepted, and otherwise exits (C29).
    - The retrieval loops as a machine: every state reachable from the
      start holds a prefix of the lowest bits in row-major, red-green-blue
      order (C31), an invariant of the intermediate states that the
      functional model of file Retrieve does not expose.
    - The deletion question: after an action that completes, the run
      ends normally, [os.remove] is called exactly on the answer "Y",
      and its failure is caught and printed (C34).

    ** Bounds, fuel and evaluation

    Every loop of the code is a [for] over a [range] of the image size or
    over the characters of a string, so every model is a structural
    recursion over a finite list: no fuel is needed, every definition is
    total and computes by [vm_compute].  The termination of the loops
    therefore holds by construction and is not stated as a theorem: a
    [for] over a [range] ends whatever its body does, so such a theorem
    would say nothing about the code.  Channel values are [Z] and
    stay in [0, 255]: [(v & ~1) | d] is checked for the 256 bytes and the
    ten digits [d] ([Channel.set_lsb_table]); [format(c, '08b')] and
    [int(_, 2)] are checked on the 256 one-byte characters
    ([Bitstream.int_format_table]); the population of
    [generate_random_delimiter] is checked on its 94 characters.  Sizes
    and indices are [nat].

    ** Modelling choices

    Python [str] is a list of code points in [Z]; Python [int] is [Z].
    An exception is a value [inl e] of [res]; [try]/[except] is
    [py_try]; an exception that no handler catches ends the run.  The
    answers to [input()] are parameters.  PIL's image is a record whose
    raster is a flat list in row-major order, [pixels[x, y]] being element
    [y * width + x].  A second run on the saved image stands for running
    the script again on the PNG it wrote (PNG is lossless).  The random
    number generator is a stream of indices below the population size.

    ** Not modelled

    Printing (the welcome message of lines 1-8 and every [print]) and
    the imports; the effect of [os.remove] on later calls (the [world]
    is a fixed answer to each call, not a changing file system, so a
    second run is given its own world); what PIL's text rendering, alpha
    compositing and file formats compute, which the [world] leaves open;
    image modes other than RGB, RGBA and L; Unicode digits other than
    ASCII in [int()]; Unicode case mapping beyond ASCII in [str.upper]
    (the code only compares its result with one ASCII capital letter,
    where ASCII mapping gives the same answer).  The Python built-ins,
    PIL and the file system are library code outside the repository:
    the development models the operations the repository calls, on the
    inputs it passes, and no more, which is why those three components
    are only partly modelled; every other line of the three source files
    is translated by a definition. *)

From stdpp Require Export base list.
From Stdlib Require Export ZArith Lia.

Declare Scope py_scope.
Delimit Scope py_scope with py.
Open Scope py_scope.

(** ** Python exceptions as values *)

Inductive py_error : Type :=
| ValueError
| IndexError
| OSError      (* also [IOError], its alias *)
| SystemExit.  (* raised by [exit()] *)

#[export] Instance py_error_eq_dec : EqDecision py_error.
Proof. solve_decision. Defined.

(** A computation that returns an [A] or raises. *)
Definition res (A : Type) : Type := (py_error + A)%type.

Definition py_ret {A} (x : A) : res A := inr x.
Definition py_raise {A} (e : py_error) : res A := inl e.

Definition res_bind {A B} (m : res A) (k : A -> res B) : res B :=
  match m with
  | inl e => inl e
  | inr x => k x
  end.

Definition res_map {A B} (f : A -> B) (m : res A) : res B :=
  res_bind m (fun x => py_ret (f x)).

(** [try: m] with [except] clauses as the [handler] of the exception. *)
Definition py_try {A} (m : res A) (handler : py_error -> res A) : res A :=
  match m with
  | inl e => handler e
  | inr x => py_ret x
  end.

(** [except Exception as e:] with [handler e] as the value of the
    clause: every exception but [SystemExit], which is not an
    [Exception] and goes through. *)
Definition except_exception {A} (handler : py_error -> A) (e : py_error) : res A :=
  match e with
  | SystemExit => py_raise SystemExit
  | _ => py_ret (handler e)
  end.

Notation "'let!' x ':=' m 'in' k" := (res_bind m (fun x => k))
  (at level 10, x name, m at level 100, k at level 200) : py_scope.
Notation "'let!' ' p ':=' m 'in' k" := (res_bind m (fun p => k))
  (at level 10, p pattern, m at level 100, k at level 200) : py_scope.

(** ** Python loops *)

Section Loops.
Context {A S : Type}.

(** [for x in xs: body] threading the loop state [s]. *)
Fixpoint for_each (xs : list A) (body : A -> S -> res S) (s : S) : res S :=
  match xs with
  | [] => py_ret s
  | x :: xs' => let! s' := body x s in for_each xs' body s'
  end.

(** A [for] loop whose body reports whether it executed [break]. *)
Fixpoint for_break (xs : list A) (body : A -> S -> res (S * bool)) (s : S)
    : res S :=
  match xs with
  | [] => py_ret s
  | x :: xs' =>
      let! '(s', brk) := body x s in
      if brk then py_ret s' else for_break xs' body s'
  end.

(** The pure loop with early exit that [for_break] computes when its
    body cannot raise; the flag says whether the loop was left early. *)
Fixpoint fold_break (f : A -> S -> S * bool) (xs : list A) (s : S)
    : S * bool :=
  match xs with
  | [] => (s, false)
  | x :: xs' =>
      let '(s', brk) := f x s in
      if brk then (s', true) else fold_break f xs' s'
  end.
End Loops.

(** [range(n)] *)
Definition py_range (n : nat) : list nat := seq 0 n.

(** ** Lemmas on the monad and the loops *)

Lemma res_bind_ret {A B} (x : A) (k : A -> res B) :
  res_bind (py_ret x) k = k x.
Proof. reflexivity. Qed.

Lemma res_bind_ret_r {A} (m : res A) : res_bind m py_ret = m.
Proof. by destruct m. Qed.

Lemma res_bind_assoc {A B C} (m : res A) (k : A -> res B) (k' : B -> res C) :
  res_bind (res_bind m k) k' = res_bind m (fun x => res_bind (k x) k').
Proof. by destruct m. Qed.

Lemma res_bind_ext {A B} (m : res A) (k k' : A -> res B) :
  (forall x, m = inr x -> k x = k' x) -> res_bind m k = res_bind m k'.
Proof. destruct m; simpl; auto. Qed.

Lemma res_bind_inr {A B} (m : res A) (k : A -> res B) (y : B) :
  res_bind m k = inr y -> exists x, m = inr x /\ k x = inr y.
Proof. destruct m; simpl; [discriminate | eauto]. Qed.

Lemma res_bind_inl {A B} (m : res A) (k : A -> res B) (e : py_error) :
  res_bind m k = inl e -> m = inl e \/ exists x, m = inr x /\ k x = inl e.
Proof. destruct m; simpl; [intros [= ->]; by left | eauto]. Qed.

(** A [try] with an [except Exception] clause lets only [SystemExit]
    out, and only when the body raised it. *)
Lemma py_try_except_inl {A} (m : res A) (handler : py_error -> A) (e : py_error) :
  py_try m (except_exception handler) = inl e -> e = SystemExit /\ m = inl SystemExit.
Proof. destruct m as [[]|]; simpl; intros H; cbv [py_raise py_ret] in H; try discriminate H; split; congruence. Qed.

(** A chain of calls none of which raises [e] does not raise [e]. *)
Lemma res_bind_not_err {A B} (e : py_error) (m : res A) (k : A -> res B) :
  m <> inl e -> (forall x, k x <> inl e) -> res_bind m k <> inl e.
Proof. intros Hm Hk. destruct m; simpl; [congruence | apply Hk]. Qed.

Lemma py_ret_not_err {A} (e : py_error) (x : A) : py_ret x <> inl e.
Proof. discriminate. Qed.

Create HintDb stegem discriminated.
Create Rewrite HintDb stegem_rw.
#[export] Hint Resolve res_bind_not_err py_ret_not_err : stegem.
#[export] Hint Rewrite @res_bind_ret @res_bind_ret_r @res_bind_assoc : stegem_rw.

(** Simplify binds of known values. *)
Ltac res_simp := repeat (autorewrite with stegem_rw in *; simpl in *).

Section LoopLemmas.
Context {A S : Type}.

Lemma for_each_app (xs ys : list A) (body : A -> S -> res S) (s : S) :
  for_each (xs ++ ys) body s =
  let! s' := for_each xs body s in for_each ys body s'.
Proof.
  revert s; induction xs as [|x xs IH]; intros s; simpl; [done|].
  rewrite res_bind_assoc. apply res_bind_ext. intros. apply IH.
Qed.

Lemma for_each_ext (xs : list A) (body body' : A -> S -> res S) (s : S) :
  (forall x s, In x xs -> body x s = body' x s) ->
  for_each xs body s = for_each xs body' s.
Proof.
  revert s; induction xs as [|x xs IH]; intros s Hb; simpl; [done|].
  rewrite Hb by (left; done). apply res_bind_ext. intros. apply IH.
  intros. apply Hb. by right.
Qed.

(** Nested loops are one loop over the concatenated index lists. *)
Lemma for_each_flat_map {B} (g : B -> list A) (ys : list B)
    (body : A -> S -> res S) (s : S) :
  for_each ys (fun y => for_each (g y) body) s =
  for_each (ys ≫= g) body s.
Proof.
  revert s; induction ys as [|y ys IH]; intros s; simpl; [done|].
  rewrite for_each_app. apply res_bind_ext. intros. apply IH.
Qed.

Lemma for_each_fmap {B} (f : B -> A) (ys : list B)
    (body : A -> S -> res S) (s : S) :
  for_each (f <$> ys) body s = for_each ys (fun y => body (f y)) s.
Proof.
  revert s; induction ys as [|y ys IH]; intros s; simpl; [done|].
  apply res_bind_ext. intros. apply IH.
Qed.

(** A [for]-[break] loop whose body never raises computes [fold_break]. *)
Lemma for_break_pure (xs : list A) (body : A -> S -> res (S * bool))
    (f : A -> S -> S * bool) (s : S) :
  (forall x s, In x xs -> body x s = py_ret (f x s)) ->
  for_break xs body s = py_ret (fold_break f xs s).1.
Proof.
  revert s; induction xs as [|x xs IH]; intros s Hb; simpl; [done|].
  rewrite Hb by (left; done). simpl. destruct (f x s) as [s' []]; [done|].
  apply IH. intros. apply Hb. by right.
Qed.

Lemma fold_break_app (f : A -> S -> S * bool) (xs ys : list A) (s : S) :
  fold_break f (xs ++ ys) s =
  let '(s', brk) := fold_break f xs s in
  if brk then (s', true) else fold_break f ys s'.
Proof.
  revert s; induction xs as [|x xs IH]; intros s; simpl; [done|].
  destruct (f x s) as [s' []]; [done|]. apply IH.
Qed.
End LoopLemmas.

(** ** Generic list lemmas *)

Lemma seq_S_end (start n : nat) : seq start (S n) = seq start n ++ [start + n].
Proof. rewrite <- Nat.add_1_r, seq_app. done. Qed.

(** [seq] shifted by an offset is [seq] from zero mapped by the offset. *)
Lemma seq_shift_fmap (a n : nat) : seq a n = (fun x => a + x) <$> seq 0 n.
Proof.
  revert a; induction n as [|n IH]; intros a; [done|].
  by rewrite !seq_S_end, fmap_app, IH.
Qed.

Lemma drop_length_min {A} (l : list A) (i : nat) :
  drop (Nat.min (length l) i) l = drop i l.
Proof.
  destruct (Nat.le_ge_cases (length l) i).
  - rewrite Nat.min_l by done. rewrite !drop_ge; auto.
  - by rewrite Nat.min_r.
Qed.

(** [[f(x) for x in xs]]: evaluated left to right, the first exception
    ends the comprehension. *)
Fixpoint map_res {A B} (f : A -> res B) (xs : list A) : res (list B) :=
  match xs with
  | [] => py_ret []
  | x :: xs' => let! y := f x in let! ys := map_res f xs' in py_ret (y :: ys)
  end.

Lemma map_res_ext {A B} (f g : A -> res B) (xs : list A) :
  (forall x, In x xs -> f x = g x) -> map_res f xs = map_res g xs.
Proof.
  induction xs as [|x xs IH]; intros H; simpl; [done|].
  rewrite H by (left; done). apply res_bind_ext. intros. by rewrite IH by (intros; apply H; by right).
Qed.

Lemma map_res_fmap {A B C} (f : B -> res C) (g : A -> B) (xs : list A) :
  map_res f (g <$> xs) = map_res (fun x => f (g x)) xs.
Proof.
  induction xs as [|x xs IH]; [done|].
  change (g <$> x :: xs) with (g x :: (g <$> xs)). cbn [map_res]. by rewrite IH.
Qed.

(** A comprehension whose elements all succeed. *)
Lemma map_res_ok {A B} (f : A -> res B) (g : A -> B) (xs : list A) :
  (forall x, In x xs -> f x = py_ret (g x)) -> map_res f xs = py_ret (g <$> xs).
Proof.
  induction xs as [|x xs IH]; intros H; simpl; [done|].
  rewrite H by (left; done). rewrite res_bind_ret, IH; [done|].
  intros y Hy. apply H. by right.
Qed.

Lemma fmap_concat_list {A B} (f : A -> B) (l : list (list A)) :
  f <$> concat l = concat ((fun x : list A => f <$> x) <$> l).
Proof.
  induction l as [|x l IH]; [done|].
  by rewrite concat_cons, fmap_app, IH, fmap_cons, concat_cons.
Qed.

Lemma map_res_app {A B} (f : A -> res B) (xs ys : list A) :
  map_res f (xs ++ ys) =
  let! a := map_res f xs in let! b := map_res f ys in py_ret (a ++ b).
Proof.
  induction xs as [|x xs IH]; simpl.
  - by rewrite res_bind_ret_r.
  - rewrite res_bind_assoc. apply res_bind_ext. intros y _.
    rewrite IH, !res_bind_assoc. apply res_bind_ext. intros a _. simpl.
    rewrite res_bind_assoc. apply res_bind_ext. intros b _. done.
Qed.

(** A comprehension that succeeds has one element per input. *)
Lemma map_res_length {A B} (f : A -> res B) (xs : list A) (ys : list B) :
  map_res f xs = py_ret ys -> length ys = length xs.
Proof.
  revert ys; induction xs as [|x xs IH]; intros ys H; simpl in H.
  - by injection H as <-.
  - apply res_bind_inr in H as [y [_ H]]. apply res_bind_inr in H as [ys' [H' H]].
    injection H as <-. simpl. by rewrite (IH _ H').
Qed.
