(* ===== verification/PyStr.v ===== *)
(** Python strings and the built-ins that Steganography.py applies to them.

    A Python [str] is a sequence of code points: [pystr := list Z].  The
    file holds [d in s] ([contains]), [s.find(d)] ([py_find]), slicing,
    [str.strip], [str.upper], [int(c)] on a one-character string,
    [int(s, 2)], [str(b)] on a bit, [format(n, '08b')], [chr] and
    [range(start, stop, step)], with the lemmas the codec proofs share:
    where the first occurrence of a delimiter lies in a concatenation, the
    shape of [format(n, '08b')], and its inverse [int(., 2)]. *)

From S2P Require Import Prelude.
From Stdlib Require String Ascii.
Export String.StringSyntax.
Delimit Scope string_scope with string.

Abbreviation pystr := (list Z).

(** A Rocq string literal as the Python [str] with the same ASCII text. *)
Definition pystr_of (s : String.string) : pystr :=
  map (fun a => Z.of_nat (Ascii.nat_of_ascii a)) (String.list_ascii_of_string s).

(** The characters ['0'] and ['1']. *)
Definition ch_0 : Z := 48.
Definition ch_1 : Z := 49.

Definition is_bit_char (c : Z) : bool := (c =? ch_0)%Z || (c =? ch_1)%Z.

(** ** [d in s] and [s.find(d)] *)

Fixpoint is_prefix (d s : pystr) : bool :=
  match d, s with
  | [], _ => true
  | c :: d', c' :: s' => (c =? c')%Z && is_prefix d' s'
  | _ :: _, [] => false
  end.

(** The lowest index at which [d] occurs in [s]. *)
Fixpoint find_index (d s : pystr) : option nat :=
  if is_prefix d s then Some 0
  else match s with
       | [] => None
       | _ :: s' => S <$> find_index d s'
       end.

(** [d in s] *)
Definition contains (d s : pystr) : bool :=
  match find_index d s with Some _ => true | None => false end.

(** [s.find(d)]: the lowest index, or [-1]. *)
Definition py_find (s d : pystr) : Z :=
  match find_index d s with Some i => Z.of_nat i | None => (-1)%Z end.

(** [s[:k]], a negative [k] counting from the end. *)
Definition py_slice_to (s : pystr) (k : Z) : pystr :=
  if (k <? 0)%Z then take (Z.to_nat (Z.of_nat (length s) + k)) s
  else take (Z.to_nat k) s.

(** [s[i:j]] for non-negative [i] and [j]. *)
Definition py_slice (s : pystr) (i j : nat) : pystr := take (j - i) (drop i s).

(** [range(start, stop, step)] for a positive [step]. *)
Definition py_range_step (start stop step : nat) : list nat :=
  (fun j => start + j * step) <$> seq 0 ((stop - start + step - 1) / step).

(** ** [str.strip()] and [str.upper()] *)

(** [str.isspace] on one code point: the characters Python strips. *)
Definition py_isspace (c : Z) : bool :=
  (((9 <=? c) && (c <=? 13)) || ((28 <=? c) && (c <=? 32)) || (c =? 133)
   || (c =? 160) || (c =? 5760) || ((8192 <=? c) && (c <=? 8202))
   || (c =? 8232) || (c =? 8233) || (c =? 8239) || (c =? 8287)
   || (c =? 12288))%Z.

Fixpoint lstrip (s : pystr) : pystr :=
  match s with
  | c :: s' => if py_isspace c then lstrip s' else s
  | [] => []
  end.

Definition py_strip (s : pystr) : pystr := reverse (lstrip (reverse (lstrip s))).

(** [str.upper] on ASCII letters; other code points are kept. *)
Definition py_upper (s : pystr) : pystr :=
  map (fun c => if ((97 <=? c) && (c <=? 122))%Z then (c - 32)%Z else c) s.

(** [os.path.join(a, b)] on POSIX: [b] when it is absolute, otherwise
    [a] and [b] separated by one ['/']. *)
Definition py_path_join (a b : pystr) : pystr :=
  match b with
  | 47%Z :: _ => b
  | _ => if bool_decide (a = []) || bool_decide (last a = Some 47%Z) then a ++ b else a ++ [47%Z] ++ b
  end.

(** [str.lower] on ASCII letters. *)
Definition py_lower (s : pystr) : pystr :=
  map (fun c => if ((65 <=? c) && (c <=? 90))%Z then (c + 32)%Z else c) s.

(** [str.capitalize]: the first character upper-cased, the others
    lower-cased (on ASCII letters). *)
Definition py_capitalize (s : pystr) : pystr :=
  match s with [] => [] | c :: t => py_upper [c] ++ py_lower t end.

Definition pystr_eqb (s t : pystr) : bool := bool_decide (s = t).

(** ** Conversions between characters and integers *)

(** [int(c)] for a one-character string [c]. *)
Definition py_int_char (c : Z) : res Z :=
  if ((48 <=? c) && (c <=? 57))%Z then py_ret (c - 48)%Z else py_raise ValueError.

(** [str(n)] for a one-digit non-negative [n]. *)
Definition str_bit (n : Z) : pystr := [(48 + n)%Z].

(** [chr(k)] *)
Definition py_chr (k : Z) : res Z :=
  if ((0 <=? k) && (k <=? 1114111))%Z then py_ret k else py_raise ValueError.

(** Number of binary digits of a non-negative integer ([bin(0)] has one). *)
Definition ndigits (n : Z) : nat := S (Z.to_nat (Z.log2 n)).

(** [format(n, '08b')] for [n >= 0]: the binary digits of [n], most
    significant first, padded with ['0'] to at least eight. *)
Definition format_08b (n : Z) : pystr :=
  let w := Nat.max 8 (ndigits n) in
  (fun i => 48 + Z.b2z (Z.testbit n (Z.of_nat (w - 1 - i))))%Z <$> seq 0 w.

Fixpoint horner2 (acc : Z) (s : pystr) : res Z :=
  match s with
  | [] => py_ret acc
  | c :: s' =>
      if (c =? ch_0)%Z then horner2 (2 * acc) s'
      else if (c =? ch_1)%Z then horner2 (2 * acc + 1) s'
      else py_raise ValueError
  end.

(** [int(s, 2)] for a string of ['0'] and ['1']. *)
Definition py_int_base2 (s : pystr) : res Z :=
  match s with
  | [] => py_raise ValueError
  | _ => horner2 0 s
  end.

(** ** Lemmas *)

Lemma is_prefix_spec (d s : pystr) :
  is_prefix d s = true <-> exists r, s = d ++ r.
Proof.
  revert s; induction d as [|c d IH]; intros [|c' s]; simpl.
  - split; eauto.
  - split; eauto.
  - split; [discriminate | intros [r Hr]; discriminate].
  - rewrite andb_true_iff, Z.eqb_eq, IH. split.
    + intros [-> [r ->]]. eauto.
    + intros [r Hr]. injection Hr as -> ->. eauto.
Qed.

Lemma is_prefix_app (d s t : pystr) :
  is_prefix d s = true -> is_prefix d (s ++ t) = true.
Proof.
  rewrite !is_prefix_spec. intros [r ->]. exists (r ++ t). by rewrite app_assoc.
Qed.

Lemma is_prefix_refl_app (d r : pystr) : is_prefix d (d ++ r) = true.
Proof. apply is_prefix_spec. eauto. Qed.

Lemma find_index_spec (d s : pystr) (i : nat) :
  find_index d s = Some i <->
  is_prefix d (drop i s) = true /\
  (forall j, j < i -> is_prefix d (drop j s) = false).
Proof.
  revert i; induction s as [|c s IH]; intros i; simpl.
  - destruct (is_prefix d []) eqn:E.
    + split; [intros [= <-]; split; [done | lia]|].
      intros [_ Hj]. destruct i; [done|]. specialize (Hj 0). simpl in Hj.
      rewrite Hj in E; [discriminate | lia].
    + split; [discriminate|]. intros [H _]. rewrite drop_nil in H. congruence.
  - destruct (is_prefix d (c :: s)) eqn:E.
    + split; [intros [= <-]; split; [done | lia]|].
      intros [_ Hj]. destruct i; [done|]. specialize (Hj 0). simpl in Hj.
      rewrite Hj in E; [discriminate | lia].
    + destruct (find_index d s) as [k|] eqn:Ek; simpl.
      * split.
        -- intros [= <-]. destruct (proj1 (IH k) eq_refl) as [Hk Hj].
           split; [done|]. intros [|j] ?; [done|]. apply Hj. lia.
        -- intros [Hi Hj]. destruct i as [|i]; [simpl in Hi; congruence|].
           assert (Some k = Some i) as [= ->]; [|done].
           apply IH. split; [done|]. intros j ?. apply (Hj (S j)). lia.
      * split; [discriminate|]. intros [Hi Hj].
        destruct i as [|i]; [simpl in Hi; congruence|].
        assert (None = Some i) as Hs; [|discriminate].
        apply IH. split; [done|]. intros j ?. apply (Hj (S j)). lia.
Qed.

Lemma find_index_None (d s : pystr) :
  find_index d s = None -> forall i, is_prefix d (drop i s) = false.
Proof.
  induction s as [|c s IH]; simpl; intros E i.
  - rewrite drop_nil. by destruct (is_prefix d []).
  - destruct (is_prefix d (c :: s)) eqn:Ep; [discriminate|].
    destruct i as [|i]; [done|]. simpl. apply IH.
    by destruct (find_index d s).
Qed.

Lemma contains_spec (d s : pystr) :
  contains d s = true <-> exists i, is_prefix d (drop i s) = true.
Proof.
  unfold contains. destruct (find_index d s) as [i|] eqn:E.
  - apply find_index_spec in E as [Hi _]. split; eauto.
  - split; [discriminate|]. intros [i Hi].
    by rewrite (find_index_None d s E i) in Hi.
Qed.

(** A match inside [s] stays a match once [s] is extended. *)
Lemma contains_app (d s t : pystr) :
  contains d s = true -> contains d (s ++ t) = true.
Proof.
  rewrite !contains_spec. intros [i Hi]. exists i.
  destruct (decide (i <= length s)).
  - rewrite drop_app_le by done. by apply is_prefix_app.
  - rewrite drop_ge in Hi by lia. destruct d; [done | discriminate].
Qed.

Lemma contains_suffix (d s : pystr) : contains d (s ++ d) = true.
Proof.
  apply contains_spec. exists (length s). rewrite drop_app_length.
  rewrite <- (app_nil_r d) at 2. apply is_prefix_refl_app.
Qed.

(** If [d] first occurs in [s] at index [i], the same holds in [s ++ t]. *)
Lemma find_index_app (d s t : pystr) (i : nat) :
  find_index d s = Some i -> find_index d (s ++ t) = Some i \/
  exists j, j < i /\ find_index d (s ++ t) = Some j.
Proof.
  intros H. destruct (find_index d (s ++ t)) as [j|] eqn:E.
  - destruct (Nat.lt_ge_cases j i) as [Hlt|Hge]; [eauto|].
    apply find_index_spec in H as [Hi _]. apply find_index_spec in E as [_ Hj].
    left. f_equal. destruct (Nat.eq_dec j i) as [|Hne]; [done|].
    exfalso. specialize (Hj i ltac:(lia)).
    destruct (decide (i <= length s)).
    + rewrite drop_app_le, (is_prefix_app _ _ _ Hi) in Hj by done. discriminate.
    + rewrite drop_ge in Hi by lia. destruct d; [discriminate | discriminate].
  - exfalso. assert (contains d (s ++ t) = true) as Hc.
    { apply contains_app. unfold contains. by rewrite H. }
    unfold contains in Hc. by rewrite E in Hc.
Qed.

Lemma py_int_char_range (c d : Z) : py_int_char c = py_ret d -> (0 <= d <= 9)%Z.
Proof.
  unfold py_int_char. destruct (Z.leb_spec 48 c), (Z.leb_spec c 57); simpl;
    intros E; try discriminate; injection E as <-; lia.
Qed.

(** [c.isdigit()] for an ASCII character: what [int(c)] accepts. *)
Definition is_digit_char (c : Z) : bool := ((48 <=? c) && (c <=? 57))%Z.

Lemma py_int_char_digit (c : Z) :
  py_int_char c = if is_digit_char c then py_ret (c - 48)%Z else py_raise ValueError.
Proof. reflexivity. Qed.
