(* ===== verification/Bitstream.v ===== *)
(** The bit string of a message (Steganography.py, lines 75 and 153).

    [embed_message] turns the message into the string
    [''.join(format(ord(char), '08b') for char in message)] and appends the
    delimiter; [retrieve_message] cuts the recovered string into slices of
    eight characters and maps each through [chr(int(slice, 2))].  This
    file models both conversions and proves that decoding inverts encoding
    for code points below 256, and what happens above: [format] then
    writes more than eight digits; and that, conversely, every string of
    whole bytes of bits is the encoding of the message it decodes to. *)

From S2P Require Import Prelude PyStr.

(** ** Definitions *)

(** [''.join(format(ord(char), '08b') for char in message)] *)
Definition encode_message (message : pystr) : pystr :=
  concat (format_08b <$> message).

(** [binary_message] of line 75: the encoded message, then the delimiter. *)
Definition binary_message (message delimiter : pystr) : pystr :=
  encode_message message ++ delimiter.

(** [chr(int(binary_message[i:i + 8], 2))] *)
Definition decode_chunk (bm : pystr) (i : nat) : res Z :=
  let! k := py_int_base2 (py_slice bm i (i + 8)) in py_chr k.

(** [''.join(chr(int(bm[i:i + 8], 2)) for i in range(0, len(bm), 8))] *)
Definition decode_message (bm : pystr) : res pystr :=
  map_res (decode_chunk bm) (py_range_step 0 (length bm) 8).

(** A message whose characters all fit in one byte. *)
Definition latin1 (message : pystr) : Prop :=
  Forall (fun c => 0 <= c < 256)%Z message.

#[export] Instance latin1_dec message : Decision (latin1 message).
Proof. unfold latin1. apply _. Defined.

(** ** [format(n, '08b')] on one byte *)

Lemma ndigits_byte (c : Z) : (0 <= c < 256)%Z -> ndigits c <= 8.
Proof.
  intros Hc. unfold ndigits.
  destruct (Z.eq_dec c 0) as [->|]; [simpl; lia|].
  assert (Z.log2 c < 8)%Z by (apply Z.log2_lt_pow2; lia).
  pose proof (Z.log2_nonneg c). lia.
Qed.

Lemma format_08b_byte (c : Z) : (0 <= c < 256)%Z ->
  format_08b c =
  (fun i => 48 + Z.b2z (Z.testbit c (Z.of_nat (7 - i))))%Z <$> seq 0 8.
Proof.
  intros Hc. unfold format_08b. by rewrite Nat.max_l by (apply ndigits_byte; done).
Qed.

Lemma length_format_08b_byte (c : Z) : (0 <= c < 256)%Z ->
  length (format_08b c) = 8.
Proof. intros Hc. by rewrite format_08b_byte, length_fmap, length_seq. Qed.

(** Every character of [format(n, '08b')] is ['0'] or ['1']. *)
Lemma format_08b_bits (c : Z) : Forall (fun x => is_bit_char x = true) (format_08b c).
Proof.
  unfold format_08b. apply Forall_fmap, Forall_forall. intros i _. simpl.
  by destruct (Z.testbit _ _).
Qed.

(** [int(format(c, '08b'), 2) = c] for each of the 256 bytes, checked
    by evaluation. *)
Lemma int_format_table :
  forallb (fun n => bool_decide (py_int_base2 (format_08b (Z.of_nat n)) =
                                 py_ret (Z.of_nat n)))
          (seq 0 256) = true.
Proof. vm_compute. reflexivity. Qed.

Lemma int_format_08b (c : Z) : (0 <= c < 256)%Z ->
  py_int_base2 (format_08b c) = py_ret c.
Proof.
  intros Hc. pose proof int_format_table as T.
  rewrite forallb_forall in T. specialize (T (Z.to_nat c)).
  rewrite Z2Nat.id in T by lia. apply bool_decide_eq_true in T; [done|].
  apply in_seq. lia.
Qed.

(** ** Decoding inverts encoding *)

Lemma py_range_step_8_cons (n : nat) :
  py_range_step 0 (8 + n) 8 = 0 :: ((fun i => 8 + i) <$> py_range_step 0 n 8).
Proof.
  unfold py_range_step. rewrite !Nat.sub_0_r.
  replace (8 + n + 8 - 1) with (1 * 8 + (n + 8 - 1)) by lia.
  rewrite Nat.div_add_l by lia. simpl. f_equal.
  rewrite (seq_shift_fmap 1), <- !list_fmap_compose. apply list_fmap_ext.
  intros. simpl. lia.
Qed.

Lemma decode_chunk_app_0 (b r : pystr) : length b = 8 ->
  decode_chunk (b ++ r) 0 = decode_chunk b 0.
Proof.
  intros Hb. unfold decode_chunk, py_slice. rewrite !drop_0, Nat.sub_0_r.
  by rewrite take_app_length', take_ge by lia.
Qed.

Lemma decode_chunk_app_8 (b r : pystr) (i : nat) : length b = 8 ->
  decode_chunk (b ++ r) (8 + i) = decode_chunk r i.
Proof.
  intros Hb. unfold decode_chunk, py_slice.
  assert (drop (8 + i) (b ++ r) = drop i r) as ->.
  { rewrite <- Hb, <- drop_drop. by rewrite drop_app_length. }
  by replace (8 + i + 8 - (8 + i)) with (i + 8 - i) by lia.
Qed.

(** Decoding a string that starts with one full byte. *)
Lemma decode_message_app8 (b r : pystr) : length b = 8 ->
  decode_message (b ++ r) =
  let! c := decode_chunk b 0 in
  let! cs := decode_message r in py_ret (c :: cs).
Proof.
  intros Hb. unfold decode_message.
  rewrite length_app, Hb, py_range_step_8_cons. simpl map_res.
  rewrite decode_chunk_app_0 by done. apply res_bind_ext. intros c _.
  rewrite map_res_fmap. f_equal. apply map_res_ext. intros i _.
  by apply decode_chunk_app_8.
Qed.

Lemma decode_chunk_format (c : Z) : (0 <= c < 256)%Z ->
  decode_chunk (format_08b c) 0 = py_ret c.
Proof.
  intros Hc. unfold decode_chunk, py_slice. rewrite drop_0, take_ge.
  - rewrite int_format_08b by done. unfold py_chr. simpl.
    destruct (Z.leb_spec 0 c), (Z.leb_spec c 1114111); simpl; [done|lia..].
  - rewrite length_format_08b_byte; lia.
Qed.

(** Round trip: the recovered text of an encoded one-byte-per-character
    message is the message. *)
Lemma decode_encode_message (message : pystr) : latin1 message ->
  decode_message (encode_message message) = py_ret message.
Proof.
  induction 1 as [|c m Hc Hm IH]; [done|].
  unfold encode_message. rewrite fmap_cons, concat_cons.
  rewrite decode_message_app8 by (by apply length_format_08b_byte).
  rewrite decode_chunk_format by done. simpl. fold (encode_message m).
  by rewrite IH.
Qed.

Lemma length_encode_message (message : pystr) : latin1 message ->
  length (encode_message message) = 8 * length message.
Proof.
  induction 1 as [|c m Hc Hm IH]; [done|].
  unfold encode_message. rewrite fmap_cons, concat_cons, length_app.
  fold (encode_message m). rewrite IH, length_format_08b_byte by done. simpl. lia.
Qed.

Lemma encode_message_bits (message : pystr) :
  Forall (fun x => is_bit_char x = true) (encode_message message).
Proof.
  unfold encode_message. apply Forall_concat, Forall_fmap, Forall_forall.
  intros c _. apply format_08b_bits.
Qed.

(** ** Decoding a string of bits never raises *)

Definition binary (s : pystr) : Prop := Forall (fun c => is_bit_char c = true) s.

Lemma horner2_binary (acc : Z) (s : pystr) : binary s ->
  exists v, horner2 acc s = py_ret (acc * 2 ^ Z.of_nat (length s) + v)%Z /\
            (0 <= v < 2 ^ Z.of_nat (length s))%Z.
Proof.
  revert acc; induction s as [|c s IH]; intros acc Hs.
  - exists 0%Z. simpl. split; [f_equal; lia | lia].
  - apply Forall_cons in Hs as [Hc Hs]. unfold is_bit_char, ch_0, ch_1 in Hc.
    rewrite orb_true_iff, !Z.eqb_eq in Hc. simpl length. rewrite Nat2Z.inj_succ, Z.pow_succ_r by lia.
    destruct Hc as [-> | ->]; simpl.
    + destruct (IH (2 * acc)%Z Hs) as [v [Hv Hr]]. exists v. rewrite Hv. split; [f_equal; lia | lia].
    + destruct (IH (2 * acc + 1)%Z Hs) as [v [Hv Hr]].
      exists (2 ^ Z.of_nat (length s) + v)%Z. rewrite Hv. split; [f_equal; lia | lia].
Qed.

Lemma decode_chunk_binary (bm : pystr) (i : nat) : binary bm -> i < length bm ->
  exists k, decode_chunk bm i = py_ret k /\ (0 <= k < 256)%Z.
Proof.
  intros Hb Hi. unfold decode_chunk, py_slice. replace (i + 8 - i) with 8 by lia.
  assert (binary (take 8 (drop i bm))) as Hs by (by apply Forall_take, Forall_drop).
  destruct (take 8 (drop i bm)) as [|c s] eqn:E.
  - apply (f_equal length) in E. rewrite length_take, length_drop in E. change (length (@nil Z)) with 0 in E. lia.
  - assert (length (c :: s) <= 8) as Hl by (rewrite <- E, length_take; lia).
    destruct (horner2_binary 0 (c :: s) Hs) as [v [Hv Hr]]. change (py_int_base2 (c :: s)) with (horner2 0 (c :: s)).
    rewrite Hv. exists v. cbn [res_bind py_ret]. replace (0 * _ + v)%Z with v by lia.
    assert (2 ^ Z.of_nat (length (c :: s)) <= 2 ^ 8)%Z
      by (apply Z.pow_le_mono_r; lia).
    unfold py_chr. destruct (Z.leb_spec 0 v), (Z.leb_spec v 1114111); simpl;
      [split; [done | lia] | lia..].
Qed.

(** [''.join(chr(int(bm[i:i + 8], 2)) ...)] succeeds on a string of bits,
    with one byte per slice (the last one possibly shorter). *)
Lemma decode_message_binary (bm : pystr) : binary bm ->
  exists message, decode_message bm = py_ret message /\ latin1 message.
Proof.
  intros Hb. unfold decode_message, py_range_step. rewrite Nat.sub_0_r.
  remember ((length bm + 8 - 1) / 8) as n eqn:Hn.
  assert (forall j, j < n -> j * 8 < length bm) as Hj.
  { intros j Hjn. subst n. pose proof (Nat.Div0.mul_div_le (length bm + 8 - 1) 8). lia. }
  clear Hn. induction n as [|n IH]; [exists []; split; [done | constructor]|].
  rewrite seq_S_end, fmap_app.
  destruct IH as [m [Hm Hlat]]; [intros; apply Hj; lia|].
  destruct (decode_chunk_binary bm (0 + n * 8) Hb) as [k [Hk Hr]]; [simpl; apply Hj; lia|].
  exists (m ++ [k]). split; [|by apply Forall_app; split; [|constructor]].
  rewrite map_res_app, Hm. cbn [res_bind py_ret map_res fmap list_fmap]. replace (0 + (0 + n) * 8) with (0 + n * 8) by lia. by rewrite Hk.
Qed.

(** C4. Round trip of the bit-string encoding: decoding [encode_message]
    gives the message back exactly when every character is below U+0100;
    a wider character makes the decoded text differ. *)
Theorem encode_decode_roundtrip (message : pystr) :
  decode_message (encode_message message) = py_ret message <-> latin1 message.
Proof.
  split; [|apply decode_encode_message].
  intros H. destruct (decode_message_binary _ (encode_message_bits message)) as [m [Hm Hl]].
  rewrite H in Hm. by injection Hm as ->.
Qed.

Lemma encode_decode_roundtrip_witness :
  decode_message (encode_message [72%Z; 105%Z]) = py_ret [72%Z; 105%Z] /\
  decode_message (encode_message [256%Z]) <> py_ret [256%Z].
Proof.
  split; [apply encode_decode_roundtrip; repeat constructor; lia|].
  intros H. apply encode_decode_roundtrip in H. inversion H. lia.
Defined.

(** ** Encoding inverts decoding on whole bytes *)

(** Every string of eight bits is [format(c, '08b')] of a byte: the 256
    strings are enumerated, each by its [int(_, 2)]. *)
Lemma byte_bits_format (b : pystr) : binary b -> length b = 8 ->
  exists c, (0 <= c < 256)%Z /\ b = format_08b c.
Proof.
  intros Hb Hl.
  assert (forall x, is_bit_char x = true -> x = 48%Z \/ x = 49%Z) as Hx
    by (intros x; unfold is_bit_char, ch_0, ch_1; rewrite orb_true_iff, !Z.eqb_eq; done).
  destruct b as [|x0 [|x1 [|x2 [|x3 [|x4 [|x5 [|x6 [|x7 [|]]]]]]]]]; try discriminate Hl.
  unfold binary in Hb.
  repeat match goal with H : Forall _ (_ :: _) |- _ => apply Forall_cons in H as [? H] end.
  repeat match goal with H : is_bit_char ?x = true |- _ => apply Hx in H as [-> | ->] end.
  all: match goal with
  | |- exists c, _ /\ ?b = _ =>
      let v := eval vm_compute in (horner2 0 b) in
      match v with inr ?k => exists k; split; [lia | vm_compute; reflexivity] end
  end.
Qed.

(** The decoded text has one character per slice of eight, the last
    slice possibly shorter. *)
Lemma decode_message_length (bm message : pystr) :
  decode_message bm = py_ret message -> length message = (length bm + 7) / 8.
Proof.
  unfold decode_message, py_range_step. intros H. apply map_res_length in H.
  rewrite H, length_fmap, length_seq. f_equal. lia.
Qed.

(** C32. Round trip in the other direction: a string of ['0'] and ['1']
    whose length is a multiple of eight decodes without error to a
    message of one-byte characters whose encoding is that string again:
    [decode_message] and [encode_message] are inverse bijections between
    such bit strings and Latin-1 messages. *)
Theorem encode_message_of_bits (bm : pystr) :
  binary bm -> length bm mod 8 = 0 ->
  exists message, decode_message bm = py_ret message /\ latin1 message /\
                  encode_message message = bm.
Proof.
  intros Hb Hm. pose proof (Nat.div_mod_eq (length bm) 8) as Hn.
  rewrite Hm, Nat.add_0_r in Hn. remember (length bm / 8) as n eqn:E. clear E Hm.
  revert bm Hn Hb. induction n as [|n IH]; intros bm Hn Hb.
  - assert (bm = []) as -> by (destruct bm; [done|]; simpl in *; lia).
    exists []. repeat split; constructor.
  - rewrite <- (take_drop 8 bm) in Hb |- *. apply Forall_app in Hb as [Hb1 Hb2].
    assert (length (take 8 bm) = 8) as Hl by (rewrite length_take; lia).
    destruct (byte_bits_format _ Hb1 Hl) as [c [Hc Hcb]].
    destruct (IH (drop 8 bm)) as [m [Hd [Hlat He]]]; [rewrite length_drop; lia|done|].
    exists (c :: m). rewrite decode_message_app8, Hcb, decode_chunk_format, Hd by done.
    split; [done|]. split; [by constructor|].
    unfold encode_message. rewrite fmap_cons, concat_cons. fold (encode_message m). by rewrite He.
Qed.

Lemma encode_message_of_bits_witness :
  binary [48; 49; 48; 48; 49; 48; 48; 48]%Z /\ length [48; 49; 48; 48; 49; 48; 48; 48]%Z mod 8 = 0 /\
  exists message, decode_message [48; 49; 48; 48; 49; 48; 48; 48]%Z = py_ret message /\
    latin1 message /\ encode_message message = [48; 49; 48; 48; 49; 48; 48; 48]%Z.
Proof.
  assert (binary [48; 49; 48; 48; 49; 48; 48; 48]%Z) as Hb by (repeat constructor).
  split; [exact Hb|]. split; [reflexivity|].
  apply encode_message_of_bits; [exact Hb | reflexivity].
Defined.
