(* ===== verification/Channel.v ===== *)
(** The codec on the channel sequence, and the interface between the
    embedder and the extractor.

    Both loops of Steganography.py visit the pixels in row-major order and,
    within a pixel, red, green, blue.  Flattened, the image is a sequence
    of channel values (the "slots").  On that sequence:
    - embedding (lines 86-107) is [write_slots]: the k-th slot gets the
      k-th character of the bit string in its lowest bit, through
      [(v & ~1) | int(c)]; slots past the end of the bit string are left
      as they are, and characters past the last slot are dropped;
    - retrieval (lines 126-148) is [scan_f] on the string of lowest bits:
      append one character, stop as soon as the delimiter occurs;
    - the decoding after the loop (lines 151-156) is [reveal].
    [LsbCarrier] states what an image implementation must provide: its
    slots, the two loops, and the laws tying the loops to [write_slots]
    and [scan_f].  The round trip [carrier_roundtrip] is proved once
    against the interface. *)

From S2P Require Import Prelude PyStr Bitstream.

(** ** Channel writes *)

(** [(v & ~1) | d] (lines 93, 98, 103). *)
Definition set_lsb (v d : Z) : Z := Z.lor (Z.land v (Z.lnot 1)) d.

(** The character [str(v & 1)] (lines 134, 139, 144). *)
Definition lsb_char (v : Z) : Z := (48 + Z.land v 1)%Z.

(** Embedding on the slot sequence. *)
Fixpoint write_slots (bits : pystr) (vs : list Z) : res (list Z) :=
  match vs, bits with
  | v :: vs', c :: bits' =>
      let! d := py_int_char c in
      let! vs'' := write_slots bits' vs' in
      py_ret (set_lsb v d :: vs'')
  | _, _ => py_ret vs
  end.

(** ** The delimiter search *)

(** One step of the extractor: append a character, test for the
    delimiter. *)
Definition scan_step (d : pystr) (c : Z) (acc : pystr) : pystr * bool :=
  (acc ++ [c], contains d (acc ++ [c])).

(** The accumulated string when the search stops, and whether it stopped
    on a match. *)
Definition scan_f (d acc : pystr) (cs : pystr) : pystr * bool :=
  fold_break (scan_step d) cs acc.

(** The result of [retrieve_message]. *)
Inductive retrieve_outcome : Type :=
| Retrieved (message : pystr)
| NoMessage
| RetrieveCrashed (e : py_error).

(** Lines 151-156: cut at the first occurrence of the delimiter and
    decode, or report that no message was found. *)
Definition reveal (d bm : pystr) : retrieve_outcome :=
  if contains d bm then
    match decode_message (py_slice_to bm (py_find bm d)) with
    | inr message => Retrieved message
    | inl e => RetrieveCrashed e
    end
  else NoMessage.

(** ** The interface between an image and the codec *)

Class LsbCarrier (C : Type) := {
  carrier_ok : C -> Prop;
  slots : C -> list Z;
  embed_bits : pystr -> C -> res C;
  extract_bits : pystr -> C -> res pystr
}.

Class LsbCarrierLaws (C : Type) `{LsbCarrier C} := {
  embed_bits_refines : forall bits c, carrier_ok c ->
    res_map slots (embed_bits bits c) = write_slots bits (slots c);
  embed_bits_ok : forall bits c c', carrier_ok c ->
    embed_bits bits c = py_ret c' -> carrier_ok c';
  extract_bits_refines : forall d c, carrier_ok c ->
    extract_bits d c = py_ret (scan_f d [] (lsb_char <$> slots c)).1
}.

(** ** Lemmas on channel writes *)

Lemma set_lsb_lsb (v d : Z) : d = 0%Z \/ d = 1%Z -> Z.land (set_lsb v d) 1 = d.
Proof.
  intros Hd. unfold set_lsb. apply Z.bits_inj'. intros n Hn.
  rewrite !Z.land_spec, Z.lor_spec, Z.land_spec, Z.lnot_spec by lia.
  destruct (Z.eq_dec n 0) as [->|Hn0].
  - destruct Hd as [-> | ->]; simpl; destruct (Z.odd v); reflexivity.
  - rewrite (Z.bits_above_log2 1 n) by (simpl; lia). rewrite !andb_false_r.
    destruct Hd as [-> | ->];
      [rewrite Z.bits_0 | rewrite Z.bits_above_log2 by (simpl; lia)]; done.
Qed.

(** Writing a ['0'] or ['1'] and reading it back gives the character. *)
Lemma lsb_char_write (v c : Z) : is_bit_char c = true ->
  py_int_char c = py_ret (c - 48)%Z /\ lsb_char (set_lsb v (c - 48)) = c.
Proof.
  unfold is_bit_char, ch_0, ch_1. rewrite orb_true_iff, !Z.eqb_eq.
  intros [-> | ->]; (split; [reflexivity|]); unfold lsb_char;
    rewrite set_lsb_lsb; lia.
Qed.

(** The channel range: [(v & ~1) | d] stays a byte for every decimal
    digit [d], checked on the 256 x 10 cases. *)
Lemma set_lsb_table :
  forallb (fun v => forallb (fun d =>
    bool_decide (0 <= set_lsb (Z.of_nat v) (Z.of_nat d) <= 255)%Z) (seq 0 10))
    (seq 0 256) = true.
Proof. vm_compute. reflexivity. Qed.

Lemma set_lsb_byte (v d : Z) :
  (0 <= v <= 255)%Z -> (0 <= d <= 9)%Z -> (0 <= set_lsb v d <= 255)%Z.
Proof.
  intros Hv Hd. pose proof set_lsb_table as T.
  rewrite forallb_forall in T. specialize (T (Z.to_nat v) ltac:(apply in_seq; lia)).
  rewrite forallb_forall in T. specialize (T (Z.to_nat d) ltac:(apply in_seq; lia)).
  rewrite !Z2Nat.id in T by lia. by apply bool_decide_eq_true in T.
Qed.

Lemma write_slots_no_slots (bits : pystr) : write_slots bits [] = py_ret [].
Proof. by destruct bits. Qed.

Lemma write_slots_no_bits (vs : list Z) : write_slots [] vs = py_ret vs.
Proof. by destruct vs. Qed.

(** Writing two runs of slots is writing the first, then the second with
    the bits the first did not use. *)
Lemma write_slots_app (bits : pystr) (vs1 vs2 : list Z) :
  write_slots bits (vs1 ++ vs2) =
  let! a := write_slots bits vs1 in
  let! b := write_slots (drop (length vs1) bits) vs2 in
  py_ret (a ++ b).
Proof.
  revert bits; induction vs1 as [|v vs1 IH]; intros bits.
  - simpl. rewrite write_slots_no_slots. simpl. by rewrite res_bind_ret_r.
  - destruct bits as [|c bits].
    + by rewrite drop_nil, !write_slots_no_bits.
    + simpl. destruct (py_int_char c) as [e|d]; [done|]. simpl.
      rewrite IH, !res_bind_assoc. apply res_bind_ext. intros a _. simpl.
      rewrite res_bind_assoc. apply res_bind_ext. intros b _. done.
Qed.

(** The values written are bytes when the values read are: [int()] of a
    character is a decimal digit. *)
Lemma write_slots_bytes (bits : pystr) (vs vs' : list Z) :
  write_slots bits vs = py_ret vs' ->
  Forall (fun v => 0 <= v <= 255)%Z vs -> Forall (fun v => 0 <= v <= 255)%Z vs'.
Proof.
  revert bits vs'; induction vs as [|v vs IH]; intros [|c bits] vs' H Hv;
    simpl in H; try (injection H as <-; done).
  apply res_bind_inr in H as [d [Hd H]]. apply res_bind_inr in H as [w [Hw H]].
  injection H as <-. apply Forall_cons in Hv as [Hv Hvs]. constructor.
  - apply set_lsb_byte; [done|]. by apply py_int_char_range in Hd.
  - by apply (IH bits).
Qed.

(** The write raises exactly when one of the characters it reaches is not
    a decimal digit, and then it raises [ValueError]. *)
Lemma write_slots_error (bits : pystr) (vs : list Z) :
  (exists e, write_slots bits vs = inl e) <->
  Exists (fun c => is_digit_char c = false) (take (length vs) bits).
Proof.
  revert bits; induction vs as [|v vs IH]; intros [|c bits]; simpl.
  - split; [intros [e He]; discriminate | intros H; inversion H].
  - split; [intros [e He]; discriminate | intros H; inversion H].
  - split; [intros [e He]; discriminate | intros H; inversion H].
  - rewrite Exists_cons, <- IH, py_int_char_digit.
    destruct (is_digit_char c); simpl.
    + destruct (write_slots bits vs); simpl; split; eauto.
      * intros [? [=]].
      * intros [? | [e' [=]]]; discriminate.
    + split; eauto.
Qed.

Lemma write_slots_value_error (bits : pystr) (vs : list Z) (e : py_error) :
  write_slots bits vs = inl e -> e = ValueError.
Proof.
  revert bits; induction vs as [|v vs IH]; intros [|c bits] H; simpl in H; try discriminate.
  rewrite py_int_char_digit in H. destruct (is_digit_char c); simpl in H; [|by injection H].
  destruct (write_slots bits vs) eqn:E; simpl in H; [|discriminate].
  injection H as ->. by apply (IH bits).
Qed.

(** [(v & ~1) | d] with a bit [d] keeps every bit of [v] but the lowest. *)
Lemma set_lsb_high (v d : Z) : d = 0%Z \/ d = 1%Z -> Z.shiftr (set_lsb v d) 1 = Z.shiftr v 1.
Proof.
  intros Hd. apply Z.bits_inj'. intros n Hn. rewrite !Z.shiftr_spec by lia.
  unfold set_lsb. rewrite Z.lor_spec, Z.land_spec, Z.lnot_spec by lia.
  rewrite (Z.bits_above_log2 1 (n + 1)) by (simpl; lia).
  destruct Hd as [-> | ->];
    [rewrite Z.bits_0 | rewrite (Z.bits_above_log2 1 (n + 1)) by (simpl; lia)];
    simpl; by rewrite andb_true_r, orb_false_r.
Qed.

Lemma write_slots_high (bits : pystr) (vs vs' : list Z) :
  binary bits -> write_slots bits vs = py_ret vs' ->
  (fun v => Z.shiftr v 1) <$> vs' = (fun v => Z.shiftr v 1) <$> vs.
Proof.
  revert bits vs'; induction vs as [|v vs IH]; intros [|c bits] vs' Hb H;
    simpl in H; try (injection H as <-; done).
  apply Forall_cons in Hb as [Hc Hb]. destruct (lsb_char_write v c Hc) as [Hi _].
  rewrite Hi in H. simpl in H. apply res_bind_inr in H as [w [Hw H]]. injection H as <-.
  rewrite !fmap_cons, (IH _ _ Hb Hw), set_lsb_high; [done|].
  unfold is_bit_char, ch_0, ch_1 in Hc. rewrite orb_true_iff, !Z.eqb_eq in Hc. lia.
Qed.

Lemma length_write_slots (bits : pystr) (vs vs' : list Z) :
  write_slots bits vs = py_ret vs' -> length vs' = length vs.
Proof.
  revert bits vs'; induction vs as [|v vs IH]; intros [|c bits] vs' H;
    simpl in H; try (injection H as <-; done).
  apply res_bind_inr in H as [d [_ H]]. apply res_bind_inr in H as [w [Hw H]].
  injection H as <-. simpl. by rewrite (IH _ _ Hw).
Qed.

(** Writes of a string of bits succeed and put the string, cut at the
    number of slots, into the lowest bits; the remaining slots are kept. *)
Lemma write_slots_bits (bits : pystr) (vs : list Z) :
  Forall (fun c => is_bit_char c = true) bits ->
  exists vs', write_slots bits vs = py_ret vs' /\
    lsb_char <$> vs' = take (length vs) bits ++ (lsb_char <$> drop (length bits) vs) /\
    drop (length bits) vs' = drop (length bits) vs.
Proof.
  revert bits; induction vs as [|v vs IH]; intros bits Hb.
  - exists []. by destruct bits.
  - destruct bits as [|c bits]; [exists (v :: vs); done|].
    apply Forall_cons in Hb as [Hc Hb].
    destruct (lsb_char_write v c Hc) as [Hi Hl].
    destruct (IH bits Hb) as (vs' & Hw & Hlsb & Hdrop).
    exists (set_lsb v (c - 48) :: vs'). split; [|split].
    + simpl. rewrite Hi. simpl. by rewrite Hw.
    + rewrite fmap_cons, Hl, Hlsb. done.
    + done.
Qed.

(** ** Lemmas on the delimiter search *)

Lemma find_index_bound (d s : pystr) (i : nat) :
  find_index d s = Some i -> i + length d <= length s.
Proof.
  intros H. apply find_index_spec in H as [Hi Hmin].
  destruct (decide (i <= length s)).
  - apply is_prefix_spec in Hi as [r Hr].
    apply (f_equal length) in Hr. rewrite length_drop, length_app in Hr. lia.
  - rewrite drop_ge in Hi by lia. destruct d; [|discriminate].
    specialize (Hmin 0). rewrite drop_0 in Hmin. simpl in Hmin.
    enough (i = 0) by lia. destruct i; [done|]. discriminate Hmin; lia.
Qed.

(** A match inside a prefix [p] ends no earlier than the first match of
    the whole string. *)
Lemma find_index_prefix (d p q : pystr) (i : nat) :
  find_index d (p ++ q) = Some i -> contains d p = true ->
  i + length d <= length p.
Proof.
  intros Hi Hp. unfold contains in Hp.
  destruct (find_index d p) as [j|] eqn:Hj; [|discriminate].
  pose proof (find_index_bound _ _ _ Hj).
  destruct (find_index_app d p q j Hj) as [E | (k & Hk & E)];
    rewrite Hi in E; injection E as ->; lia.
Qed.

Lemma scan_f_app (d acc cs cs' : pystr) :
  scan_f d acc (cs ++ cs') =
  let '(acc', stop) := scan_f d acc cs in
  if stop then (acc', true) else scan_f d acc' cs'.
Proof. apply fold_break_app. Qed.

Lemma scan_f_cons (d acc : pystr) (c : Z) (cs : pystr) :
  scan_f d acc (c :: cs) =
  if contains d (acc ++ [c]) then (acc ++ [c], true) else scan_f d (acc ++ [c]) cs.
Proof. reflexivity. Qed.

(** The search stops at the end of [cs] when the delimiter first appears
    there. *)
Lemma scan_f_stop (d acc cs rest : pystr) :
  cs <> [] -> contains d (acc ++ cs) = true ->
  (forall k, 0 < k < length cs -> contains d (acc ++ take k cs) = false) ->
  scan_f d acc (cs ++ rest) = (acc ++ cs, true).
Proof.
  revert acc; induction cs as [|c cs IH]; intros acc Hne Hc Hk; [done|].
  rewrite <- app_comm_cons, scan_f_cons.
  destruct cs as [|c' cs].
  - simpl in Hc. by rewrite Hc.
  - pose proof (Hk 1 ltac:(simpl; lia)) as H1. simpl in H1. rewrite H1.
    rewrite IH; [by rewrite <- app_assoc| done | by rewrite <- app_assoc|].
    intros k Hk'. rewrite <- app_assoc. apply (Hk (S k)). simpl in *. lia.
Qed.

(** When the delimiter first occurs at the end of the encoded message,
    the search over the bit string followed by anything stops exactly at
    the end of the bit string. *)
Lemma scan_binary_message (message d rest : pystr) :
  d <> [] ->
  find_index d (binary_message message d) = Some (length (encode_message message)) ->
  scan_f d [] (binary_message message d ++ rest) = (binary_message message d, true).
Proof.
  intros Hd Hfirst. apply scan_f_stop; rewrite ?app_nil_l.
  - unfold binary_message. destruct d; [done|]. by destruct (encode_message message).
  - apply contains_suffix.
  - intros k Hk. apply not_true_is_false. intros Hc.
    pose proof (find_index_prefix d (take k (binary_message message d))
                  (drop k (binary_message message d)) _
                  ltac:(by rewrite take_drop) Hc) as Hle.
    rewrite length_take in Hle. unfold binary_message in Hk.
    rewrite length_app in Hk. lia.
Qed.

Lemma reveal_binary_message (message d : pystr) :
  latin1 message ->
  find_index d (binary_message message d) = Some (length (encode_message message)) ->
  reveal d (binary_message message d) = Retrieved message.
Proof.
  intros Hm Hfirst. unfold reveal, contains, py_find. rewrite Hfirst.
  unfold py_slice_to. destruct (Z.ltb_spec (Z.of_nat (length (encode_message message))) 0);
    [lia|].
  rewrite Nat2Z.id. unfold binary_message. rewrite take_app_length.
  by rewrite decode_encode_message.
Qed.

(** ** The early exit does not change the result *)

(** The first match in a prefix is the first match of the whole string. *)
Lemma find_index_extend (d p q : pystr) (i : nat) :
  find_index d p = Some i -> find_index d (p ++ q) = Some i.
Proof.
  intros H. pose proof (find_index_bound _ _ _ H) as Hb.
  destruct (find_index_app d p q i H) as [E | (j & Hj & E)]; [done|].
  exfalso. apply find_index_spec in H as [_ Hmin]. apply find_index_spec in E as [Ej _].
  apply is_prefix_spec in Ej as [r Hr]. rewrite drop_app_le in Hr by lia.
  assert (is_prefix d (drop j p) = true) as Hp.
  { apply is_prefix_spec. exists (take (length (drop j p) - length d) r).
    apply (f_equal (take (length (drop j p)))) in Hr.
    rewrite take_app_length, take_app, take_ge in Hr by (rewrite length_drop; lia).
    exact Hr. }
  rewrite (Hmin j Hj) in Hp. discriminate.
Qed.

(** The search either stops on a prefix that contains the delimiter, or
    reads the whole string. *)
Lemma scan_f_result (d acc cs : pystr) :
  (exists rest, acc ++ cs = (scan_f d acc cs).1 ++ rest /\ contains d (scan_f d acc cs).1 = true) \/
  (scan_f d acc cs).1 = acc ++ cs.
Proof.
  revert acc; induction cs as [|c cs IH]; intros acc; [right; by rewrite app_nil_r|].
  rewrite scan_f_cons. destruct (contains d (acc ++ [c])) eqn:E.
  - left. exists cs. simpl. by rewrite <- app_assoc.
  - replace (acc ++ c :: cs) with ((acc ++ [c]) ++ cs) by (by rewrite <- app_assoc). apply IH.
Qed.

(** The search stops at the first prefix that contains the delimiter. *)
Lemma scan_f_first (d acc cs : pystr) (j : nat) :
  0 < j < length (scan_f d acc cs).1 - length acc -> contains d (acc ++ take j cs) = false.
Proof.
  revert acc j; induction cs as [|c cs IH]; intros acc j Hj; [simpl in Hj; lia|].
  rewrite scan_f_cons in Hj. destruct (contains d (acc ++ [c])) eqn:E.
  - cbn [fst] in Hj. rewrite length_app in Hj. simpl in Hj. lia.
  - destruct j as [|[|j]]; [lia | done|].
    replace (acc ++ take (S (S j)) (c :: cs)) with ((acc ++ [c]) ++ take (S j) cs)
      by (by rewrite <- app_assoc).
    apply IH. rewrite length_app. simpl. lia.
Qed.

(** How much the search reads: up to the end of the first occurrence of
    a non-empty delimiter, or everything. *)
Lemma scan_f_length (d cs : pystr) : d <> [] ->
  length (scan_f d [] cs).1 =
  match find_index d cs with Some i => i + length d | None => length cs end.
Proof.
  intros Hd.
  assert (exists rest, cs = (scan_f d [] cs).1 ++ rest /\
            (contains d (scan_f d [] cs).1 = false -> rest = [])) as (rest & Hcs & Hrest).
  { destruct (scan_f_result d [] cs) as [[rest [Heq Hc]] | Heq]; rewrite app_nil_l in Heq.
    - exists rest. split; [done|]. by rewrite Hc.
    - exists []. by rewrite app_nil_r. }
  pose proof (scan_f_first d [] cs) as Hfirst. simpl in Hfirst.
  remember (scan_f d [] cs).1 as p eqn:Hp. clear Hp. subst cs.
  destruct (contains d p) eqn:Hc.
  - unfold contains in Hc. destruct (find_index d p) as [i|] eqn:Hi; [|discriminate].
    rewrite (find_index_extend _ _ _ _ Hi). pose proof (find_index_bound _ _ _ Hi).
    destruct (decide (i + length d < length p)) as [Hlt|]; [|lia]. exfalso.
    assert (contains d (take (i + length d) (p ++ rest)) = true) as Hc'.
    { rewrite take_app_le by lia. apply contains_spec. exists i.
      apply find_index_spec in Hi as [Hpre _]. apply is_prefix_spec in Hpre as [r Hr].
      apply is_prefix_spec. exists []. rewrite <- take_drop_commute, Hr.
      by rewrite take_app_length, app_nil_r. }
    rewrite Hfirst in Hc'; [discriminate|]. destruct d; [done|]. simpl in *. lia.
  - rewrite (Hrest eq_refl), app_nil_r. unfold contains in Hc.
    by destruct (find_index d p).
Qed.

(** Reading until the delimiter appears, then cutting at its first
    occurrence, is reading everything, then cutting. *)
Lemma reveal_scan (d cs : pystr) : reveal d (scan_f d [] cs).1 = reveal d cs.
Proof.
  destruct (scan_f_result d [] cs) as [[rest [Heq Hc]] | Heq]; rewrite app_nil_l in Heq;
    [|by rewrite Heq].
  remember (scan_f d [] cs).1 as p eqn:Hp. clear Hp. subst cs.
  unfold reveal. rewrite Hc, (contains_app _ _ _ Hc).
  unfold contains in Hc. destruct (find_index d p) as [i|] eqn:Hi; [|discriminate].
  unfold py_find. rewrite Hi, (find_index_extend _ _ _ _ Hi).
  pose proof (find_index_bound _ _ _ Hi). unfold py_slice_to.
  destruct (Z.ltb_spec (Z.of_nat i) 0); [lia|]. rewrite Nat2Z.id, take_app_le by lia. done.
Qed.

(** ** The round trip, against the interface *)

Section CarrierRoundTrip.
Context `{LsbCarrierLaws C}.

Lemma embed_bits_success (bits : pystr) (c : C) (vs' : list Z) :
  carrier_ok c -> write_slots bits (slots c) = py_ret vs' ->
  exists c', embed_bits bits c = py_ret c' /\ slots c' = vs' /\ carrier_ok c'.
Proof.
  intros Hok Hw. rewrite <- (embed_bits_refines bits c Hok) in Hw.
  unfold res_map, res_bind in Hw. destruct (embed_bits bits c) as [|c'] eqn:E;
    [discriminate|].
  injection Hw as Hs. exists c'. split; [done|]. split; [done|].
  by apply (embed_bits_ok bits c c').
Qed.

(** Embedding a message whose bit string fits in the carrier and whose
    delimiter first occurs after the encoded message, then extracting
    with the same delimiter, gives the message back. *)
Theorem carrier_roundtrip (c : C) (message d : pystr) :
  carrier_ok c -> latin1 message -> d <> [] ->
  Forall (fun x => is_bit_char x = true) d ->
  find_index d (binary_message message d) = Some (length (encode_message message)) ->
  length (binary_message message d) <= length (slots c) ->
  exists c', embed_bits (binary_message message d) c = py_ret c' /\
    res_map (reveal d) (extract_bits d c') = py_ret (Retrieved message).
Proof.
  intros Hok Hm Hd Hbits Hfirst Hfit.
  set (bits := binary_message message d).
  assert (Forall (fun x => is_bit_char x = true) bits) as Hb
    by (apply Forall_app; split; [apply encode_message_bits | done]).
  destruct (write_slots_bits bits (slots c) Hb) as (vs' & Hw & Hlsb & _).
  destruct (embed_bits_success bits c vs' Hok Hw) as (c' & He & Hs & Hok').
  exists c'. split; [done|].
  rewrite (extract_bits_refines d c' Hok'), Hs, Hlsb, take_ge by done.
  unfold res_map. simpl. subst bits.
  rewrite scan_binary_message by done. simpl.
  by rewrite reveal_binary_message.
Qed.
End CarrierRoundTrip.
