(* ===== verification/Image.v ===== *)
(** PIL images as Steganography.py uses them.

    An image has a mode, a size [(width, height)] and a raster of pixel
    tuples.  The raster is a flat list in row-major order: [pixels[x, y]]
    (PIL's [PixelAccess]) is element [y * width + x], and PIL raises
    [IndexError] outside [0 <= x < width], [0 <= y < height].  The modes
    modelled are RGB, RGBA and L (greyscale, a one-element tuple here);
    [Image.convert('RGB')] drops the alpha band of RGBA and copies the grey
    value of L into the three bands.  The file also holds
    [calculate_max_message_size] and the lemma that the two nested loops
    [for y in range(height): for x in range(width)] visit the raster in
    order. *)

From S2P Require Import Prelude PyStr.

Inductive mode : Type :=
| RGB
| RGBA
| L.

#[export] Instance mode_eq_dec : EqDecision mode.
Proof. solve_decision. Defined.

(** A pixel tuple. *)
Abbreviation pixel := (list Z).

Record image : Type := mk_image {
  im_mode : mode;
  im_width : nat;
  im_height : nat;
  im_pixels : list pixel
}.

(** Number of bands of a mode. *)
Definition mode_bands (m : mode) : nat :=
  match m with RGB => 3 | RGBA => 4 | L => 1 end.

Definition pixel_ok (m : mode) (p : pixel) : Prop :=
  length p = mode_bands m /\ Forall (fun v => 0 <= v <= 255)%Z p.

(** What PIL guarantees of an image: one pixel per position, each with the
    bands of its mode, each band a byte. *)
Definition image_wf (im : image) : Prop :=
  length (im_pixels im) = im_width im * im_height im /\
  Forall (pixel_ok (im_mode im)) (im_pixels im).

#[export] Instance image_wf_dec im : Decision (image_wf im).
Proof. unfold image_wf, pixel_ok. apply _. Defined.

(** An RGB image, as both loops see it after the conversion. *)
Definition rgb_image_wf (im : image) : Prop := im_mode im = RGB /\ image_wf im.

#[export] Instance rgb_image_wf_dec im : Decision (rgb_image_wf im).
Proof. unfold rgb_image_wf. apply _. Defined.

(** ** [Image.convert('RGB')] *)

Definition convert_pixel_rgb (m : mode) (p : pixel) : pixel :=
  match m with
  | RGB => p
  | RGBA => take 3 p
  | L => match p with v :: _ => [v; v; v] | [] => [] end
  end.

Definition convert_rgb (im : image) : image :=
  {| im_mode := RGB; im_width := im_width im; im_height := im_height im;
     im_pixels := convert_pixel_rgb (im_mode im) <$> im_pixels im |}.

(** [Image.convert('RGBA')]: an opaque alpha band is added. *)
Definition convert_pixel_rgba (m : mode) (p : pixel) : pixel :=
  match m with
  | RGB => p ++ [255%Z]
  | RGBA => p
  | L => match p with v :: _ => [v; v; v; 255%Z] | [] => [] end
  end.

Definition convert_rgba (im : image) : image :=
  {| im_mode := RGBA; im_width := im_width im; im_height := im_height im;
     im_pixels := convert_pixel_rgba (im_mode im) <$> im_pixels im |}.

(** [if image.mode != 'RGB': image = image.convert('RGB')] *)
Definition ensure_rgb (im : image) : image :=
  if decide (im_mode im = RGB) then im else convert_rgb im.

(** ** Pixel access *)

(** [pixels[x, y]] *)
Definition get_pixel (w h : nat) (px : list pixel) (x y : nat) : res pixel :=
  if (x <? w) && (y <? h) then
    match px !! (y * w + x) with
    | Some p => py_ret p
    | None => py_raise IndexError
    end
  else py_raise IndexError.

(** [pixels[x, y] = p], at a position the code has just read. *)
Definition put_pixel (w : nat) (px : list pixel) (x y : nat) (p : pixel) : list pixel :=
  <[y * w + x := p]> px.

(** [r, g, b = pixels[x, y]] *)
Definition unpack3 (p : pixel) : res (Z * Z * Z) :=
  match p with
  | [r; g; b] => py_ret (r, g, b)
  | _ => py_raise ValueError
  end.

(** The channel values of an image in traversal order. *)
Definition rgb_slots (im : image) : list Z := concat (im_pixels im).

(** ** Capacity (lines 26-31) *)

Definition calculate_max_message_size (im : image) : nat :=
  let max_bits := im_width im * im_height im * 3 in
  max_bits / 8.

(** ** Lemmas *)

Lemma get_pixel_lookup (w h : nat) (px : list pixel) (x y : nat) (p : pixel) :
  x < w -> y < h -> px !! (y * w + x) = Some p -> get_pixel w h px x y = py_ret p.
Proof.
  intros Hx Hy Hp. unfold get_pixel.
  rewrite (proj2 (Nat.ltb_lt x w) Hx), (proj2 (Nat.ltb_lt y h) Hy). simpl.
  by rewrite Hp.
Qed.

Lemma raster_index_lt (w h x y : nat) : x < w -> y < h -> y * w + x < w * h.
Proof. intros. nia. Qed.

(** The nested loops over rows and columns visit the positions
    [y * width + x] in increasing order. *)
Lemma for_each_raster {S} (w h : nat) (body2 : nat -> nat -> S -> res S)
    (body : nat -> S -> res S) (s : S) :
  (forall x y s, x < w -> y < h -> body2 x y s = body (y * w + x) s) ->
  for_each (py_range h) (fun y => for_each (py_range w) (fun x => body2 x y)) s =
  for_each (seq 0 (h * w)) body s.
Proof.
  unfold py_range. intros Hb. revert s; induction h as [|h IH]; intros s; [done|].
  rewrite seq_S_end, for_each_app, Nat.mul_succ_l, seq_app, for_each_app.
  rewrite IH by (intros; apply Hb; lia). apply res_bind_ext. intros s' _.
  simpl. rewrite res_bind_ret_r, (seq_shift_fmap (h * w)), for_each_fmap.
  apply for_each_ext. intros x s'' Hx. apply in_seq in Hx. apply Hb; lia.
Qed.

Lemma ensure_rgb_mode (im : image) : im_mode (ensure_rgb im) = RGB.
Proof. unfold ensure_rgb. by case_decide. Qed.

Lemma ensure_rgb_size (im : image) :
  im_width (ensure_rgb im) = im_width im /\ im_height (ensure_rgb im) = im_height im.
Proof. unfold ensure_rgb. by case_decide. Qed.

(** The conversion yields a well-formed RGB image. *)
Lemma ensure_rgb_wf (im : image) : image_wf im -> rgb_image_wf (ensure_rgb im).
Proof.
  intros [Hlen Hpx]. unfold ensure_rgb. case_decide as Hm; [by split|].
  split; [done|]. split; simpl; [by rewrite length_fmap|].
  apply Forall_fmap. eapply Forall_impl; [exact Hpx|]. intros p [Hl Hv].
  unfold pixel_ok. destruct (im_mode im) eqn:Em; [done| |];
    cbn [convert_pixel_rgb mode_bands] in *.
  - unfold compose; cbn beta; cbn [convert_pixel_rgb]. split; [rewrite length_take, Hl; done|]. by apply Forall_take.
  - unfold compose; cbn beta; cbn [convert_pixel_rgb]. destruct p as [|v p]; [done|]. apply Forall_cons in Hv as [Hv _].
    split; [done|]. do 3 (constructor; [done|]). constructor.
Qed.

(** What the nested loops produce, row after row, is what one loop over
    the raster positions produces. *)
Lemma concat_raster {A} (w h : nat) (f : nat -> list A) :
  concat ((fun y => concat ((fun x => f (y * w + x)) <$> seq 0 w)) <$> seq 0 h) =
  concat (f <$> seq 0 (h * w)).
Proof.
  induction h as [|h IH]; [done|].
  rewrite seq_S_end, fmap_app, concat_app, IH, Nat.mul_succ_l, seq_app.
  rewrite fmap_app, concat_app. simpl. rewrite app_nil_r. f_equal. f_equal.
  rewrite (seq_shift_fmap (h * w)), <- list_fmap_compose. done.
Qed.

(** Reading every position of a list in order. *)
Lemma concat_lookup_seq {A B} (l : list A) (f : A -> list B) :
  concat ((fun k => match l !! k with Some p => f p | None => [] end) <$> seq 0 (length l)) =
  concat (f <$> l).
Proof.
  induction l as [|a l IH]; [done|]. simpl length.
  rewrite <- cons_seq, (seq_shift_fmap 1), fmap_cons, <- list_fmap_compose.
  change (concat (f <$> a :: l)) with (f a ++ concat (f <$> l)).
  rewrite <- IH. reflexivity.
Qed.

Lemma length_rgb_slots (im : image) : rgb_image_wf im ->
  length (rgb_slots im) = 3 * (im_width im * im_height im).
Proof.
  intros [Hm [Hlen Hpx]]. rewrite Hm in Hpx. unfold rgb_slots. rewrite <- Hlen.
  clear Hlen. induction (im_pixels im) as [|p ps IH]; [done|].
  apply Forall_cons in Hpx as [[Hl _] Hps]. rewrite concat_cons, length_app, IH by done.
  simpl in *. lia.
Qed.

(** A sample image for the concrete runs: every pixel (10, 20, 30). *)
Definition sample_image (w h : nat) : image :=
  mk_image RGB w h (repeat [10%Z; 20%Z; 30%Z] (w * h)).
