(* ===== verification/Embed.v ===== *)
(** The embedder: [embed_message] (Steganography.py, lines 56-112).

    The handler computes the capacity, asks for the message, warns and asks
    for a confirmation when the message is longer than the capacity (and
    returns without saving unless the answer is "Y"), builds the bit string
    of line 75, converts the image to RGB, and then runs two nested loops
    over the rows and columns.  The loop state is the pixel buffer, mutated
    in place by [pixels[x, y] = (r, g, b)], and the cursor [binary_index].
    Each visited pixel gets up to three bits, red first; a character that
    is not a decimal digit makes [int()] raise [ValueError], which the
    script does not catch.

    The main theorem, [embed_loop_refines] (C2), says that the loops compute
    [write_slots] (file Channel) on the channel sequence in row-major
    order, errors included, and leave the cursor at
    [min(len(binary_message), 3 * width * height)].  The conversion to
    RGB drops the alpha channel of an RGBA image ([embed_discards_alpha],
    C35). *)

From S2P Require Import Prelude PyStr Bitstream Channel Image.

(** ** The loops *)

(** [int(binary_message[binary_index])] written into the lowest bit of
    [v] (lines 93, 98, 103). *)
Definition inject_bit (bm : pystr) (i : nat) (v : Z) : res Z :=
  match bm !! i with
  | Some c => let! d := py_int_char c in py_ret (set_lsb v d)
  | None => py_raise IndexError
  end.

(** [if binary_index < len(binary_message): v = ...; binary_index += 1]
    (lines 97-99 for green, 102-104 for blue). *)
Definition inject_if_needed (bm : pystr) (v : Z) (i : nat) : res (Z * nat) :=
  if i <? length bm then let! v' := inject_bit bm i v in py_ret (v', S i)
  else py_ret (v, i).

(** The body of the inner loop at column [x] of row [y] (lines 89-107). *)
Definition embed_pixel (bm : pystr) (w h : nat) (x y : nat)
    (st : list pixel * nat) : res (list pixel * nat) :=
  let '(px, i) := st in
  if i <? length bm then
    let! p := get_pixel w h px x y in
    let! '(r, g, b) := unpack3 p in
    let! r := inject_bit bm i r in
    let i := S i in
    let! '(g, i) := inject_if_needed bm g i in
    let! '(b, i) := inject_if_needed bm b i in
    py_ret (put_pixel w px x y [r; g; b], i)
  else py_ret (px, i).

(** [binary_index = 0] and the two loops (lines 76, 87-107). *)
Definition embed_loop (bm : pystr) (w h : nat) (px : list pixel)
    : res (list pixel * nat) :=
  for_each (py_range h) (fun y => for_each (py_range w) (fun x => embed_pixel bm w h x y))
    (px, 0).

(** ** The handler *)

Inductive embed_outcome : Type :=
| EmbedAborted
| EmbedSaved (warned : bool) (saved : image)
| EmbedCrashed (e : py_error).

(** The image with its raster replaced. *)
Definition with_pixels (im : image) (px : list pixel) : image :=
  {| im_mode := im_mode im; im_width := im_width im;
     im_height := im_height im; im_pixels := px |}.

(** Lines 78-107: the conversion to RGB and the loops, as a function of
    the bit string. *)
Definition embed_image (bm : pystr) (im : image) : res image :=
  let im := ensure_rgb im in
  let! '(px, _) := embed_loop bm (im_width im) (im_height im) (im_pixels im) in
  py_ret (with_pixels im px).

(** [embed_message(image, delimiter)] with [message] and [confirmation]
    the answers to its two prompts; [EmbedSaved warned im] is the image
    written to [embedded_image.png], [warned] telling whether the
    oversize warning was printed. *)
Definition embed_message (im : image) (delimiter message confirmation : pystr)
    : embed_outcome :=
  let max_message_size := calculate_max_message_size im in
  let warned := max_message_size <? length message in
  if warned && negb (pystr_eqb (py_upper (py_strip confirmation)) (pystr_of "Y"%string))
  then EmbedAborted
  else
    match embed_image (binary_message message delimiter) im with
    | inr im' => EmbedSaved warned im'
    | inl e => EmbedCrashed e
    end.

(** ** The loops, pixel by pixel *)

(** The flat specification on pixels: each pixel takes the bits it is
    given, the next pixel the rest. *)
Fixpoint write_pixels (bits : pystr) (ps : list pixel) : res (list pixel) :=
  match ps with
  | [] => py_ret []
  | p :: ps' =>
      let! p' := write_slots bits p in
      let! ps'' := write_pixels (drop (length p) bits) ps' in
      py_ret (p' :: ps'')
  end.

(** The body at the flat position [k]. *)
Definition embed_at (bm : pystr) (w h k : nat) := embed_pixel bm w h (k mod w) (k / w).

Lemma raster_div_mod (w x y : nat) : x < w -> (y * w + x) mod w = x /\ (y * w + x) / w = y.
Proof.
  intros Hx. split.
  - rewrite Nat.add_comm, Nat.Div0.mod_add. by apply Nat.mod_small.
  - rewrite Nat.div_add_l, Nat.div_small by lia. lia.
Qed.

Lemma embed_loop_flat (bm : pystr) (w h : nat) (px : list pixel) :
  embed_loop bm w h px = for_each (seq 0 (h * w)) (embed_at bm w h) (px, 0).
Proof.
  apply for_each_raster. intros x y s Hx _. unfold embed_at.
  by destruct (raster_div_mod w x y Hx) as [-> ->].
Qed.

(** Reading the bit string from the cursor on. *)
Lemma lookup_bits (bm : pystr) (i j : nat) : bm !! (i + j) = drop i bm !! j.
Proof. by rewrite lookup_drop. Qed.

Lemma inject_if_needed_skip (bm : pystr) (v : Z) (i : nat) :
  length bm <= i -> inject_if_needed bm v i = py_ret (v, i).
Proof.
  intros H. unfold inject_if_needed. by destruct (Nat.ltb_spec i (length bm)); [lia|].
Qed.

Lemma inject_if_needed_write (bm : pystr) (v c : Z) (i : nat) :
  bm !! i = Some c ->
  inject_if_needed bm v i = let! d := py_int_char c in py_ret (set_lsb v d, S i).
Proof.
  intros Hc. unfold inject_if_needed, inject_bit. rewrite Hc.
  destruct (Nat.ltb_spec i (length bm)) as [_|Hge].
  - by destruct (py_int_char c).
  - apply lookup_lt_Some in Hc. lia.
Qed.

Lemma raster_pos (w h k : nat) : 0 < w -> k < w * h ->
  k mod w < w /\ k / w < h /\ k / w * w + k mod w = k.
Proof.
  intros Hw Hk. split; [apply Nat.mod_upper_bound; lia|]. split.
  - apply Nat.Div0.div_lt_upper_bound. lia.
  - rewrite Nat.mul_comm. symmetry. apply Nat.div_mod_eq.
Qed.

(** One pixel of the loop: the pixel at position [k] takes the bits from
    the cursor on, and the cursor advances by up to three. *)
Lemma embed_at_step (bm : pystr) (w h k i : nat) (px : list pixel) (p : pixel) :
  0 < w -> k < w * h -> px !! k = Some p -> length p = 3 -> i <= length bm ->
  embed_at bm w h k (px, i) =
  let! p' := write_slots (drop i bm) p in
  py_ret (<[k := p']> px, Nat.min (length bm) (i + 3)).
Proof.
  intros Hw Hk Hp Hl Hi. unfold embed_at, embed_pixel.
  destruct (raster_pos w h k Hw Hk) as (Hx & Hy & Hxy).
  rewrite (get_pixel_lookup w h px (k mod w) (k / w) p Hx Hy) by (by rewrite Hxy).
  unfold put_pixel. rewrite Hxy.
  destruct p as [|r [|g [|b [|]]]]; try discriminate Hl. clear Hl.
  pose proof (lookup_bits bm i) as Hj. pose proof (length_drop bm i) as Hd.
  destruct (drop i bm) as [|c0 [|c1 [|c2 rest]]] eqn:E; simpl in Hd.
  - destruct (Nat.ltb_spec i (length bm)); [lia|]. simpl.
    rewrite list_insert_id by done. f_equal. f_equal. lia.
  - pose proof (Hj 0) as H0. rewrite Nat.add_0_r in H0. simpl in H0.
    destruct (Nat.ltb_spec i (length bm)); [|lia]. simpl.
    unfold inject_bit. rewrite H0. destruct (py_int_char c0); [done|]. simpl.
    repeat (rewrite inject_if_needed_skip by lia; simpl). do 3 f_equal; lia.
  - pose proof (Hj 0) as H0. rewrite Nat.add_0_r in H0. simpl in H0.
    pose proof (Hj 1) as H1. rewrite Nat.add_1_r in H1. simpl in H1.
    destruct (Nat.ltb_spec i (length bm)); [|lia]. simpl.
    unfold inject_bit. rewrite H0. destruct (py_int_char c0); [done|]. simpl.
    rewrite (inject_if_needed_write bm g c1) by done.
    destruct (py_int_char c1); [done|]. simpl.
    repeat (rewrite inject_if_needed_skip by lia; simpl). do 3 f_equal; lia.
  - pose proof (Hj 0) as H0. rewrite Nat.add_0_r in H0. simpl in H0.
    pose proof (Hj 1) as H1. rewrite Nat.add_1_r in H1. simpl in H1.
    pose proof (Hj 2) as H2. replace (i + 2) with (S (S i)) in H2 by lia. simpl in H2.
    destruct (Nat.ltb_spec i (length bm)); [|lia]. simpl.
    unfold inject_bit. rewrite H0. destruct (py_int_char c0); [done|]. simpl.
    rewrite (inject_if_needed_write bm g c1) by done.
    destruct (py_int_char c1); [done|]. simpl.
    rewrite (inject_if_needed_write bm b c2) by done.
    destruct (py_int_char c2); [done|]. simpl.
    rewrite write_slots_no_slots. simpl. do 3 f_equal; lia.
Qed.

(** The loop over positions [length pre ..], the pixels before them
    written already. *)
Lemma embed_flat_loop (bm : pystr) (w h i : nat) (pre rest : list pixel) :
  0 < w -> length pre + length rest = w * h ->
  Forall (fun p => length p = 3) rest -> i <= length bm ->
  for_each (seq (length pre) (length rest)) (embed_at bm w h) (pre ++ rest, i) =
  let! rest' := write_pixels (drop i bm) rest in
  py_ret (pre ++ rest', Nat.min (length bm) (i + 3 * length rest)).
Proof.
  revert pre i; induction rest as [|p rest IH]; intros pre i Hw Hlen Hr Hi.
  - simpl. rewrite app_nil_r. do 2 f_equal. lia.
  - apply Forall_cons in Hr as [Hp Hr]. simpl length. rewrite <- cons_seq. cbn [for_each].
    rewrite (embed_at_step bm w h (length pre) i _ p) by
      (try rewrite list_lookup_middle; simpl in *; done || lia).
    simpl write_pixels. rewrite !res_bind_assoc. apply res_bind_ext. intros p' _.
    simpl. rewrite insert_app_r_alt, Nat.sub_diag by lia. simpl.
    replace (p' :: rest) with ([p'] ++ rest) by done. rewrite app_assoc.
    replace (S (length pre)) with (length (pre ++ [p'])) by (rewrite length_app; simpl; lia).
    rewrite IH by (first [done | rewrite ?length_app; simpl in *; lia]).
    rewrite drop_length_min, drop_drop, Hp, res_bind_assoc.
    apply res_bind_ext. intros rest' _. simpl. rewrite <- app_assoc. do 2 f_equal. lia.
Qed.

(** On a well-formed RGB image the two nested loops write the pixels as
    [write_pixels] does, errors included, and stop with the cursor at
    [min(len(binary_message), 3 * width * height)]. *)
Lemma embed_loop_write_pixels (bm : pystr) (im : image) : rgb_image_wf im ->
  embed_loop bm (im_width im) (im_height im) (im_pixels im) =
  let! px' := write_pixels bm (im_pixels im) in
  py_ret (px', Nat.min (length bm) (3 * (im_width im * im_height im))).
Proof.
  intros [Hm [Hlen Hpx]]. rewrite Hm in Hpx. rewrite embed_loop_flat.
  destruct (im_width im) as [|w] eqn:Hw.
  - simpl in Hlen. destruct (im_pixels im); [|discriminate].
    rewrite Nat.mul_0_r. simpl. do 2 f_equal. lia.
  - replace (im_height im * S w) with (length (im_pixels im)) by lia.
    pose proof (embed_flat_loop bm (S w) (im_height im) 0 [] (im_pixels im)) as E.
    cbn [length app] in E. rewrite E, drop_0.
    + apply res_bind_ext. intros px' _. do 2 f_equal. lia.
    + lia.
    + lia.
    + eapply Forall_impl; [exact Hpx|]. by intros p [Hl _].
    + lia.
Qed.

(** ** The written image *)

Lemma write_pixels_concat (bits : pystr) (ps : list pixel) :
  res_map (@concat Z) (write_pixels bits ps) = write_slots bits (concat ps).
Proof.
  revert bits; induction ps as [|p ps IH]; intros bits.
  - by rewrite write_slots_no_slots.
  - simpl. rewrite write_slots_app, <- IH. unfold res_map. rewrite !res_bind_assoc.
    apply res_bind_ext. intros p' _. rewrite !res_bind_assoc.
    apply res_bind_ext. intros ps' _. done.
Qed.

Lemma write_pixels_ok (bits : pystr) (ps ps' : list pixel) :
  write_pixels bits ps = py_ret ps' -> Forall (pixel_ok RGB) ps ->
  length ps' = length ps /\ Forall (pixel_ok RGB) ps'.
Proof.
  revert bits ps'; induction ps as [|p ps IH]; intros bits ps' H Hp.
  - by injection H as <-.
  - simpl in H. apply res_bind_inr in H as [p' [Hw H]].
    apply res_bind_inr in H as [ps'' [Hws H]]. injection H as <-.
    apply Forall_cons in Hp as [[Hl Hv] Hps].
    destruct (IH _ _ Hws Hps) as [Hlen Hok]. simpl. split; [by rewrite Hlen|].
    constructor; [|done]. split.
    + by rewrite (length_write_slots _ _ _ Hw).
    + by apply (write_slots_bytes _ _ _ Hw).
Qed.

(** [embed_image] on an image PIL accepts: the channel sequence of the
    result is [write_slots] of the bit string on the channel sequence of
    the RGB view, errors included. *)
Theorem embed_image_slots (bm : pystr) (im : image) : image_wf im ->
  res_map rgb_slots (embed_image bm im) = write_slots bm (rgb_slots (ensure_rgb im)).
Proof.
  intros Hwf. unfold embed_image.
  rewrite embed_loop_write_pixels by (by apply ensure_rgb_wf).
  unfold rgb_slots. rewrite <- write_pixels_concat. unfold res_map.
  rewrite !res_bind_assoc. apply res_bind_ext. intros px' _. done.
Qed.

(** The saved image is a well-formed RGB image of the same size. *)
Lemma embed_image_wf (bm : pystr) (im im' : image) : image_wf im ->
  embed_image bm im = py_ret im' ->
  rgb_image_wf im' /\ im_width im' = im_width im /\ im_height im' = im_height im.
Proof.
  intros Hwf H. pose proof (ensure_rgb_wf im Hwf) as Hrgb.
  unfold embed_image in H. rewrite embed_loop_write_pixels, res_bind_assoc in H by done.
  apply res_bind_inr in H as [px' [Hw H]]. cbv [py_ret res_bind] in H. injection H as <-.
  destruct Hrgb as [Hm [Hlen Hpx]]. rewrite Hm in Hpx.
  destruct (write_pixels_ok _ _ _ Hw Hpx) as [Hl Hok].
  destruct (ensure_rgb_size im) as [Hw' Hh']. unfold with_pixels; simpl.
  split; [split; [done | split; simpl; [lia | by rewrite Hm]] | done].
Qed.

(** C8. The abort path (lines 65-70): a message longer than the capacity is
    embedded only when the stripped, upper-cased answer is "Y". *)
Theorem embed_message_abort (im : image) (d message confirmation : pystr) :
  calculate_max_message_size im < length message ->
  (embed_message im d message confirmation = EmbedAborted <->
   py_upper (py_strip confirmation) <> pystr_of "Y"%string).
Proof.
  intros Hlong. unfold embed_message.
  destruct (Nat.ltb_spec (calculate_max_message_size im) (length message)); [|lia].
  simpl. unfold pystr_eqb. case_bool_decide as Hy; simpl.
  - split; [|done]. by destruct (embed_image _ _).
  - done.
Qed.

(** C2. Refinement of the embedding loop: on a well-formed RGB image, the
    two nested loops of lines 87-107, with their in-place writes and the
    cursor [binary_index], compute the specification [write_slots] on the
    channel sequence in row-major order (errors included), and stop with
    the cursor at [min(len(binary_message), 3 * width * height)]. *)
Theorem embed_loop_refines (bm : pystr) (im : image) : rgb_image_wf im ->
  res_map (fun st => (concat st.1, st.2)) (embed_loop bm (im_width im) (im_height im) (im_pixels im)) =
  res_map (fun vs => (vs, Nat.min (length bm) (3 * (im_width im * im_height im))))
    (write_slots bm (rgb_slots im)).
Proof.
  intros Hrgb. rewrite embed_loop_write_pixels by done.
  unfold rgb_slots. rewrite <- write_pixels_concat. unfold res_map.
  rewrite !res_bind_assoc. apply res_bind_ext. intros px' _. done.
Qed.

Lemma embed_loop_refines_witness :
  rgb_image_wf (sample_image 2 1) /\
  res_map (fun st => (concat st.1, st.2))
    (embed_loop [48%Z; 49%Z; 49%Z; 48%Z] (im_width (sample_image 2 1))
       (im_height (sample_image 2 1)) (im_pixels (sample_image 2 1))) =
  res_map (fun vs => (vs, Nat.min (length [48%Z; 49%Z; 49%Z; 48%Z])
                            (3 * (im_width (sample_image 2 1) * im_height (sample_image 2 1)))))
    (write_slots [48%Z; 49%Z; 49%Z; 48%Z] (rgb_slots (sample_image 2 1))).
Proof.
  assert (rgb_image_wf (sample_image 2 1)) as H
    by (apply (bool_decide_unpack _); vm_compute; reflexivity).
  split; [exact H | apply embed_loop_refines; exact H].
Defined.

Lemma embed_message_abort_witness :
  calculate_max_message_size (sample_image 2 2) < length [65%Z; 66%Z] /\
  (embed_message (sample_image 2 2) [48%Z; 48%Z] [65%Z; 66%Z] [110%Z] = EmbedAborted <->
   py_upper (py_strip [110%Z]) <> pystr_of "Y"%string).
Proof.
  split; [vm_compute; lia | apply embed_message_abort; vm_compute; lia].
Defined.

(** ** When [int()] raises *)

(** Within the capacity, a bit string with a non-digit among its first
    3 * w * h characters raises [ValueError]; one without saves an image
    without warning. *)
Lemma embed_message_cases (im : image) (d message confirmation : pystr) :
  image_wf im -> length message <= calculate_max_message_size im ->
  let bm := binary_message message d in
  (Exists (fun c => is_digit_char c = false) (take (3 * (im_width im * im_height im)) bm) ->
   embed_message im d message confirmation = EmbedCrashed ValueError) /\
  (Forall (fun c => is_digit_char c = true) (take (3 * (im_width im * im_height im)) bm) ->
   exists im', embed_message im d message confirmation = EmbedSaved false im').
Proof.
  intros Hwf Hcap bm. pose proof (embed_image_slots bm im Hwf) as Hs.
  pose proof (length_rgb_slots _ (ensure_rgb_wf im Hwf)) as Hl.
  destruct (ensure_rgb_size im) as [Hw Hh]. rewrite Hw, Hh in Hl.
  pose proof (write_slots_error bm (rgb_slots (ensure_rgb im))) as Herr. rewrite Hl in Herr.
  unfold embed_message. destruct (Nat.ltb_spec (calculate_max_message_size im) (length message));
    [lia|]. simpl. fold bm. split.
  - intros Hex. apply Herr in Hex as [e He].
    pose proof (write_slots_value_error _ _ _ He) as ->. rewrite <- Hs in He.
    destruct (embed_image bm im) eqn:E; cbv [res_map res_bind py_ret] in He;
      [by injection He as -> | discriminate].
  - intros Hall. destruct (embed_image bm im) as [e|im'] eqn:E; [|by eexists].
    exfalso. assert (exists e', write_slots bm (rgb_slots (ensure_rgb im)) = inl e') as Hex
      by (rewrite <- Hs; by eexists).
    apply Herr, Exists_exists in Hex as (c & Hc & Hnd).
    rewrite Forall_forall in Hall. rewrite (Hall c Hc) in Hnd. discriminate.
Qed.

Lemma embed_message_saved (im im' : image) (d message confirmation : pystr) (warned : bool) :
  embed_message im d message confirmation = EmbedSaved warned im' ->
  embed_image (binary_message message d) im = py_ret im'.
Proof.
  unfold embed_message. case_match; [discriminate|].
  destruct (embed_image _ _); [discriminate|]. by intros [= _ ->].
Qed.

(** C5. Within the capacity, [embed_message] raises [ValueError] exactly
    when one of the first 3 * w * h characters of [binary_message] is not
    a decimal digit, and it raises nothing else. *)
Theorem embed_message_outcome (im : image) (d message confirmation : pystr) :
  image_wf im -> length message <= calculate_max_message_size im ->
  (embed_message im d message confirmation = EmbedCrashed ValueError <->
   Exists (fun c => is_digit_char c = false)
     (take (3 * (im_width im * im_height im)) (binary_message message d))) /\
  (forall e, embed_message im d message confirmation = EmbedCrashed e -> e = ValueError).
Proof.
  intros Hwf Hcap. destruct (embed_message_cases im d message confirmation Hwf Hcap) as [Hc Hs].
  assert (forall e, embed_message im d message confirmation = EmbedCrashed e ->
    Exists (fun c => is_digit_char c = false)
      (take (3 * (im_width im * im_height im)) (binary_message message d))) as Hex.
  { intros e He. apply dec_stable. intros Hnex.
    apply not_Exists_Forall in Hnex; [|intros c; apply _].
    destruct Hs as [im' Him'].
    - eapply Forall_impl; [apply Hnex|]. intros c. simpl. apply not_false_is_true.
    - congruence. }
  split; [split; [apply Hex | apply Hc]|].
  intros e He. rewrite Hc in He by (by apply (Hex e)). congruence.
Qed.

Lemma embed_message_outcome_witness :
  image_wf (sample_image 2 2) /\ length [65%Z] <= calculate_max_message_size (sample_image 2 2) /\
  (embed_message (sample_image 2 2) [97%Z] [65%Z] [] = EmbedCrashed ValueError <->
   Exists (fun c => is_digit_char c = false)
     (take (3 * (im_width (sample_image 2 2) * im_height (sample_image 2 2)))
       (binary_message [65%Z] [97%Z]))) /\
  (forall e, embed_message (sample_image 2 2) [97%Z] [65%Z] [] = EmbedCrashed e -> e = ValueError).
Proof.
  assert (image_wf (sample_image 2 2)) as Hwf
    by (apply (bool_decide_unpack _); vm_compute; reflexivity).
  split; [done|]. split; [vm_compute; lia|].
  apply embed_message_outcome; [done | vm_compute; lia].
Defined.

(** ** What embedding changes *)

(** The channels of a saved image are [write_slots] of the bit string on
    the channels of the RGB view of the input. *)
Lemma embed_saved_slots (im im' : image) (d message confirmation : pystr) (warned : bool) :
  image_wf im -> embed_message im d message confirmation = EmbedSaved warned im' ->
  write_slots (binary_message message d) (rgb_slots (ensure_rgb im)) = py_ret (rgb_slots im').
Proof.
  intros Hwf H. apply embed_message_saved in H.
  pose proof (embed_image_slots (binary_message message d) im Hwf) as Hs.
  by rewrite H in Hs.
Qed.

Lemma binary_message_bits (message d : pystr) : binary d -> binary (binary_message message d).
Proof. intros Hd. apply Forall_app. split; [apply encode_message_bits | done]. Qed.

(** C6. Every image [embed_message] saves is a well-formed RGB image of the
    size of the input, whatever the delimiter and message: each channel
    stays a byte. *)
Theorem embed_preserves_wf (im im' : image) (d message confirmation : pystr) (warned : bool) :
  image_wf im -> embed_message im d message confirmation = EmbedSaved warned im' ->
  rgb_image_wf im' /\ im_width im' = im_width im /\ im_height im' = im_height im.
Proof.
  intros Hwf H. apply embed_message_saved in H. by apply (embed_image_wf _ _ _ Hwf H).
Qed.

Lemma embed_preserves_wf_witness :
  match embed_message (sample_image 2 3) (pystr_of "0101"%string) [65%Z] [] with
  | EmbedSaved warned im' => rgb_image_wf im' /\ im_width im' = 2 /\ im_height im' = 3
  | _ => False
  end.
Proof.
  destruct (embed_message (sample_image 2 3) (pystr_of "0101"%string) [65%Z] []) as [|w im'|e] eqn:E;
    [vm_compute in E; discriminate | | vm_compute in E; discriminate].
  apply (embed_preserves_wf (sample_image 2 3) im' (pystr_of "0101"%string) [65%Z] [] w);
    [apply (bool_decide_unpack _); vm_compute; reflexivity | exact E].
Defined.

(** C7. With a binary delimiter, a saved image differs from the RGB input only
    in the lowest bit of each channel, and those bits are the first
    3 * w * h characters of the bit string followed by the untouched bits. *)
Theorem embed_changes_only_lsb (im im' : image) (d message confirmation : pystr) (warned : bool) :
  image_wf im -> binary d -> embed_message im d message confirmation = EmbedSaved warned im' ->
  (fun v => Z.shiftr v 1) <$> rgb_slots im' = (fun v => Z.shiftr v 1) <$> rgb_slots (ensure_rgb im) /\
  lsb_char <$> rgb_slots im' =
    take (3 * (im_width im * im_height im)) (binary_message message d) ++
    (lsb_char <$> drop (length (binary_message message d)) (rgb_slots (ensure_rgb im))).
Proof.
  intros Hwf Hd H. pose proof (embed_saved_slots _ _ _ _ _ _ Hwf H) as Hs.
  pose proof (binary_message_bits message d Hd) as Hb.
  destruct (write_slots_bits _ (rgb_slots (ensure_rgb im)) Hb) as (vs' & Hw & Hlsb & _).
  rewrite Hw in Hs. injection Hs as <-. split; [by apply (write_slots_high _ _ _ Hb)|].
  rewrite Hlsb, length_rgb_slots by (by apply ensure_rgb_wf).
  by destruct (ensure_rgb_size im) as [-> ->].
Qed.

Lemma embed_changes_only_lsb_witness :
  match embed_message (sample_image 2 3) (pystr_of "0101"%string) [65%Z] [] with
  | EmbedSaved warned im' =>
      (fun v => Z.shiftr v 1) <$> rgb_slots im' =
        (fun v => Z.shiftr v 1) <$> rgb_slots (ensure_rgb (sample_image 2 3)) /\
  lsb_char <$> rgb_slots im' =
        take (3 * (2 * 3)) (binary_message [65%Z] (pystr_of "0101"%string)) ++
        (lsb_char <$> drop (length (binary_message [65%Z] (pystr_of "0101"%string)))
                            (rgb_slots (ensure_rgb (sample_image 2 3))))
  | _ => False
  end.
Proof.
  destruct (embed_message (sample_image 2 3) (pystr_of "0101"%string) [65%Z] []) as [|w im'|e] eqn:E;
    [vm_compute in E; discriminate | | vm_compute in E; discriminate].
  apply (embed_changes_only_lsb (sample_image 2 3) im' (pystr_of "0101"%string) [65%Z] [] w);
    [apply (bool_decide_unpack _); vm_compute; reflexivity
    |apply (bool_decide_unpack _); vm_compute; reflexivity | exact E].
Defined.

(** C35. What embedding does to an RGBA image, for a delimiter of ['0']
    and ['1'] (with another delimiter, [int()] of a digit 2-9 changes
    higher bits too, or raises): the saved image is RGB, its channels
    are the first three of each input pixel with only their lowest bits
    changed, and the alpha channel is dropped (line 80,
    [image.convert('RGB')]), where the specification keeps the channels
    beyond the first three untouched. *)
Theorem embed_discards_alpha (im im' : image) (d message confirmation : pystr) (warned : bool) :
  image_wf im -> im_mode im = RGBA -> binary d ->
  embed_message im d message confirmation = EmbedSaved warned im' ->
  im_mode im' = RGB /\ Forall (fun p => length p = 3) (im_pixels im') /\
  (fun v => Z.shiftr v 1) <$> concat (im_pixels im') =
  (fun v => Z.shiftr v 1) <$> concat (take 3 <$> im_pixels im).
Proof.
  intros Hwf Hm Hd H. pose proof (embed_saved_slots _ _ _ _ _ _ Hwf H) as Hs.
  apply embed_message_saved, (embed_image_wf _ _ _ Hwf) in H as [[Hm' [_ Hpx]] _].
  split; [done|]. split.
  - rewrite Hm' in Hpx. eapply Forall_impl; [exact Hpx|]. by intros p [Hl _].
  - apply (write_slots_high _ _ _ (binary_message_bits message d Hd)) in Hs.
    unfold rgb_slots in Hs. rewrite Hs. unfold ensure_rgb. rewrite Hm.
    case_decide; [discriminate|]. simpl. by rewrite Hm.
Qed.

Lemma embed_discards_alpha_witness :
  let im := mk_image RGBA 1 2 [[11; 20; 31; 128]; [7; 8; 9; 0]]%Z in
  image_wf im /\ im_mode im = RGBA /\ binary (pystr_of "01"%string) /\
  match embed_message im (pystr_of "01"%string) [] [] with
  | EmbedSaved warned im' =>
      im_mode im' = RGB /\ Forall (fun p => length p = 3) (im_pixels im') /\
      (fun v => Z.shiftr v 1) <$> concat (im_pixels im') =
      (fun v => Z.shiftr v 1) <$> concat (take 3 <$> im_pixels im)
  | _ => False
  end.
Proof.
  intros im.
  assert (image_wf im) as Hwf by (apply (bool_decide_unpack _); vm_compute; reflexivity).
  assert (binary (pystr_of "01"%string)) as Hd by (repeat constructor).
  split; [exact Hwf|]. split; [reflexivity|]. split; [exact Hd|].
  destruct (embed_message im (pystr_of "01"%string) [] []) as [|w im'|e] eqn:E;
    [vm_compute in E; discriminate | | vm_compute in E; discriminate].
  exact (embed_discards_alpha im im' _ _ _ w Hwf eq_refl Hd E).
Defined.
