(* ===== verification/Retrieve.v ===== *)
(** The extractor: [retrieve_message] (Steganography.py, lines 114-156).

    After converting the image to RGB, the code walks the rows and columns
    and appends, for each pixel, [str(r & 1)], [str(g & 1)], [str(b & 1)]
    to [binary_message], testing [delimiter in binary_message] after each
    append.  A match breaks the inner loop; after the inner loop the test
    is made again and breaks the outer loop.  Then it cuts the string at
    [binary_message.find(delimiter)] and decodes it ([reveal]).

    [retrieve_loop_refines] (C3) shows that the two loops with their breaks
    compute [scan_f] (file Channel) on the string of lowest bits in
    row-major order; as a consequence retrieval never raises on an image
    PIL accepts. *)

From S2P Require Import Prelude PyStr Bitstream Channel Image.

(** ** The loops *)

(** The body of the inner loop at column [x] of row [y] (lines 131-146);
    the flag is [true] when the body executed [break]. *)
Definition retrieve_pixel (d : pystr) (w h : nat) (px : list pixel) (x y : nat)
    (bm : pystr) : res (pystr * bool) :=
  let! p := get_pixel w h px x y in
  let! '(r, g, b) := unpack3 p in
  let bm := bm ++ str_bit (Z.land r 1) in
  if contains d bm then py_ret (bm, true) else
  let bm := bm ++ str_bit (Z.land g 1) in
  if contains d bm then py_ret (bm, true) else
  let bm := bm ++ str_bit (Z.land b 1) in
  if contains d bm then py_ret (bm, true) else
  py_ret (bm, false).

(** The body of the outer loop (lines 130-148): the inner loop, then
    [if delimiter in binary_message: break]. *)
Definition retrieve_row (d : pystr) (w h : nat) (px : list pixel) (y : nat)
    (bm : pystr) : res (pystr * bool) :=
  let! bm := for_break (py_range w) (fun x => retrieve_pixel d w h px x y) bm in
  py_ret (bm, contains d bm).

(** [binary_message = ""] and the two loops (lines 126-148). *)
Definition retrieve_loop (d : pystr) (w h : nat) (px : list pixel) : res pystr :=
  for_break (py_range h) (retrieve_row d w h px) [].

(** Lines 118-148 on an image: the conversion and the loops. *)
Definition retrieve_bits (d : pystr) (im : image) : res pystr :=
  let im := ensure_rgb im in
  retrieve_loop d (im_width im) (im_height im) (im_pixels im).

(** [retrieve_message(image, delimiter)] (lines 114-156). *)
Definition retrieve_message (im : image) (d : pystr) : retrieve_outcome :=
  match retrieve_bits d im with
  | inr bm => reveal d bm
  | inl e => RetrieveCrashed e
  end.

(** The reference extractor: read the lowest bit of every channel of the
    RGB view, then apply lines 150-156 to the whole string. *)
Definition retrieve_reference (im : image) (d : pystr) : retrieve_outcome :=
  reveal d (lsb_char <$> rgb_slots (ensure_rgb im)).

(** ** Lemmas on the search *)

(** Over a non-empty string, the flag of the search is the delimiter
    test on the accumulated string. *)
Lemma scan_f_flag (d acc cs : pystr) :
  cs <> [] -> (scan_f d acc cs).2 = contains d (scan_f d acc cs).1.
Proof.
  revert acc; induction cs as [|c cs IH]; intros acc Hne; [done|].
  rewrite scan_f_cons. destruct (contains d (acc ++ [c])) eqn:E; [done|].
  destruct cs as [|c' cs]; [done|]. by apply IH.
Qed.

(** Searching piece by piece is searching the concatenation. *)
Lemma fold_break_scan {A} (d acc : pystr) (g : A -> pystr) (xs : list A) :
  fold_break (fun x acc => scan_f d acc (g x)) xs acc = scan_f d acc (concat (g <$> xs)).
Proof.
  revert acc; induction xs as [|x xs IH]; intros acc; [done|].
  rewrite fmap_cons, concat_cons, scan_f_app. simpl.
  destruct (scan_f d acc (g x)) as [a []]; [done|]. apply IH.
Qed.

(** A loop whose body keeps the state keeps it. *)
Lemma fold_break_const {A S} (f : A -> S -> S * bool) (xs : list A) (s : S) :
  (forall x s, (f x s).1 = s) -> (fold_break f xs s).1 = s.
Proof.
  intros Hf. induction xs as [|x xs IH]; [done|]. simpl.
  specialize (Hf x s). destruct (f x s) as [s' []]; simpl in *; subst; done.
Qed.

(** ** The loops compute the search *)

(** The lowest bits of the pixel at a raster position. *)
Definition lsb_chars_at (px : list pixel) (k : nat) : pystr :=
  match px !! k with Some p => lsb_char <$> p | None => [] end.

Lemma retrieve_pixel_scan (d : pystr) (w h : nat) (px : list pixel) (x y : nat)
    (bm : pystr) (p : pixel) :
  x < w -> y < h -> px !! (y * w + x) = Some p -> length p = 3 ->
  retrieve_pixel d w h px x y bm = py_ret (scan_f d bm (lsb_chars_at px (y * w + x))).
Proof.
  intros Hx Hy Hp Hl. unfold retrieve_pixel, lsb_chars_at.
  rewrite (get_pixel_lookup w h px x y p Hx Hy Hp), Hp.
  destruct p as [|r [|g [|b [|]]]]; try discriminate Hl. simpl.
  rewrite !scan_f_cons. unfold str_bit, lsb_char.
  destruct (contains d (bm ++ [(48 + Z.land r 1)%Z])); [done|].
  destruct (contains d ((bm ++ [(48 + Z.land r 1)%Z]) ++ [(48 + Z.land g 1)%Z])); [done|].
  by destruct (contains d _).
Qed.

(** The characters of row [y]. *)
Definition row_chars (px : list pixel) (w y : nat) : pystr :=
  concat ((fun x => lsb_chars_at px (y * w + x)) <$> seq 0 w).

Lemma retrieve_row_scan (d : pystr) (w h : nat) (px : list pixel) (y : nat)
    (bm : pystr) :
  0 < w -> y < h -> length px = w * h -> Forall (fun p => length p = 3) px ->
  retrieve_row d w h px y bm = py_ret (scan_f d bm (row_chars px w y)).
Proof.
  intros Hw Hy Hlen Hpx. unfold retrieve_row, py_range.
  rewrite (for_break_pure _ _ (fun x acc => scan_f d acc (lsb_chars_at px (y * w + x)))).
  - simpl. rewrite fold_break_scan. f_equal.
    rewrite <- scan_f_flag; [by destruct (scan_f _ _ _)|].
    unfold row_chars. destruct w as [|w]; [lia|]. simpl.
    unfold lsb_chars_at. rewrite Nat.add_0_r.
    destruct (lookup_lt_is_Some_2 px (y * S w)) as [p Hp]; [nia|].
    rewrite Hp. rewrite Forall_lookup in Hpx. specialize (Hpx _ _ Hp).
    destruct p as [|? ?]; [discriminate|]. done.
  - intros x acc Hx. apply in_seq in Hx.
    destruct (lookup_lt_is_Some_2 px (y * w + x)) as [p Hp]; [nia|].
    rewrite Forall_lookup in Hpx.
    apply (retrieve_pixel_scan d w h px x y acc p); [lia|lia|done|]. by apply (Hpx _ _ Hp).
Qed.

(** On a well-formed RGB image the two loops with their breaks stop with
    the string that [scan_f] accumulates over the lowest bits of the
    channels in row-major order. *)
Lemma retrieve_loop_scan (d : pystr) (im : image) : rgb_image_wf im ->
  retrieve_loop d (im_width im) (im_height im) (im_pixels im) =
  py_ret (scan_f d [] (lsb_char <$> rgb_slots im)).1.
Proof.
  intros [Hm [Hlen Hpx]]. rewrite Hm in Hpx.
  assert (Forall (fun p => length p = 3) (im_pixels im)) as H3
    by (eapply Forall_impl; [exact Hpx|]; by intros p [Hl _]).
  unfold retrieve_loop, py_range, rgb_slots.
  destruct (im_width im) as [|w] eqn:Hw.
  - simpl in Hlen. destruct (im_pixels im); [|discriminate]. simpl.
    rewrite (for_break_pure _ _ (fun y acc => (acc, contains d acc))).
    + f_equal. by apply fold_break_const.
    + intros y acc _. done.
  - rewrite (for_break_pure _ _ (fun y acc => scan_f d acc (row_chars (im_pixels im) (S w) y))).
    + f_equal. rewrite fold_break_scan. f_equal. f_equal.
      unfold row_chars.
      rewrite (concat_raster (S w) (im_height im) (lsb_chars_at (im_pixels im))).
      unfold lsb_chars_at.
      replace (im_height im * S w) with (length (im_pixels im)) by lia.
      rewrite concat_lookup_seq. by rewrite fmap_concat_list.
    + intros y acc Hy. apply in_seq in Hy. apply retrieve_row_scan; [lia|lia|lia|done].
Qed.

(** ** Consequences *)

Lemma scan_f_prefix (d acc cs : pystr) :
  exists k, (scan_f d acc cs).1 = acc ++ take k cs.
Proof.
  revert acc; induction cs as [|c cs IH]; intros acc.
  - exists 0. simpl. by rewrite app_nil_r.
  - rewrite scan_f_cons. destruct (contains d (acc ++ [c])).
    + exists 1. done.
    + destruct (IH (acc ++ [c])) as [k Hk]. exists (S k). rewrite Hk.
      by rewrite <- app_assoc.
Qed.

Lemma land_1_bit (v : Z) : Z.land v 1 = 0%Z \/ Z.land v 1 = 1%Z.
Proof.
  assert (Z.land v 1 = v mod 2)%Z as ->.
  { change 1%Z with (Z.ones 1) at 1. rewrite Z.land_ones by lia. reflexivity. }
  pose proof (Z.mod_pos_bound v 2 ltac:(lia)). lia.
Qed.

Lemma lsb_chars_binary (vs : list Z) : binary (lsb_char <$> vs).
Proof.
  apply Forall_fmap, Forall_forall. intros v _. unfold compose, lsb_char, is_bit_char, ch_0, ch_1.
  destruct (land_1_bit v) as [-> | ->]; done.
Qed.

(** A match of [d] inside a string of bits is made of bits. *)
Lemma contains_binary (d s : pystr) : contains d s = true -> binary s -> binary d.
Proof.
  intros Hc Hs. apply contains_spec in Hc as [i Hi]. apply is_prefix_spec in Hi as [r Hr].
  apply (Forall_drop _ i) in Hs. rewrite Hr in Hs. by apply Forall_app in Hs as [Hd _].
Qed.

Lemma scan_binary (d : pystr) (vs : list Z) : binary (scan_f d [] (lsb_char <$> vs)).1.
Proof.
  destruct (scan_f_prefix d [] (lsb_char <$> vs)) as [k ->]. simpl.
  apply Forall_take, lsb_chars_binary.
Qed.

(** After the loop: on a string of bits, [reveal] never raises. *)
Lemma reveal_binary (d bm : pystr) (e : py_error) : binary bm -> reveal d bm <> RetrieveCrashed e.
Proof.
  intros Hb. unfold reveal, py_find, contains. destruct (find_index d bm) as [i|]; [|done].
  unfold py_slice_to. destruct (Z.ltb_spec (Z.of_nat i) 0); [lia|].
  destruct (decode_message_binary (take (Z.to_nat (Z.of_nat i)) bm)) as [m [Hm _]].
  - by apply Forall_take.
  - by rewrite Hm.
Qed.

(** [retrieve_message] on an image PIL accepts: the delimiter search over
    the lowest bits of the RGB view, then [reveal]. *)
Theorem retrieve_message_spec (im : image) (d : pystr) : image_wf im ->
  retrieve_message im d = reveal d (scan_f d [] (lsb_char <$> rgb_slots (ensure_rgb im))).1.
Proof.
  intros Hwf. unfold retrieve_message, retrieve_bits.
  by rewrite retrieve_loop_scan by (by apply ensure_rgb_wf).
Qed.

(** C9. Safety: retrieval never raises on an image PIL accepts, whatever the
    delimiter. *)
Theorem retrieve_message_no_crash (im : image) (d : pystr) (e : py_error) :
  image_wf im -> retrieve_message im d <> RetrieveCrashed e.
Proof.
  intros Hwf. rewrite retrieve_message_spec by done. apply reveal_binary, scan_binary.
Qed.

(** C10. A delimiter with a character other than ['0'] and ['1'] is never
    found: the accumulated string holds only ['0'] and ['1']. *)
Theorem retrieve_nonbinary_delimiter (im : image) (d : pystr) :
  image_wf im -> ~ binary d -> retrieve_message im d = NoMessage.
Proof.
  intros Hwf Hd. rewrite retrieve_message_spec by done. unfold reveal.
  destruct (contains d _) eqn:Hc; [|done].
  exfalso. apply Hd. eapply contains_binary; [exact Hc | apply scan_binary].
Qed.

(** C3. Refinement of the retrieval loop: on a well-formed RGB image, the
    two loops of lines 129-148, with the [break] of the inner loop and
    the test-and-[break] after it, never raise and stop with the string
    that the specification [scan_f] accumulates over the lowest bits of
    the channels in row-major order; that string holds only ['0'] and
    ['1']. *)
Theorem retrieve_loop_refines (d : pystr) (im : image) : rgb_image_wf im ->
  retrieve_loop d (im_width im) (im_height im) (im_pixels im) =
  py_ret (scan_f d [] (lsb_char <$> rgb_slots im)).1 /\
  binary (scan_f d [] (lsb_char <$> rgb_slots im)).1.
Proof. intros Hrgb. split; [by apply retrieve_loop_scan | apply scan_binary]. Qed.

Lemma retrieve_loop_refines_witness :
  rgb_image_wf (sample_image 3 2) /\
  retrieve_loop [48%Z; 48%Z] (im_width (sample_image 3 2)) (im_height (sample_image 3 2))
    (im_pixels (sample_image 3 2)) =
  py_ret (scan_f [48%Z; 48%Z] [] (lsb_char <$> rgb_slots (sample_image 3 2))).1 /\
  binary (scan_f [48%Z; 48%Z] [] (lsb_char <$> rgb_slots (sample_image 3 2))).1.
Proof.
  assert (rgb_image_wf (sample_image 3 2)) as H
    by (apply (bool_decide_unpack _); vm_compute; reflexivity).
  split; [exact H | apply retrieve_loop_refines; exact H].
Defined.

Lemma retrieve_message_no_crash_witness :
  image_wf (sample_image 2 2) /\
  retrieve_message (sample_image 2 2) [48%Z; 49%Z] <> RetrieveCrashed ValueError.
Proof.
  assert (image_wf (sample_image 2 2)) as H
    by (apply (bool_decide_unpack _); vm_compute; reflexivity).
  split; [exact H | by apply retrieve_message_no_crash].
Defined.

Lemma retrieve_nonbinary_delimiter_witness :
  image_wf (sample_image 2 2) /\ ~ binary [97%Z; 48%Z] /\
  retrieve_message (sample_image 2 2) [97%Z; 48%Z] = NoMessage.
Proof.
  assert (image_wf (sample_image 2 2)) as H
    by (apply (bool_decide_unpack _); vm_compute; reflexivity).
  assert (~ binary [97%Z; 48%Z]) as Hb
    by (apply (bool_decide_unpack _); vm_compute; reflexivity).
  split; [exact H | split; [exact Hb | by apply retrieve_nonbinary_delimiter]].
Defined.

(** ** The early exit *)

(** C25. Equivalence with the reference: the loops, which stop as soon as
    the delimiter appears, give the same outcome as reading every channel
    and cutting the whole string at the first occurrence. *)
Theorem retrieve_message_equiv (im : image) (d : pystr) : image_wf im ->
  retrieve_message im d = retrieve_reference im d.
Proof. intros Hwf. unfold retrieve_reference. by rewrite retrieve_message_spec, reveal_scan. Qed.

Lemma retrieve_message_equiv_witness :
  image_wf (sample_image 3 2) /\
  retrieve_message (sample_image 3 2) [48%Z; 48%Z] = retrieve_reference (sample_image 3 2) [48%Z; 48%Z].
Proof.
  assert (image_wf (sample_image 3 2)) as Hwf by (apply (bool_decide_unpack _); vm_compute; reflexivity).
  split; [done|]. by apply retrieve_message_equiv.
Defined.

(** C26. Progress: when the delimiter occurs anywhere among the lowest
    bits of the image, retrieval finds it and returns a message. *)
Theorem retrieve_finds_delimiter (im : image) (d : pystr) : image_wf im ->
  contains d (lsb_char <$> rgb_slots (ensure_rgb im)) = true ->
  exists message, retrieve_message im d = Retrieved message.
Proof.
  intros Hwf Hc. rewrite retrieve_message_spec, reveal_scan by done.
  destruct (reveal d _) as [m| |e] eqn:E; [by eexists | |].
  - unfold reveal in E. rewrite Hc in E. by destruct (decode_message _).
  - exfalso. by apply (reveal_binary _ _ e (lsb_chars_binary _)) in E.
Qed.

Lemma retrieve_finds_delimiter_witness :
  image_wf (sample_image 3 2) /\
  contains [48%Z; 48%Z] (lsb_char <$> rgb_slots (ensure_rgb (sample_image 3 2))) = true /\
  exists message, retrieve_message (sample_image 3 2) [48%Z; 48%Z] = Retrieved message.
Proof.
  assert (image_wf (sample_image 3 2)) as Hwf by (apply (bool_decide_unpack _); vm_compute; reflexivity).
  assert (contains [48%Z; 48%Z] (lsb_char <$> rgb_slots (ensure_rgb (sample_image 3 2))) = true)
    as Hc by (vm_compute; reflexivity).
  split; [done|]. split; [done|]. by apply retrieve_finds_delimiter.
Defined.

(** C27. What a retrieved message is: one character below U+0100 per
    slice of eight bits before the first occurrence of the delimiter,
    the last slice possibly shorter. *)
Theorem retrieved_message_type (im : image) (d message : pystr) : image_wf im ->
  retrieve_message im d = Retrieved message ->
  latin1 message /\
  exists i, find_index d (lsb_char <$> rgb_slots (ensure_rgb im)) = Some i /\
            length message = (i + 7) / 8.
Proof.
  intros Hwf H. rewrite retrieve_message_spec, reveal_scan in H by done.
  set (s := lsb_char <$> rgb_slots (ensure_rgb im)) in *.
  unfold reveal, contains, py_find, py_slice_to in H.
  destruct (find_index d s) as [i|] eqn:Hi; [|discriminate].
  destruct (Z.ltb_spec (Z.of_nat i) 0); [lia|]. rewrite Nat2Z.id in H.
  destruct (decode_message_binary (take i s)) as [m [Hm Hl]];
    [apply Forall_take, lsb_chars_binary|].
  rewrite Hm in H. injection H as <-. split; [done|]. exists i. split; [done|].
  rewrite (decode_message_length _ _ Hm), length_take.
  pose proof (find_index_bound _ _ _ Hi). f_equal. lia.
Qed.

Lemma retrieved_message_type_witness :
  image_wf (sample_image 3 2) /\
  retrieve_message (sample_image 3 2) [48%Z; 48%Z] = Retrieved [] /\
  latin1 (@nil Z) /\
  exists i, find_index [48%Z; 48%Z] (lsb_char <$> rgb_slots (ensure_rgb (sample_image 3 2))) = Some i /\
            length (@nil Z) = (i + 7) / 8.
Proof.
  assert (image_wf (sample_image 3 2)) as Hwf by (apply (bool_decide_unpack _); vm_compute; reflexivity).
  assert (retrieve_message (sample_image 3 2) [48%Z; 48%Z] = Retrieved []) as Hr
    by (vm_compute; reflexivity).
  split; [done|]. split; [done|]. by apply (retrieved_message_type _ _ _ Hwf Hr).
Defined.


(** C30. How much retrieval reads: with a non-empty delimiter the loops
    stop right after the end of its first occurrence among the lowest
    bits, and read all 3 * w * h channels when it does not occur. *)
Theorem retrieve_bits_length (im : image) (d : pystr) : image_wf im -> d <> [] ->
  exists bm, retrieve_bits d im = py_ret bm /\
    length bm = match find_index d (lsb_char <$> rgb_slots (ensure_rgb im)) with
                | Some i => i + length d
                | None => 3 * (im_width im * im_height im)
                end.
Proof.
  intros Hwf Hd. unfold retrieve_bits. rewrite retrieve_loop_scan by (by apply ensure_rgb_wf).
  eexists. split; [reflexivity|]. rewrite scan_f_length by done.
  destruct (find_index _ _); [done|].
  rewrite length_fmap, length_rgb_slots by (by apply ensure_rgb_wf).
  by destruct (ensure_rgb_size im) as [-> ->].
Qed.

Lemma retrieve_bits_length_witness :
  image_wf (sample_image 3 2) /\ [49%Z] <> [] /\
  exists bm, retrieve_bits [49%Z] (sample_image 3 2) = py_ret bm /\
    length bm = match find_index [49%Z] (lsb_char <$> rgb_slots (ensure_rgb (sample_image 3 2))) with
                | Some i => i + length [49%Z]
                | None => 3 * (im_width (sample_image 3 2) * im_height (sample_image 3 2))
                end.
Proof.
  assert (image_wf (sample_image 3 2)) as Hwf by (apply (bool_decide_unpack _); vm_compute; reflexivity).
  split; [done|]. split; [discriminate|]. by apply retrieve_bits_length.
Defined.
