(* ===== verification/RetrieveMachine.v ===== *)
(** The retrieval loops of [retrieve_message] (Steganography.py,
    lines 126-148) as a small-step machine.

    A state is a point of the control flow of the two nested [for] loops:
    the head of the outer loop ([AtRow]), the head of the inner loop
    ([AtPixel]), the three extract-and-test blocks of a pixel
    ([AtChannel], with the channel values still to append), the test
    after the inner loop ([AfterRow]) and the exit of the loops
    ([Finished]); each carries the accumulated [binary_message].  The
    relation [rstep] has one rule per transfer of control of the code,
    the [break]s included.

    The machine makes the intermediate states of the loops visible, which
    the functional model [retrieve_loop] (file Retrieve) hides.  The
    theorem [retrieve_machine_prefix] is an invariant of those states:
    every state reachable from [binary_message = ""] holds a prefix of
    the lowest bits of the image in row-major, red-green-blue order.  It
    is proved from [rinv] (the bounds on the loop counters and the tests
    already passed) and [rfinal] (the string the loops will end with),
    which every step preserves. *)

From stdpp Require Import relations.
From S2P Require Import Prelude PyStr Bitstream Channel Image Retrieve.

Inductive rstate : Type :=
| AtRow (y : nat) (bm : pystr)                      (* line 129 *)
| AtPixel (y x : nat) (bm : pystr)                  (* lines 130-131 *)
| AtChannel (y x : nat) (vs : list Z) (bm : pystr)  (* lines 133-146 *)
| AfterRow (y : nat) (bm : pystr)                   (* lines 147-148 *)
| Finished (bm : pystr).                            (* line 150 *)

(** The accumulated [binary_message] of a state. *)
Definition rstate_bm (s : rstate) : pystr :=
  match s with
  | AtRow _ bm | AtPixel _ _ bm | AtChannel _ _ _ bm | AfterRow _ bm | Finished bm => bm
  end.

(** [binary_message = ""] before the loops (line 126). *)
Definition rstart : rstate := AtRow 0 [].

Section Machine.
Context (d : pystr) (w h : nat) (px : list pixel).

Inductive rstep : rstate -> rstate -> Prop :=
(* [for y in range(height)]: next row, or the loop ends *)
| rstep_row y bm : y < h -> rstep (AtRow y bm) (AtPixel y 0 bm)
| rstep_rows_done y bm : h <= y -> rstep (AtRow y bm) (Finished bm)
(* [for x in range(width)]: [r, g, b = pixels[x, y]], or the loop ends *)
| rstep_pixel y x bm p r g b :
    x < w -> get_pixel w h px x y = py_ret p -> unpack3 p = py_ret (r, g, b) ->
    rstep (AtPixel y x bm) (AtChannel y x [r; g; b] bm)
| rstep_pixels_done y x bm : w <= x -> rstep (AtPixel y x bm) (AfterRow y bm)
(* [binary_message += str(v & 1)]; [if delimiter in binary_message: break] *)
| rstep_channel_break y x v vs bm :
    contains d (bm ++ str_bit (Z.land v 1)) = true ->
    rstep (AtChannel y x (v :: vs) bm) (AfterRow y (bm ++ str_bit (Z.land v 1)))
| rstep_channel y x v vs bm :
    contains d (bm ++ str_bit (Z.land v 1)) = false ->
    rstep (AtChannel y x (v :: vs) bm) (AtChannel y x vs (bm ++ str_bit (Z.land v 1)))
(* the end of the body of the inner loop *)
| rstep_next_pixel y x bm : rstep (AtChannel y x [] bm) (AtPixel y (S x) bm)
(* [if delimiter in binary_message: break] after the inner loop *)
| rstep_row_break y bm : contains d bm = true -> rstep (AfterRow y bm) (Finished bm)
| rstep_next_row y bm : contains d bm = false -> rstep (AfterRow y bm) (AtRow (S y) bm).

(** The bounds on the loop counters and the test the code has passed
    at each point: no [break] is pending before the delimiter shows up. *)
Definition rinv (s : rstate) : Prop :=
  match s with
  | AtRow y bm => y <= h /\ contains d bm = false
  | AtPixel y x bm => y < h /\ x <= w /\ contains d bm = false
  | AtChannel y x vs bm => y < h /\ x < w /\ contains d bm = false
  | AfterRow y _ => y < h
  | Finished _ => True
  end.

(** The string the loops will end with from a state: the search [scan_f]
    (file Channel) continued over the lowest bits not yet read. *)
Definition rfinal (s : rstate) : pystr :=
  let sl := lsb_char <$> concat px in
  match s with
  | AtRow y bm => (scan_f d bm (drop (3 * (y * w)) sl)).1
  | AtPixel y x bm => (scan_f d bm (drop (3 * (y * w + x)) sl)).1
  | AtChannel y x vs bm => (scan_f d bm ((lsb_char <$> vs) ++ drop (3 * (y * w + S x)) sl)).1
  | AfterRow y bm => if contains d bm then bm else (scan_f d bm (drop (3 * (S y * w)) sl)).1
  | Finished bm => bm
  end.

End Machine.

(** The lowest bits from raster position [k] on start with those of the
    pixel at [k]. *)
Lemma drop_lsb_pixel (px : list pixel) (k : nat) (p : pixel) :
  Forall (fun p => length p = 3) px -> px !! k = Some p ->
  drop (3 * k) (lsb_char <$> concat px) =
  (lsb_char <$> p) ++ drop (3 * S k) (lsb_char <$> concat px).
Proof.
  rewrite <- !fmap_drop, <- fmap_app. intros H3 Hk. f_equal.
  revert k Hk; induction H3 as [|q ps Hq H3 IH]; intros [|k] Hk; [done|done| |];
    simpl in Hk; rewrite concat_cons.
  - simplify_eq. by rewrite Nat.mul_0_r, drop_0, (drop_app_length' _ _ 3).
  - replace (3 * S (S k)) with (3 + 3 * S k) by lia.
    replace (3 * S k) with (3 + 3 * k) at 1 by lia.
    rewrite <- !drop_drop, (drop_app_length' _ _ 3) by done. by apply IH.
Qed.

Lemma length_concat_3 (ps : list pixel) :
  Forall (fun p => length p = 3) ps -> length (concat ps) = 3 * length ps.
Proof.
  induction 1 as [|p ps Hp _ IH]; [done|].
  rewrite concat_cons, length_app, IH, Hp. simpl. lia.
Qed.

(** A prefix of a prefix of [sl] is a prefix of [sl]. *)
Lemma app_take_prefix (bm t sl : pystr) (k : nat) :
  bm ++ t = take k sl -> bm = take (length bm) sl.
Proof.
  intros Hk. assert (length bm <= k) as Hle.
  { pose proof (f_equal length Hk) as Hl. rewrite length_app, length_take in Hl.
    pose proof (Nat.le_min_l k (length sl)). lia. }
  transitivity (take (length bm) (bm ++ t)); [by rewrite take_app_length|].
  rewrite Hk, take_take. f_equal. lia.
Qed.

Lemma rgb_image_wf_pixels (im : image) : rgb_image_wf im ->
  length (im_pixels im) = im_width im * im_height im /\
  Forall (fun p => length p = 3) (im_pixels im).
Proof.
  intros [Hm [Hlen Hpx]]. rewrite Hm in Hpx. split; [done|].
  eapply Forall_impl; [exact Hpx|]. by intros p [Hl _].
Qed.

Lemma rinv_start (d : pystr) (w h : nat) : d <> [] -> rinv d w h rstart.
Proof. intros Hd. split; [lia|]. by destruct d. Qed.

Section Simulation.
Context (d : pystr) (w h : nat) (px : list pixel).
Context (Hlen : length px = w * h) (H3 : Forall (fun p => length p = 3) px).

Local Abbreviation step := (rstep d w h px).
Local Abbreviation sl := (lsb_char <$> concat px).

(** Every step keeps the invariant and the string the loops end with. *)
Lemma rstep_preserve (s s' : rstate) :
  rinv d w h s -> step s s' -> rinv d w h s' /\ rfinal d w px s' = rfinal d w px s.
Proof.
  intros Hi Hs. destruct Hs as [y bm Hy|y bm Hy|y x bm p r g b Hx Hp Hu|y x bm Hx
    |y x v vs bm Hc|y x v vs bm Hc|y x bm|y bm Hc|y bm Hc]; cbn [rinv rfinal] in *.
  - split; [split_and!; (lia || tauto)|]. by rewrite Nat.add_0_r.
  - split; [done|]. rewrite drop_ge; [done|].
    rewrite length_fmap, length_concat_3, Hlen by done. nia.
  - unfold get_pixel in Hp.
    destruct ((x <? w) && (y <? h)); [|discriminate].
    destruct (px !! (y * w + x)) as [q|] eqn:Hq; [|discriminate].
    destruct q as [|r' [|g' [|b' [|]]]]; cbv [py_ret py_raise unpack3] in Hp, Hu; simplify_eq.
    split; [split_and!; (lia || tauto)|].
    rewrite (drop_lsb_pixel px (y * w + x) [r; g; b]) by done.
    by rewrite Nat.add_succ_r.
  - destruct Hi as (Hy & Hx' & Hc). split; [done|]. rewrite Hc.
    by replace (S y * w) with (y * w + x) by lia.
  - split; [tauto|]. rewrite Hc, fmap_cons, <- app_comm_cons, scan_f_cons.
    change (str_bit (Z.land v 1)) with [lsb_char v] in Hc. by rewrite Hc.
  - split; [split_and!; (lia || tauto)|].
    rewrite fmap_cons, <- app_comm_cons, scan_f_cons.
    change (str_bit (Z.land v 1)) with [lsb_char v] in Hc. by rewrite Hc.
  - split; [split_and!; (lia || tauto)|]. done.
  - split; [done|]. by rewrite Hc.
  - split; [split_and!; (lia || tauto)|]. by rewrite Hc.
Qed.

Lemma rtc_preserve (s s' : rstate) :
  rinv d w h s -> rtc step s s' -> rinv d w h s' /\ rfinal d w px s' = rfinal d w px s.
Proof.
  intros Hi Hr. induction Hr as [s|s s1 s' Hs _ IH]; [done|].
  destruct (rstep_preserve s s1 Hi Hs) as [Hi1 Hf1].
  destruct (IH Hi1) as [Hi' Hf']. split; [done|]. congruence.
Qed.

(** The string a state holds is the start of the string the loops end
    with. *)
Lemma rfinal_extends (s : rstate) : exists t, rfinal d w px s = rstate_bm s ++ t.
Proof.
  destruct s as [y bm|y x bm|y x vs bm|y bm|bm]; simpl;
    try (destruct (contains d bm)); try (exists []; by rewrite app_nil_r);
    edestruct scan_f_prefix as [k ->]; by eexists.
Qed.

End Simulation.

(** ** The invariant *)

(** C31. Invariant: in every state the machine reaches from the start,
    on a well-formed RGB image and a non-empty delimiter, the accumulated
    [binary_message] is a prefix of the lowest bits of the channels in
    row-major, red-green-blue order: the loops append each bit once, in
    that order, and nothing else. *)
Theorem retrieve_machine_prefix (d : pystr) (im : image) (s : rstate) :
  rgb_image_wf im -> d <> [] ->
  rtc (rstep d (im_width im) (im_height im) (im_pixels im)) rstart s ->
  rstate_bm s = take (length (rstate_bm s)) (lsb_char <$> rgb_slots im).
Proof.
  intros Him Hd Hr. destruct (rgb_image_wf_pixels im Him) as [Hlen H3].
  destruct (rtc_preserve _ _ _ _ Hlen H3 _ _ (rinv_start _ _ _ Hd) Hr) as [_ Hf].
  destruct (rfinal_extends d (im_width im) (im_pixels im) s) as [t Ht].
  destruct (scan_f_prefix d [] (lsb_char <$> rgb_slots im)) as [k Hk].
  apply (app_take_prefix _ t _ k). rewrite <- Ht, Hf. simpl. by rewrite drop_0.
Qed.

Lemma retrieve_machine_prefix_witness :
  rgb_image_wf (sample_image 3 2) /\ [48%Z; 48%Z] <> [] /\
  rtc (rstep [48%Z; 48%Z] 3 2 (im_pixels (sample_image 3 2))) rstart
    (AtChannel 0 0 [20%Z; 30%Z] [48%Z]) /\
  [48%Z] = take 1 (lsb_char <$> rgb_slots (sample_image 3 2)).
Proof.
  assert (rgb_image_wf (sample_image 3 2)) as H
    by (apply (bool_decide_unpack _); vm_compute; reflexivity).
  assert (rtc (rstep [48%Z; 48%Z] 3 2 (im_pixels (sample_image 3 2))) rstart
    (AtChannel 0 0 [20%Z; 30%Z] [48%Z])) as Hr.
  { eapply rtc_l; [apply rstep_row; lia|].
    eapply rtc_l; [apply (rstep_pixel _ _ _ _ 0 0 [] [10%Z; 20%Z; 30%Z]);
      [lia|vm_compute; reflexivity|reflexivity]|].
    eapply rtc_l; [apply rstep_channel; vm_compute; reflexivity|].
    apply rtc_refl. }
  split; [exact H|]. split; [discriminate|]. split; [exact Hr|].
  exact (retrieve_machine_prefix [48%Z; 48%Z] (sample_image 3 2) _ H ltac:(discriminate) Hr).
Defined.
