(* ===== verification/Delimiter.v ===== *)
(** The delimiter: [generate_random_delimiter] and [get_delimiter]
    (Steganography.py, lines 33-54).

    [get_delimiter] reads a Y/N answer; on "Y" it reads a custom delimiter
    and keeps it when it is made of ['0'] and ['1'] and has at least 15
    characters, and otherwise falls back to a random one; on "N" it
    returns the constant ['00001111' * 4]; on anything else it falls back
    to a random one.  The random delimiter is [random.choices] of 32
    characters of [ascii_letters + digits + punctuation]: the random draws
    are an explicit input, a stream of indices into that population. *)

From S2P Require Import Prelude PyStr Bitstream.

(** Code points [a .. b]. *)
Definition zrange (a b : Z) : pystr :=
  (fun i => a + Z.of_nat i)%Z <$> seq 0 (Z.to_nat (b - a + 1)).

(** [string.ascii_letters + string.digits + string.punctuation] *)
Definition population : pystr :=
  zrange 97 122 ++ zrange 65 90 ++ zrange 48 57 ++
  zrange 33 47 ++ zrange 58 64 ++ zrange 91 96 ++ zrange 123 126.

(** The generator: [draw i] is the index [floor(random() * len(population))]
    of the [i]-th call, below the population size. *)
Record rng : Type := mk_rng {
  draw : nat -> nat;
  draw_lt : forall i, draw i < length population
}.

(** [generate_random_delimiter(length)] (lines 33-35). *)
Definition generate_random_delimiter (r : rng) (len : nat) : pystr :=
  (fun i => nth (draw r i) population 0%Z) <$> seq 0 len.

(** The constant of line 51. *)
Definition default_delimiter : pystr := pystr_of "00001111000011110000111100001111"%string.

(** [get_delimiter()] (lines 37-54), [choice] and [custom] being the two
    lines the user types. *)
Definition get_delimiter (choice custom : pystr) (r : rng) : pystr :=
  let choice := py_upper (py_strip choice) in
  if pystr_eqb choice (pystr_of "Y"%string) then
    let custom_delimiter := py_strip custom in
    if negb (forallb is_bit_char custom_delimiter) || (length custom_delimiter <? 15)
    then generate_random_delimiter r 32
    else custom_delimiter
  else if pystr_eqb choice (pystr_of "N"%string) then default_delimiter
  else generate_random_delimiter r 32.

(** The generator whose draws all pick the first character, "a". *)
Definition letter_rng : rng := mk_rng (fun _ => 0) (fun _ => ltac:(vm_compute; lia)).

(** ** Lemmas *)

Lemma length_population : length population = 94.
Proof. reflexivity. Qed.

Lemma length_generate (r : rng) (len : nat) :
  length (generate_random_delimiter r len) = len.
Proof. unfold generate_random_delimiter. by rewrite length_fmap, length_seq. Qed.

Lemma generate_in_population (r : rng) (len : nat) :
  Forall (fun c => In c population) (generate_random_delimiter r len).
Proof.
  unfold generate_random_delimiter. apply Forall_fmap, Forall_forall. intros i _.
  apply nth_In, draw_lt.
Qed.

(** Which characters of the population are bits: indices 52 and 53 (the
    digits ['0'] and ['1']), checked on the 94 characters. *)
Lemma population_bits_table :
  forallb (fun k => Bool.eqb (is_bit_char (nth k population 0%Z)) ((k =? 52) || (k =? 53)))
    (seq 0 94) = true.
Proof. vm_compute. reflexivity. Qed.

Lemma population_bit (k : nat) : k < length population ->
  is_bit_char (nth k population 0%Z) = true <-> k = 52 \/ k = 53.
Proof.
  rewrite length_population. intros Hk. pose proof population_bits_table as T.
  rewrite forallb_forall in T. specialize (T k ltac:(apply in_seq; lia)).
  apply Bool.eqb_prop in T. rewrite T, orb_true_iff, !Nat.eqb_eq. done.
Qed.

(** C18. A random delimiter is a string of bits exactly when every draw hit
    one of the two digits ['0'] and ['1'] among the 94 characters. *)
Theorem generate_binary_iff (r : rng) (len : nat) :
  binary (generate_random_delimiter r len) <->
  forall i, i < len -> draw r i = 52 \/ draw r i = 53.
Proof.
  unfold binary, generate_random_delimiter. rewrite Forall_fmap, List.Forall_forall.
  split.
  - intros H i Hi. apply population_bit; [apply draw_lt|]. apply H, in_seq. lia.
  - intros H i Hi. apply in_seq in Hi. apply population_bit; [apply draw_lt|]. apply H. lia.
Qed.

(** The constant after "N", the random fallback after anything but "Y"
    and "N". *)
Lemma get_delimiter_no (choice custom : pystr) (r : rng) :
  py_upper (py_strip choice) = pystr_of "N"%string -> get_delimiter choice custom r = default_delimiter.
Proof. intros Hn. unfold get_delimiter. by rewrite Hn. Qed.

Lemma get_delimiter_other (choice custom : pystr) (r : rng) :
  py_upper (py_strip choice) <> pystr_of "Y"%string -> py_upper (py_strip choice) <> pystr_of "N"%string ->
  get_delimiter choice custom r = generate_random_delimiter r 32.
Proof.
  intros Hy Hn. unfold get_delimiter, pystr_eqb.
  rewrite !bool_decide_eq_false_2 by done. done.
Qed.

Lemma get_delimiter_length (choice custom : pystr) (r : rng) :
  15 <= length (get_delimiter choice custom r).
Proof.
  unfold get_delimiter. pose proof (length_generate r 32) as Hg.
  destruct (pystr_eqb _ (pystr_of "Y"%string)).
  - destruct (negb _ || _) eqn:E; [lia|]. apply orb_false_iff in E as [_ Hl]. by apply Nat.ltb_ge in Hl.
  - destruct (pystr_eqb _ (pystr_of "N"%string)); [vm_compute; lia | lia].
Qed.

(** C16. Every delimiter [get_delimiter] returns is either a string of at least
    15 bits (the custom one or the constant) or 32 characters of the
    population (the random fallback). *)
Theorem get_delimiter_result (choice custom : pystr) (r : rng) :
  let d := get_delimiter choice custom r in
  (binary d /\ 15 <= length d) \/
  (d = generate_random_delimiter r 32 /\ length d = 32 /\ Forall (fun c => In c population) d).
Proof.
  unfold get_delimiter. simpl.
  assert (length (generate_random_delimiter r 32) = 32 /\
          Forall (fun c => In c population) (generate_random_delimiter r 32)) as Hg
    by (split; [apply length_generate | apply generate_in_population]).
  destruct (pystr_eqb _ (pystr_of "Y"%string)).
  - destruct (negb (forallb is_bit_char (py_strip custom)) || (length (py_strip custom) <? 15))
      eqn:E; [by right|].
    left. apply orb_false_iff in E as [Hb Hl]. apply negb_false_iff in Hb.
    apply Nat.ltb_ge in Hl. split; [|done]. unfold binary. apply List.Forall_forall. by apply forallb_forall.
  - destruct (pystr_eqb _ (pystr_of "N"%string)); [left|by right].
    split; [by vm_compute; repeat constructor | vm_compute; lia].
Qed.

(** C17. The fallback of line 46: after "Y", a custom delimiter that is not
    made of bits or is shorter than 15 characters is replaced by 32
    random characters. *)
Theorem get_delimiter_fallback (choice custom : pystr) (r : rng) :
  py_upper (py_strip choice) = pystr_of "Y"%string ->
  ~ (binary (py_strip custom) /\ 15 <= length (py_strip custom)) ->
  get_delimiter choice custom r = generate_random_delimiter r 32.
Proof.
  intros Hy Hbad. unfold get_delimiter. rewrite Hy. unfold pystr_eqb at 1.
  rewrite bool_decide_eq_true_2 by done.
  destruct (forallb is_bit_char (py_strip custom)) eqn:Hb; [|done].
  destruct (Nat.ltb_spec (length (py_strip custom)) 15); [done|].
  exfalso. apply Hbad. split; [|lia]. unfold binary. apply List.Forall_forall. by apply forallb_forall.
Qed.

Lemma get_delimiter_fallback_witness :
  py_upper (py_strip (pystr_of " y"%string)) = pystr_of "Y"%string /\
  ~ (binary (py_strip (pystr_of "0101"%string)) /\ 15 <= length (py_strip (pystr_of "0101"%string))) /\
  get_delimiter (pystr_of " y"%string) (pystr_of "0101"%string) letter_rng =
  generate_random_delimiter letter_rng 32.
Proof.
  assert (py_upper (py_strip (pystr_of " y"%string)) = pystr_of "Y"%string) as Hy
    by (vm_compute; reflexivity).
  assert (~ (binary (py_strip (pystr_of "0101"%string)) /\
  15 <= length (py_strip (pystr_of "0101"%string)))) as Hn
    by (vm_compute; lia).
  split; [done|]. split; [done|]. by apply get_delimiter_fallback.
Defined.

(** Which characters of the population are decimal digits: indices 52 to
    61, checked on the 94 characters. *)
Lemma population_digits_table :
  forallb (fun k => Bool.eqb (is_digit_char (nth k population 0%Z)) ((52 <=? k) && (k <=? 61)))
    (seq 0 94) = true.
Proof. vm_compute. reflexivity. Qed.

Lemma population_digit (k : nat) : k < length population ->
  is_digit_char (nth k population 0%Z) = true <-> 52 <= k <= 61.
Proof.
  rewrite length_population. intros Hk. pose proof population_digits_table as T.
  rewrite forallb_forall in T. specialize (T k ltac:(apply in_seq; lia)).
  apply Bool.eqb_prop in T. rewrite T, andb_true_iff, !Nat.leb_le. done.
Qed.

Lemma generate_binary_iff_witness :
  binary (generate_random_delimiter (mk_rng (fun i => 52 + i mod 2)
           (fun i => ltac:(rewrite length_population; pose proof (Nat.mod_upper_bound i 2); lia))) 4) /\
  ~ binary (generate_random_delimiter letter_rng 1).
Proof.
  split.
  - apply generate_binary_iff. intros i _. simpl. pose proof (Nat.mod_upper_bound i 2). lia.
  - rewrite generate_binary_iff. intros H. specialize (H 0 ltac:(lia)). simpl in H. lia.
Defined.
