(* ===== verification/Codec.v ===== *)
(** The codec end to end: [embed_message] then [retrieve_message].

    The image implements the interface [LsbCarrier] of file Channel: its
    slots are the channel values of the RGB raster in row-major order, its
    loops are [embed_image] and [retrieve_bits]; the laws are the
    refinement theorems of files Embed and Retrieve.  The abstract round
    trip then gives [codec_roundtrip]: a one-byte-per-character message
    whose bit string and delimiter fit in the image, with a binary
    delimiter that first occurs after the encoded message, comes back
    unchanged.  [embed_then_retrieve] describes embedding then retrieving
    for any binary delimiter; the remaining lemmas evaluate it on the
    inputs where the message is lost (the delimiter found inside the
    message, a capacity check that forgets the delimiter, characters above
    U+00FF) and on the random delimiter that is not binary.  File Main
    states them as runs of the program. *)

From S2P Require Import Prelude PyStr Bitstream Channel Image Embed Retrieve Delimiter.

(** ** The image as a carrier *)

Lemma ensure_rgb_id (im : image) : im_mode im = RGB -> ensure_rgb im = im.
Proof. intros Hm. unfold ensure_rgb. by case_decide. Qed.

Lemma ensure_rgb_idem (im : image) : ensure_rgb (ensure_rgb im) = ensure_rgb im.
Proof. apply ensure_rgb_id, ensure_rgb_mode. Qed.

Lemma embed_image_ensure_rgb (bm : pystr) (im : image) :
  embed_image bm (ensure_rgb im) = embed_image bm im.
Proof. unfold embed_image. by rewrite ensure_rgb_idem. Qed.

#[export] Instance image_carrier : LsbCarrier image := {|
  carrier_ok := rgb_image_wf;
  slots := rgb_slots;
  embed_bits := embed_image;
  extract_bits := retrieve_bits
|}.

#[export] Instance image_carrier_laws : LsbCarrierLaws image.
Proof.
  split; simpl.
  - intros bits im [Hm Hwf]. rewrite embed_image_slots by done. by rewrite ensure_rgb_id.
  - intros bits im im' [Hm Hwf] H. by apply (embed_image_wf bits im im' Hwf H).
  - intros d im Hrgb. unfold retrieve_bits. rewrite ensure_rgb_id by apply Hrgb.
    by apply retrieve_loop_scan.
Qed.

(** ** The round trip *)

(** Embedding then retrieving: when the message has one byte per
    character, the bit string with the delimiter fits in the 3 * w * h
    channels, and the delimiter is a non-empty string of bits whose first
    occurrence in [binary_message] is right after the encoded message,
    [embed_message] saves an image without warning and [retrieve_message]
    on that image returns the message. *)
Lemma codec_roundtrip (im : image) (message d confirmation : pystr) :
  image_wf im -> latin1 message -> d <> [] -> binary d ->
  find_index d (binary_message message d) = Some (length (encode_message message)) ->
  8 * length message + length d <= 3 * (im_width im * im_height im) ->
  match embed_message im d message confirmation with
  | EmbedSaved warned im' => warned = false /\ retrieve_message im' d = Retrieved message
  | _ => False
  end.
Proof.
  intros Hwf Hm Hd Hb Hfirst Hfit.
  assert (length message <= calculate_max_message_size im) as Hcap.
  { unfold calculate_max_message_size. apply Nat.div_le_lower_bound; lia. }
  pose proof (ensure_rgb_wf im Hwf) as Hrgb.
  destruct (@carrier_roundtrip image image_carrier image_carrier_laws
              (ensure_rgb im) message d Hrgb Hm Hd Hb Hfirst)
    as (im' & He & Hr).
  { simpl. rewrite length_rgb_slots by done. destruct (ensure_rgb_size im) as [-> ->].
    unfold binary_message. rewrite length_app, length_encode_message by done. lia. }
  simpl in He, Hr. rewrite embed_image_ensure_rgb in He.
  unfold embed_message. destruct (Nat.ltb_spec (calculate_max_message_size im) (length message));
    [lia|]. simpl. rewrite He. split; [done|].
  unfold retrieve_message. unfold res_map in Hr.
  destruct (retrieve_bits d im'); [discriminate|]. by injection Hr.
Qed.

(** ** Embedding then retrieving, in general *)

(** [embed_message] with a binary delimiter and a message within the
    capacity saves without warning; retrieving from the saved image is
    [reveal] of the search over the bit string cut at 3 * w * h characters
    followed by the untouched lowest bits of the original image. *)
Lemma embed_then_retrieve (im : image) (message d confirmation : pystr) :
  image_wf im -> binary d -> length message <= calculate_max_message_size im ->
  let bm := binary_message message d in
  match embed_message im d message confirmation with
  | EmbedSaved warned im' =>
      warned = false /\
      retrieve_message im' d =
      reveal d (scan_f d [] (take (3 * (im_width im * im_height im)) bm ++
                             (lsb_char <$> drop (length bm) (rgb_slots (ensure_rgb im))))).1
  | _ => False
  end.
Proof.
  intros Hwf Hd Hcap bm. pose proof (ensure_rgb_wf im Hwf) as Hrgb.
  assert (binary bm) as Hb
    by (apply Forall_app; split; [apply encode_message_bits | done]).
  destruct (write_slots_bits bm (rgb_slots (ensure_rgb im)) Hb) as (vs' & Hw & Hlsb & _).
  destruct (@embed_bits_success image image_carrier image_carrier_laws bm
              (ensure_rgb im) vs' Hrgb Hw) as (im' & He & Hs & Hok).
  simpl in He, Hs, Hok. rewrite embed_image_ensure_rgb in He.
  unfold embed_message. destruct (Nat.ltb_spec (calculate_max_message_size im) (length message));
    [lia|]. simpl. fold bm. rewrite He. split; [done|].
  rewrite retrieve_message_spec by apply Hok.
  rewrite ensure_rgb_id by apply Hok. rewrite Hs, Hlsb, length_rgb_slots by done.
  by destruct (ensure_rgb_size im) as [-> ->].
Qed.

(** The round trip at a 4 x 4 image, the message "A" and the default
    delimiter. *)

(** ** Concrete behaviours *)

Lemma capacity_of (im : image) : calculate_max_message_size im =
  3 * (im_width im * im_height im) / 8.
Proof. unfold calculate_max_message_size. f_equal. lia. Qed.

(** When the image is too small for the bit string, only its first
    3 * w * h characters are searched. *)
Lemma embed_then_retrieve_cut (im : image) (message d confirmation : pystr) :
  image_wf im -> binary d -> length message <= calculate_max_message_size im ->
  3 * (im_width im * im_height im) <= length (binary_message message d) ->
  match embed_message im d message confirmation with
  | EmbedSaved warned im' =>
      warned = false /\
      retrieve_message im' d =
      reveal d (scan_f d [] (take (3 * (im_width im * im_height im)) (binary_message message d))).1
  | _ => False
  end.
Proof.
  intros Hwf Hd Hcap Hsmall. pose proof (embed_then_retrieve im message d confirmation Hwf Hd Hcap) as H.
  simpl in H. destruct (embed_message _ _ _ _); try done.
  rewrite drop_ge, fmap_nil, app_nil_r in H; [done|].
  rewrite length_rgb_slots by (by apply ensure_rgb_wf).
  destruct (ensure_rgb_size im) as [-> ->]. lia.
Qed.

(** When the search stops inside the bit string, the rest of the image
    does not matter. *)
Lemma embed_then_retrieve_stop (im : image) (message d confirmation : pystr) :
  image_wf im -> binary d -> length message <= calculate_max_message_size im ->
  length (binary_message message d) <= 3 * (im_width im * im_height im) ->
  (scan_f d [] (binary_message message d)).2 = true ->
  match embed_message im d message confirmation with
  | EmbedSaved warned im' =>
      warned = false /\
      retrieve_message im' d = reveal d (scan_f d [] (binary_message message d)).1
  | _ => False
  end.
Proof.
  intros Hwf Hd Hcap Hfit Hstop. pose proof (embed_then_retrieve im message d confirmation Hwf Hd Hcap) as H.
  simpl in H. destruct (embed_message _ _ _ _); try done.
  rewrite take_ge, scan_f_app in H by done.
  destruct (scan_f d [] (binary_message message d)) as [acc []]; [done | discriminate].
Qed.

(** The scenario of the specification (section 8): a 2 x 2 RGB image,
    the message "A" and the delimiter "0000" fill the 12 channels exactly,
    but the bits of "A" are [01000001] and "0000" first occurs at index 2
    of [010000010000]: every such image gives back [chr(0b01)], not "A". *)
Lemma codec_spec_scenario (im : image) (confirmation : pystr) :
  image_wf im -> im_width im = 2 -> im_height im = 2 ->
  match embed_message im (pystr_of "0000"%string) [65%Z] confirmation with
  | EmbedSaved warned im' =>
      warned = false /\ retrieve_message im' (pystr_of "0000"%string) = Retrieved [1%Z]
  | _ => False
  end.
Proof.
  intros Hwf Hw Hh.
  pose proof (embed_then_retrieve_cut im [65%Z] (pystr_of "0000"%string) confirmation Hwf)
    as H. rewrite capacity_of, Hw, Hh in H.
  specialize (H ltac:(apply (bool_decide_unpack _); vm_compute; reflexivity) ltac:(simpl; lia)
                ltac:(vm_compute; lia)).
  destruct (embed_message _ _ _ _); try done.
Qed.

(** The capacity check counts the characters of the message and forgets
    the delimiter: on any 2 x 2 image, "A" passes the check (capacity 1)
    without warning, the 40 bits of "A" and the default delimiter are cut
    at 12, and nothing is found. *)
Lemma codec_capacity_ignores_delimiter (im : image) (confirmation : pystr) :
  image_wf im -> im_width im = 2 -> im_height im = 2 ->
  length [65%Z] <= calculate_max_message_size im /\
  match embed_message im default_delimiter [65%Z] confirmation with
  | EmbedSaved warned im' => warned = false /\ retrieve_message im' default_delimiter = NoMessage
  | _ => False
  end.
Proof.
  intros Hwf Hw Hh. rewrite capacity_of, Hw, Hh. split; [simpl; lia|].
  pose proof (embed_then_retrieve_cut im [65%Z] default_delimiter confirmation Hwf) as H.
  rewrite capacity_of, Hw, Hh in H.
  specialize (H ltac:(apply (bool_decide_unpack _); vm_compute; reflexivity) ltac:(simpl; lia)
                ltac:(vm_compute; lia)).
  destruct (embed_message _ _ _ _); try done.
Qed.

(** The default delimiter inside the message: "\x0f\x0f\x0f\x0f" encodes
    to [00001111] four times, which is the default delimiter; on any image
    with room for the 64 bits, retrieval stops there and returns the empty
    message. *)
Lemma codec_default_collision (im : image) (confirmation : pystr) :
  image_wf im -> 64 <= 3 * (im_width im * im_height im) ->
  match embed_message im default_delimiter [15%Z; 15%Z; 15%Z; 15%Z] confirmation with
  | EmbedSaved warned im' => warned = false /\ retrieve_message im' default_delimiter = Retrieved []
  | _ => False
  end.
Proof.
  intros Hwf Hroom.
  pose proof (embed_then_retrieve_stop im [15%Z; 15%Z; 15%Z; 15%Z] default_delimiter confirmation Hwf)
    as H. rewrite capacity_of in H.
  specialize (H ltac:(apply (bool_decide_unpack _); vm_compute; reflexivity)
                ltac:(apply Nat.div_le_lower_bound; simpl; lia)
                ltac:(vm_compute in Hroom |- *; lia) ltac:(vm_compute; reflexivity)).
  destruct (embed_message _ _ _ _); try done.
Qed.

(** A character above U+00FF: [format(256, '08b')] has nine digits, the
    decoder cuts [100000000] into [10000000] and [0], and the last, short
    slice becomes a character too.  The message "Ā" comes back as
    "\x80\x00" on every image with room for its 41 bits. *)
Lemma codec_wide_character (im : image) (confirmation : pystr) :
  image_wf im -> 41 <= 3 * (im_width im * im_height im) ->
  match embed_message im default_delimiter [256%Z] confirmation with
  | EmbedSaved warned im' =>
      warned = false /\ retrieve_message im' default_delimiter = Retrieved [128%Z; 0%Z]
  | _ => False
  end.
Proof.
  intros Hwf Hroom.
  pose proof (embed_then_retrieve_stop im [256%Z] default_delimiter confirmation Hwf)
    as H. rewrite capacity_of in H.
  specialize (H ltac:(apply (bool_decide_unpack _); vm_compute; reflexivity)
                ltac:(apply Nat.div_le_lower_bound; simpl; lia)
                ltac:(vm_compute in Hroom |- *; lia) ltac:(vm_compute; reflexivity)).
  destruct (embed_message _ _ _ _); try done.
Qed.

(** ** The random delimiter *)

(** The random fallback of [get_delimiter] draws from letters, digits and
    punctuation: unless its first character is a digit (10 chances in 94),
    embedding any one-byte-per-character message that leaves room for
    that character raises [ValueError] at [int()]. *)
Lemma embed_random_delimiter_crash (im : image) (message confirmation : pystr) (r : rng) :
  image_wf im -> latin1 message ->
  8 * length message < 3 * (im_width im * im_height im) ->
  (draw r 0 < 52 \/ 61 < draw r 0) ->
  embed_message im (generate_random_delimiter r 32) message confirmation = EmbedCrashed ValueError.
Proof.
  intros Hwf Hm Hroom Hdraw.
  apply (embed_message_cases im (generate_random_delimiter r 32) message confirmation Hwf).
  { rewrite capacity_of. apply Nat.div_le_lower_bound; lia. }
  unfold binary_message. rewrite take_app, length_encode_message by done.
  apply Exists_app. right.
  destruct (3 * (im_width im * im_height im) - 8 * length message) as [|m] eqn:E; [lia|].
  unfold generate_random_delimiter. rewrite <- cons_seq, fmap_cons. cbn [take firstn]. constructor.
  apply not_true_is_false. rewrite population_digit by apply draw_lt. lia.
Qed.

