(* ===== verification/Caesar.v ===== *)
(** The Caesar cipher of src/CaesarCipher.py (lines 5-18).

    [caesar_cipher_encrypt] shifts letters within their case and decimal
    digits within [0-9] and keeps every other character;
    [caesar_cipher_decrypt] is encryption with the opposite shift.  The
    code decides what a letter, an upper-case letter and a digit are with
    [str.isalpha], [str.isupper] and [str.isdigit], which follow the
    Unicode database.  The class [CharClass] abstracts these three tests;
    [CharClassLaws] states only what they do on ASCII, which is all the
    round trip needs.  The instance [latin1_class] is the tests on code
    points up to U+00FF (above, it answers [false]); it exhibits what
    happens to a non-ASCII letter such as "é": it is mapped into [a-z],
    even by the shift 0, and is not recovered.  On ASCII the shifts
    compose: encrypting by [s] then [t] is encrypting by [s + t]. *)

From S2P Require Import Prelude PyStr.

(** ** Character classification *)

Class CharClass := {
  isalpha : Z -> bool;
  isupper : Z -> bool;
  isdigit : Z -> bool
}.

Definition ascii_upper (c : Z) : bool := ((65 <=? c) && (c <=? 90))%Z.
Definition ascii_lower (c : Z) : bool := ((97 <=? c) && (c <=? 122))%Z.

Class CharClassLaws `{CharClass} := {
  isalpha_ascii : forall c, (0 <= c < 128)%Z -> isalpha c = ascii_upper c || ascii_lower c;
  isupper_ascii : forall c, (0 <= c < 128)%Z -> isupper c = ascii_upper c;
  isdigit_ascii : forall c, (0 <= c < 128)%Z -> isdigit c = is_digit_char c
}.

(** ** The cipher *)

Section Cipher.
Context `{CharClass}.

(** The body of the loop for one character (lines 8-14). *)
Definition caesar_char (shift c : Z) : res Z :=
  if isalpha c then
    let shift_base := if isupper c then 65%Z else 97%Z in
    py_chr ((c - shift_base + shift) mod 26 + shift_base)%Z
  else if isdigit c then
    py_chr ((c - 48 + shift) mod 10 + 48)%Z
  else py_ret c.

(** [caesar_cipher_encrypt(message, shift)] (lines 5-15). *)
Definition caesar_cipher_encrypt (message : pystr) (shift : Z) : res pystr :=
  map_res (caesar_char shift) message.

(** [caesar_cipher_decrypt(encrypted_message, shift)] (lines 17-18). *)
Definition caesar_cipher_decrypt (encrypted_message : pystr) (shift : Z) : res pystr :=
  caesar_cipher_encrypt encrypted_message (- shift).
End Cipher.

(** ** The Latin-1 part of the Unicode tests *)

Definition in_ranges (rs : list (Z * Z)) (c : Z) : bool :=
  existsb (fun r => ((r.1 <=? c) && (c <=? r.2))%Z) rs.

#[export] Instance latin1_class : CharClass := {|
  isalpha := in_ranges [(65, 90); (97, 122); (170, 170); (181, 181); (186, 186);
                        (192, 214); (216, 246); (248, 255)]%Z;
  isupper := in_ranges [(65, 90); (192, 214); (216, 222)]%Z;
  isdigit := in_ranges [(48, 57); (178, 179); (185, 185)]%Z
|}.

(** On ASCII the Latin-1 tests are the ASCII ones, checked on the 128
    code points. *)
Lemma latin1_ascii_table :
  forallb (fun n => let c := Z.of_nat n in
    Bool.eqb (isalpha c) (ascii_upper c || ascii_lower c) &&
    Bool.eqb (isupper c) (ascii_upper c) && Bool.eqb (isdigit c) (is_digit_char c))
    (seq 0 128) = true.
Proof. vm_compute. reflexivity. Qed.

#[export] Instance latin1_class_laws : CharClassLaws.
Proof.
  assert (forall c, (0 <= c < 128)%Z ->
    Bool.eqb (isalpha c) (ascii_upper c || ascii_lower c) &&
    Bool.eqb (isupper c) (ascii_upper c) && Bool.eqb (isdigit c) (is_digit_char c) = true) as T.
  { intros c Hc. pose proof latin1_ascii_table as T. rewrite forallb_forall in T.
    specialize (T (Z.to_nat c) ltac:(apply in_seq; lia)). simpl in T.
    by rewrite Z2Nat.id in T by lia. }
  split; intros c Hc; specialize (T c Hc); rewrite !andb_true_iff in T;
    destruct T as [[T1 T2] T3]; by apply Bool.eqb_prop.
Qed.

(** ** Lemmas *)

Lemma py_chr_ok (k : Z) : (0 <= k <= 1114111)%Z -> py_chr k = py_ret k.
Proof.
  intros Hk. unfold py_chr. by destruct (Z.leb_spec 0 k), (Z.leb_spec k 1114111); [|lia..].
Qed.

Section CipherLaws.
Context `{CharClassLaws}.

Lemma caesar_char_total (shift c : Z) : exists c', caesar_char shift c = py_ret c'.
Proof.
  unfold caesar_char. destruct (isalpha c); [destruct (isupper c)|destruct (isdigit c)];
    try (eexists; apply py_chr_ok; pose proof (Z.mod_pos_bound (c - 65 + shift) 26);
         pose proof (Z.mod_pos_bound (c - 97 + shift) 26);
         pose proof (Z.mod_pos_bound (c - 48 + shift) 10); lia).
  by eexists.
Qed.

Lemma caesar_encrypt_ok (message : pystr) (shift : Z) :
  exists encrypted, caesar_cipher_encrypt message shift = py_ret encrypted.
Proof.
  unfold caesar_cipher_encrypt. induction message as [|c m [enc IH]]; [by exists []|].
  destruct (caesar_char_total shift c) as [c' Hc]. exists (c' :: enc).
  cbn [map_res]. by rewrite Hc, IH.
Qed.

(** C20. Whatever the classification, the cipher never raises: every value
    it passes to [chr] is in range. *)
Theorem caesar_encrypt_total (message : pystr) (shift : Z) :
  exists encrypted, caesar_cipher_encrypt message shift = py_ret encrypted /\
                    length encrypted = length message.
Proof.
  destruct (caesar_encrypt_ok message shift) as [enc He]. exists enc.
  split; [done|]. by apply map_res_length in He.
Qed.

(** The shift inside a block [base .. base + n - 1]. *)
Definition shift_in (base n s c : Z) : Z := ((c - base + s) mod n + base)%Z.

Lemma shift_in_range (base n s c : Z) : (0 < n)%Z ->
  (base <= shift_in base n s c < base + n)%Z.
Proof. intros Hn. unfold shift_in. pose proof (Z.mod_pos_bound (c - base + s) n Hn). lia. Qed.

(** Shifting by [s] then by [t] is shifting by [s + t]. *)
Lemma shift_in_compose (base n s t c : Z) : (0 < n)%Z ->
  shift_in base n t (shift_in base n s c) = shift_in base n (s + t) c.
Proof.
  intros Hn. unfold shift_in. f_equal.
  replace ((c - base + s) mod n + base - base + t)%Z with ((c - base + s) mod n + t)%Z by lia.
  rewrite Zplus_mod_idemp_l. f_equal. lia.
Qed.

Lemma shift_in_0 (base n c : Z) : (base <= c < base + n)%Z -> shift_in base n 0 c = c.
Proof. intros Hc. unfold shift_in. rewrite Z.add_0_r, Z.mod_small by lia. lia. Qed.

Lemma caesar_char_upper (s c : Z) : (65 <= c <= 90)%Z ->
  caesar_char s c = py_ret (shift_in 65 26 s c).
Proof.
  intros Hc. unfold caesar_char.
  rewrite isalpha_ascii, isupper_ascii by lia. unfold ascii_upper.
  destruct (Z.leb_spec 65 c), (Z.leb_spec c 90); [|lia..]. simpl.
  apply py_chr_ok. pose proof (shift_in_range 65 26 s c). unfold shift_in in *. lia.
Qed.

Lemma caesar_char_lower (s c : Z) : (97 <= c <= 122)%Z ->
  caesar_char s c = py_ret (shift_in 97 26 s c).
Proof.
  intros Hc. unfold caesar_char.
  rewrite isalpha_ascii, isupper_ascii by lia. unfold ascii_upper, ascii_lower.
  destruct (Z.leb_spec 65 c), (Z.leb_spec c 90), (Z.leb_spec 97 c), (Z.leb_spec c 122);
    try lia. simpl.
  apply py_chr_ok. pose proof (shift_in_range 97 26 s c). unfold shift_in in *. lia.
Qed.

Lemma caesar_char_digit (s c : Z) : (48 <= c <= 57)%Z ->
  caesar_char s c = py_ret (shift_in 48 10 s c).
Proof.
  intros Hc. unfold caesar_char.
  rewrite isalpha_ascii, isdigit_ascii by lia. unfold ascii_upper, ascii_lower, is_digit_char.
  destruct (Z.leb_spec 65 c), (Z.leb_spec c 90), (Z.leb_spec 97 c), (Z.leb_spec c 122),
    (Z.leb_spec 48 c), (Z.leb_spec c 57); try lia. simpl.
  apply py_chr_ok. pose proof (shift_in_range 48 10 s c). unfold shift_in in *. lia.
Qed.

(** A character that is not a letter or a digit for Python, or is an
    ASCII one. *)
Definition caesar_safe (c : Z) : Prop :=
  (isalpha c || isdigit c)%bool = true -> (0 <= c < 128)%Z.

(** What [caesar_char] sees of a safe character: an ASCII capital, small
    letter or digit, or a character it keeps. *)
Lemma caesar_safe_cases (c : Z) : caesar_safe c ->
  (65 <= c <= 90)%Z \/ (97 <= c <= 122)%Z \/ (48 <= c <= 57)%Z \/
  (isalpha c = false /\ isdigit c = false).
Proof.
  intros Hsafe. destruct (isalpha c || isdigit c)%bool eqn:Hk.
  - specialize (Hsafe Hk).
    apply orb_true_iff in Hk as [Hk|Hk];
      [rewrite isalpha_ascii in Hk by done | rewrite isdigit_ascii in Hk by done];
      unfold ascii_upper, ascii_lower, is_digit_char in Hk;
      rewrite ?orb_true_iff, ?andb_true_iff, ?Z.leb_le in Hk; lia.
  - apply orb_false_iff in Hk. tauto.
Qed.

(** Encrypting a safe character by [s], then by [t], is encrypting it by
    [s + t]. *)
Lemma caesar_char_compose (s t c : Z) : caesar_safe c ->
  exists c', caesar_char s c = py_ret c' /\ caesar_char t c' = caesar_char (s + t) c.
Proof.
  intros Hsafe. destruct (caesar_safe_cases c Hsafe) as [Hc|[Hc|[Hc|[Ha Hd]]]].
  - pose proof (shift_in_range 65 26 s c). exists (shift_in 65 26 s c).
    by rewrite !caesar_char_upper, shift_in_compose by lia.
  - pose proof (shift_in_range 97 26 s c). exists (shift_in 97 26 s c).
    by rewrite !caesar_char_lower, shift_in_compose by lia.
  - pose proof (shift_in_range 48 10 s c). exists (shift_in 48 10 s c).
    by rewrite !caesar_char_digit, shift_in_compose by lia.
  - exists c. unfold caesar_char. by rewrite Ha, Hd.
Qed.

Lemma caesar_char_0 (c : Z) : caesar_safe c -> caesar_char 0 c = py_ret c.
Proof.
  intros Hsafe. destruct (caesar_safe_cases c Hsafe) as [Hc|[Hc|[Hc|[Ha Hd]]]];
    [rewrite caesar_char_upper|rewrite caesar_char_lower|rewrite caesar_char_digit|
     unfold caesar_char; by rewrite Ha, Hd]; by rewrite ?shift_in_0 by lia.
Qed.

Lemma caesar_char_roundtrip (s c : Z) : caesar_safe c ->
  exists c', caesar_char s c = py_ret c' /\ caesar_char (- s) c' = py_ret c.
Proof.
  intros Hsafe. destruct (caesar_char_compose s (- s) c Hsafe) as [c' [H1 H2]].
  exists c'. split; [done|]. by rewrite H2, Z.add_opp_diag_r, caesar_char_0.
Qed.

(** C19. Round trip: decrypting with the same shift gives the message back,
    when every character Python calls a letter or a digit is ASCII. *)
Theorem caesar_roundtrip (message : pystr) (shift : Z) :
  Forall caesar_safe message ->
  exists encrypted, caesar_cipher_encrypt message shift = py_ret encrypted /\
                    caesar_cipher_decrypt encrypted shift = py_ret message.
Proof.
  induction 1 as [|c m Hc Hm [enc [He Hd]]]; [by exists []|].
  destruct (caesar_char_roundtrip shift c Hc) as [c' [H1 H2]].
  exists (c' :: enc). unfold caesar_cipher_decrypt, caesar_cipher_encrypt in *. simpl.
  rewrite H1, He, H2. simpl. by rewrite Hd.
Qed.
(** C33. Composition of keys: on a message whose letters and digits are
    ASCII, encrypting by [s] and then by [t] is encrypting by [s + t]
    (letters modulo 26 within their case, digits modulo 10), so
    decryption by [t] undoes encryption by [t] after any other shift. *)
Theorem caesar_encrypt_compose (message : pystr) (s t : Z) :
  Forall caesar_safe message ->
  (let! e := caesar_cipher_encrypt message s in caesar_cipher_encrypt e t) =
  caesar_cipher_encrypt message (s + t).
Proof.
  unfold caesar_cipher_encrypt. induction 1 as [|c m Hc Hm IH]; [done|].
  destruct (caesar_char_compose s t c Hc) as [c' [H1 H2]].
  destruct (caesar_encrypt_ok m s) as [e He]. unfold caesar_cipher_encrypt in He.
  cbn [map_res]. rewrite H1, He. cbn [res_bind py_ret map_res]. rewrite He in IH.
  rewrite <- H2, <- IH. done.
Qed.

(** A letter or digit comes out of [caesar_char] as an ASCII capital,
    small letter or digit, whatever it was. *)
Lemma caesar_char_class_out (s c c' : Z) : (isalpha c || isdigit c)%bool = true ->
  caesar_char s c = py_ret c' -> (65 <= c' <= 90 \/ 97 <= c' <= 122 \/ 48 <= c' <= 57)%Z.
Proof.
  intros Hk. unfold caesar_char.
  pose proof (Z.mod_pos_bound (c - 65 + s) 26). pose proof (Z.mod_pos_bound (c - 97 + s) 26).
  pose proof (Z.mod_pos_bound (c - 48 + s) 10).
  destruct (isalpha c), (isupper c), (isdigit c); simpl in Hk; try discriminate;
    rewrite py_chr_ok by lia; cbv [py_ret]; intros [= <-]; lia.
Qed.

(** An ASCII capital, small letter or digit is sent to one of them. *)
Lemma caesar_char_ascii_in (t c' c : Z) : (65 <= c' <= 90 \/ 97 <= c' <= 122 \/ 48 <= c' <= 57)%Z ->
  caesar_char t c' = py_ret c -> (48 <= c <= 122)%Z.
Proof.
  intros [Hc|[Hc|Hc]];
    [rewrite caesar_char_upper by lia; pose proof (shift_in_range 65 26 t c')
    |rewrite caesar_char_lower by lia; pose proof (shift_in_range 97 26 t c')
    |rewrite caesar_char_digit by lia; pose proof (shift_in_range 48 10 t c')];
    cbv [py_ret]; intros [= <-]; lia.
Qed.

(** C21. The round trip needs ASCII: when decrypting the encryption of a
    message gives the message back, every character of it that Python
    calls a letter or a digit is ASCII.  With C19 this characterises the
    messages the cipher recovers; a non-ASCII letter or digit (such as
    "é" or "²") is sent into [a-z], [A-Z] or [0-9] and never comes back,
    whatever the shift. *)
Theorem caesar_roundtrip_needs_ascii (message encrypted : pystr) (shift : Z) :
  caesar_cipher_encrypt message shift = py_ret encrypted ->
  caesar_cipher_decrypt encrypted shift = py_ret message ->
  Forall caesar_safe message.
Proof.
  unfold caesar_cipher_decrypt, caesar_cipher_encrypt.
  revert encrypted; induction message as [|c m IH]; intros enc H1 H2; [constructor|].
  cbn [map_res] in H1. apply res_bind_inr in H1 as [c' [Hc H1]].
  apply res_bind_inr in H1 as [enc' [Hm H1]]. cbv [py_ret] in H1. injection H1 as <-.
  cbn [map_res] in H2. apply res_bind_inr in H2 as [c'' [Hd H2]].
  apply res_bind_inr in H2 as [m' [Hr H2]]. cbv [py_ret] in H2. injection H2 as -> ->.
  constructor; [|by apply (IH enc')].
  intros Hk. pose proof (caesar_char_ascii_in _ _ _ (caesar_char_class_out _ _ _ Hk Hc) Hd). lia.
Qed.

End CipherLaws.

Lemma caesar_roundtrip_witness :
  Forall caesar_safe (pystr_of "Az9!"%string) /\
  exists encrypted, caesar_cipher_encrypt (pystr_of "Az9!"%string) 3 = py_ret encrypted /\
                    caesar_cipher_decrypt encrypted 3 = py_ret (pystr_of "Az9!"%string).
Proof.
  assert (Forall caesar_safe (pystr_of "Az9!"%string)) as Hs.
  { repeat constructor; unfold caesar_safe; vm_compute; try discriminate; intros _; split; discriminate. }
  split; [done|]. by apply caesar_roundtrip.
Defined.

Lemma caesar_encrypt_total_witness :
  exists encrypted, caesar_cipher_encrypt (pystr_of "Hi, 2026"%string) 13 = py_ret encrypted /\
                    length encrypted = length (pystr_of "Hi, 2026"%string).
Proof. apply caesar_encrypt_total. Defined.

(** Python counts "é" (U+00E9) as a lower-case letter and "²" (U+00B2)
    as a digit: the cipher moves them into [a-z] and [0-9], even with the
    shift 0, and decryption leaves them there. *)
Example caesar_non_ascii_example :
  caesar_cipher_encrypt [233%Z; 178%Z] 0 = py_ret [103%Z; 48%Z] /\
  caesar_cipher_decrypt [103%Z; 48%Z] 0 = py_ret [103%Z; 48%Z].
Proof. split; vm_compute; reflexivity. Qed.

(** The round trip of C21 on "Az9!" with the shift 3. *)
Lemma caesar_roundtrip_needs_ascii_witness :
  caesar_cipher_encrypt (pystr_of "Az9!"%string) 3 = py_ret (pystr_of "Dc2!"%string) /\
  caesar_cipher_decrypt (pystr_of "Dc2!"%string) 3 = py_ret (pystr_of "Az9!"%string) /\
  Forall caesar_safe (pystr_of "Az9!"%string).
Proof.
  assert (caesar_cipher_encrypt (pystr_of "Az9!"%string) 3 = py_ret (pystr_of "Dc2!"%string)) as H1
    by (vm_compute; reflexivity).
  assert (caesar_cipher_decrypt (pystr_of "Dc2!"%string) 3 = py_ret (pystr_of "Az9!"%string)) as H2
    by (vm_compute; reflexivity).
  split; [exact H1|]. split; [exact H2|].
  exact (caesar_roundtrip_needs_ascii _ _ _ H1 H2).
Defined.

Lemma caesar_encrypt_compose_witness :
  Forall caesar_safe (pystr_of "Az9!"%string) /\
  (let! e := caesar_cipher_encrypt (pystr_of "Az9!"%string) 20 in caesar_cipher_encrypt e 17) =
  caesar_cipher_encrypt (pystr_of "Az9!"%string) (20 + 17).
Proof.
  assert (Forall caesar_safe (pystr_of "Az9!"%string)) as Hs.
  { repeat constructor; unfold caesar_safe; vm_compute; try discriminate; intros _; split; discriminate. }
  split; [exact Hs|]. by apply caesar_encrypt_compose.
Defined.
