(* ===== verification/World.v ===== *)
(** What the script asks of the file system and of PIL beyond the pixel
    buffer: opening an image file, creating directories, loading a font,
    drawing text, compositing, saving and removing a file.

    These are library calls, not code of the repository: the record
    [world] gives, for each, the answer the environment makes (a value,
    or the exception it raises).  The code's own control flow around them
    (the [try]/[except] blocks, the fallbacks, the order of the calls) is
    modelled in files Watermark and Main; what PIL computes when it draws
    text or composites is left to the world.  The overlay that
    [Image.new] creates and the conversions are computed (file Image). *)

From S2P Require Import Prelude PyStr Image.

(** The font [draw.text] uses: Arial at a size, or PIL's default. *)
Inductive font : Type :=
| ArialFont (size : Z)
| DefaultFont.

Record world : Type := mk_world {
  (* [Image.open(path)]: the image and its [format], or the exception *)
  w_open : pystr -> res (image * pystr);
  (* [os.makedirs(path, exist_ok=True)] *)
  w_makedirs : pystr -> res unit;
  (* [os.path.exists(path)] *)
  w_exists : pystr -> bool;
  (* [os.mkdir(path)] *)
  w_mkdir : pystr -> res unit;
  (* [os.path.abspath(os.path.join(folder, name))] *)
  w_abspath_join : pystr -> pystr -> pystr;
  (* [ImageFont.truetype("arial.ttf", size)] succeeds or raises *)
  w_truetype : Z -> res unit;
  (* [draw.text(position, text, fill=fill, font=font)] on an image *)
  w_draw_text : image -> Z * Z -> pystr -> list Z -> font -> res image;
  (* [Image.alpha_composite(im1, im2)] *)
  w_alpha_composite : image -> image -> res image;
  (* [image.save(path, ...)] *)
  w_save : image -> pystr -> res unit;
  (* [os.remove(path)] *)
  w_remove : pystr -> res unit
}.

(** A world where [image.save] always succeeds. *)
Definition world_saves (w : world) : Prop := forall im path, w_save w im path = py_ret tt.

(** [Image.new("RGBA", size, (255, 255, 255, 0))]: a transparent white
    layer. *)
Definition new_overlay (w h : nat) : image :=
  mk_image RGBA w h (repeat [255; 255; 255; 0]%Z (w * h)).

(** A world where every call succeeds: [image] is the only file, drawing
    and compositing return their first argument. *)
Definition quiet_world (im : image) : world :=
  mk_world (fun _ => py_ret (im, pystr_of "PNG"%string)) (fun _ => py_ret tt) (fun _ => true)
    (fun _ => py_ret tt) (fun folder name => folder ++ [47%Z] ++ name) (fun _ => py_ret tt)
    (fun layer _ _ _ _ => py_ret layer) (fun im1 _ => py_ret im1) (fun _ _ => py_ret tt)
    (fun _ => py_ret tt).
