(* ===== verification/Watermark.v ===== *)
(** [user_driven_watermarking] (src/Watermarking.py, lines 1-83).

    The function reads the watermark text, an optional position, an
    opacity and a font size, and replaces an opacity outside [0, 255] by
    128 and a non-positive font size by 30; [int()] raises [ValueError] on
    a line that is not an integer (only ASCII digits are modelled; Python
    also accepts the other Unicode decimal digits).  It then opens the
    image as RGBA, draws the text on a transparent overlay with Arial or,
    when Arial is missing, PIL's default font, composites, creates the
    output folder if needed and saves [watermarked_image.png] as RGB, all
    inside a [try] whose handler catches every [Exception].  What PIL
    draws and composites is the [world]'s answer (file World).  The
    theorems: the opacity is a byte and the font size positive
    ([watermark_settings_ranges]); only [int()] makes the function raise
    ([watermarking_errors]). *)

From S2P Require Import Prelude PyStr Image World.

(** [int(s)] for a decimal integer literal: surrounding whitespace, an
    optional sign, ASCII digits with single underscores between them
    ([prev_digit] records that the last character read was a digit). *)
Fixpoint digits_value (acc : Z) (prev_digit : bool) (s : pystr) : res Z :=
  match s with
  | [] => if prev_digit then py_ret acc else py_raise ValueError
  | c :: s' =>
      if is_digit_char c then digits_value (10 * acc + (c - 48))%Z true s'
      else if (c =? 95)%Z && prev_digit then digits_value acc false s'
      else py_raise ValueError
  end.

Definition py_int (s : pystr) : res Z :=
  match py_strip s with
  | [] => py_raise ValueError
  | c :: t =>
      if (c =? 45)%Z then let! v := digits_value 0 false t in py_ret (- v)%Z
      else if (c =? 43)%Z then digits_value 0 false t
      else digits_value 0 false (c :: t)
  end.

Record watermark_settings := mk_settings {
  wm_text : pystr;
  wm_position : Z * Z;
  wm_opacity : Z;
  wm_font_size : Z
}.

(** Lines 13-40, the six lines the user types being the inputs (the
    coordinate lines are read only after "Y"). *)
Definition read_watermark_settings (text_line position_line x_line y_line
    opacity_line size_line : pystr) : res watermark_settings :=
  let watermark_text := py_strip text_line in
  let position_choice := py_upper (py_strip position_line) in
  let! position :=
    if pystr_eqb position_choice (pystr_of "Y"%string) then
      let! x := py_int x_line in
      let! y := py_int y_line in
      py_ret (x, y)
    else py_ret (10%Z, 10%Z) in
  let! opacity := py_int opacity_line in
  let opacity := if ((0 <=? opacity) && (opacity <=? 255))%Z then opacity else 128%Z in
  let! font_size := py_int size_line in
  let font_size := if (font_size <=? 0)%Z then 30%Z else font_size in
  py_ret (mk_settings watermark_text position opacity font_size).

(** ** Drawing and saving (lines 42-83) *)

Inductive watermark_outcome : Type :=
| WatermarkSaved (output_path : pystr) (saved : image)
| WatermarkFailed (e : py_error).

(** Lines 51-57: Arial at the chosen size, or the default font when
    [truetype] raises [IOError]; another exception propagates to the
    outer handler. *)
Definition load_font (w : world) (font_size : Z) : res font :=
  py_try (let! _ := w_truetype w font_size in py_ret (ArialFont font_size))
    (fun e => match e with OSError => py_ret DefaultFont | e => py_raise e end).

(** Lines 43-77: the body of the [try] block. *)
Definition watermark_attempt (w : world) (image_path output_folder : pystr)
    (st : watermark_settings) : res (pystr * image) :=
  let! ' (opened, _) := w_open w image_path in
  let image := convert_rgba opened in
  let txt_overlay := new_overlay (im_width image) (im_height image) in
  let! font := load_font w (wm_font_size st) in
  let! txt_overlay := w_draw_text w txt_overlay (wm_position st) (wm_text st)
                        [255; 255; 255; wm_opacity st]%Z font in
  let! watermarked_image := w_alpha_composite w image txt_overlay in
  let! _ := if w_exists w output_folder then py_ret tt else w_mkdir w output_folder in
  let output_path := w_abspath_join w output_folder (pystr_of "watermarked_image.png"%string) in
  let saved := convert_rgb watermarked_image in
  let! _ := w_save w saved output_path in
  py_ret (output_path, saved).

(** Lines 42-83: the [try] block above and its [except Exception]
    handler, which prints the error and returns ([SystemExit] is not an
    [Exception] and goes through). *)
Definition draw_watermark (w : world) (image_path output_folder : pystr)
    (st : watermark_settings) : res watermark_outcome :=
  py_try (let! ' (output_path, saved) := watermark_attempt w image_path output_folder st in
          py_ret (WatermarkSaved output_path saved))
    (except_exception WatermarkFailed).

(** [user_driven_watermarking(image_path, output_folder)] (lines 1-83). *)
Definition user_driven_watermarking (w : world) (image_path output_folder : pystr)
    (text_line position_line x_line y_line opacity_line size_line : pystr) : res watermark_outcome :=
  let! st := read_watermark_settings text_line position_line x_line y_line opacity_line size_line in
  draw_watermark w image_path output_folder st.

(** A world whose calls never raise [SystemExit]. *)
Definition world_no_exit (w : world) : Prop :=
  (forall p, w_open w p <> inl SystemExit) /\ (forall s, w_truetype w s <> inl SystemExit) /\
  (forall a b c d e, w_draw_text w a b c d e <> inl SystemExit) /\
  (forall a b, w_alpha_composite w a b <> inl SystemExit) /\
  (forall p, w_mkdir w p <> inl SystemExit) /\ (forall a p, w_save w a p <> inl SystemExit).

(** C22. The opacity passed to [draw.text] is a byte and the font size passed
    to [ImageFont.truetype] is positive, whatever the user typed. *)
Theorem watermark_settings_ranges (t p x y o f : pystr) (st : watermark_settings) :
  read_watermark_settings t p x y o f = py_ret st ->
  (0 <= wm_opacity st <= 255)%Z /\ (0 < wm_font_size st)%Z.
Proof.
  unfold read_watermark_settings. intros H.
  apply res_bind_inr in H as [pos [_ H]].
  apply res_bind_inr in H as [op [_ H]].
  apply res_bind_inr in H as [fs [_ H]].
  injection H as <-. simpl. split.
  - destruct (Z.leb_spec 0 op), (Z.leb_spec op 255); simpl; lia.
  - destruct (Z.leb_spec fs 0); lia.
Qed.

Lemma read_watermark_settings_witness :
  read_watermark_settings (pystr_of "StegEM"%string) (pystr_of "n"%string) [] []
    (pystr_of " 300"%string) (pystr_of "-5"%string) =
  py_ret (mk_settings (pystr_of "StegEM"%string) (10, 10)%Z 128%Z 30%Z) /\
  (0 <= wm_opacity (mk_settings (pystr_of "StegEM"%string) (10, 10)%Z 128%Z 30%Z) <= 255)%Z /\
  (0 < wm_font_size (mk_settings (pystr_of "StegEM"%string) (10, 10)%Z 128%Z 30%Z))%Z.
Proof.
  split; [vm_compute; reflexivity|].
  apply (watermark_settings_ranges (pystr_of "StegEM"%string) (pystr_of "n"%string) [] []
    (pystr_of " 300"%string) (pystr_of "-5"%string)). vm_compute. reflexivity.
Defined.

(** ** Which exceptions escape *)

Lemma digits_value_error (acc : Z) (b : bool) (s : pystr) (e : py_error) :
  digits_value acc b s = inl e -> e = ValueError.
Proof.
  revert acc b; induction s as [|c s IH]; intros acc b; simpl; cbv [py_ret py_raise];
    [destruct b; congruence|].
  destruct (is_digit_char c); [apply IH|]. destruct (_ && b); [apply IH | congruence].
Qed.

Lemma py_int_error (s : pystr) (e : py_error) : py_int s = inl e -> e = ValueError.
Proof.
  unfold py_int. destruct (py_strip s) as [|c t]; [cbv [py_raise]; congruence|].
  destruct (c =? 45)%Z; [|destruct (c =? 43)%Z; apply digits_value_error].
  intros H. apply res_bind_inl in H as [H | (v & _ & H)]; [by apply digits_value_error in H | discriminate].
Qed.

(** [int()] is the only source of exceptions of the dialogue. *)
Lemma read_watermark_settings_error (t p x y o f : pystr) (e : py_error) :
  read_watermark_settings t p x y o f = inl e -> e = ValueError.
Proof.
  unfold read_watermark_settings. intros H.
  repeat (apply res_bind_inl in H as [H | (? & _ & H)]; [try by apply py_int_error in H|]);
    try discriminate.
  destruct (pystr_eqb _ _); [|discriminate].
  repeat (apply res_bind_inl in H as [H | (? & _ & H)]; [try by apply py_int_error in H|]);
    discriminate.
Qed.

Lemma load_font_no_exit (w : world) (s : Z) :
  (forall s, w_truetype w s <> inl SystemExit) -> load_font w s <> inl SystemExit.
Proof.
  intros Ht. unfold load_font. destruct (w_truetype w s) as [[]|] eqn:E; try discriminate.
  by destruct (Ht s).
Qed.

Lemma watermark_attempt_no_exit (w : world) (image_path output_folder : pystr)
    (st : watermark_settings) :
  world_no_exit w -> watermark_attempt w image_path output_folder st <> inl SystemExit.
Proof.
  intros (Ho & Ht & Hd & Ha & Hm & Hs). unfold watermark_attempt.
  apply res_bind_not_err; [apply Ho|]. intros [opened fmt]. cbv zeta.
  apply res_bind_not_err; [by apply load_font_no_exit|]. intros font.
  apply res_bind_not_err; [apply Hd|]. intros overlay.
  apply res_bind_not_err; [apply Ha|]. intros watermarked.
  apply res_bind_not_err; [destruct (w_exists w output_folder); [discriminate | apply Hm]|].
  intros _. apply res_bind_not_err; [apply Hs|]. intros _. discriminate.
Qed.

(** C28. The watermark action raises only when [int()] rejects one of
    the typed lines ([ValueError]); every failure of opening, drawing,
    compositing or saving is caught by the handler of line 82, in a
    world whose calls do not exit. *)
Theorem watermarking_errors (w : world) (image_path output_folder t p x y o f : pystr)
    (e : py_error) :
  world_no_exit w ->
  user_driven_watermarking w image_path output_folder t p x y o f = inl e ->
  e = ValueError /\ read_watermark_settings t p x y o f = inl ValueError.
Proof.
  intros Hw H. unfold user_driven_watermarking in H.
  apply res_bind_inl in H as [H | (st & _ & H)].
  - pose proof (read_watermark_settings_error _ _ _ _ _ _ _ H) as ->. done.
  - exfalso. unfold draw_watermark in H. apply py_try_except_inl in H as [_ H].
    apply res_bind_inl in H as [H | ([? ?] & _ & H)]; [|discriminate].
    by apply (watermark_attempt_no_exit w image_path output_folder st Hw).
Qed.

Lemma watermarking_errors_witness :
  world_no_exit (quiet_world (sample_image 1 1)) /\
  user_driven_watermarking (quiet_world (sample_image 1 1)) [] [] [] [] [] []
    (pystr_of "half"%string) (pystr_of "30"%string) = inl ValueError /\
  (ValueError = ValueError /\
   read_watermark_settings [] [] [] [] (pystr_of "half"%string) (pystr_of "30"%string) = inl ValueError).
Proof.
  assert (world_no_exit (quiet_world (sample_image 1 1))) as Hw
    by (repeat split; intros; discriminate).
  assert (user_driven_watermarking (quiet_world (sample_image 1 1)) [] [] [] [] [] []
    (pystr_of "half"%string) (pystr_of "30"%string) = inl ValueError) as H
    by (vm_compute; reflexivity).
  split; [done|]. split; [done|]. exact (watermarking_errors _ _ _ _ _ _ _ _ _ _ Hw H).
Defined.

