(* ===== verification/Main.v ===== *)
(** The top level of src/Steganography.py: the start-up (lines 17-25
    and 158-196: the image path, its format, the destination folder,
    loading the image), then one run (lines 198-244: the delimiter
    question, the action menu, the import of CaesarCipher.py and its
    module-level prompts, the watermark, and the question about deleting
    the original).

    The script reads every answer with [input()], and each prompt is
    asked at most once in a run; a run is therefore a function of the
    records [startup_answers] and [answers], one field per prompt, the
    fields of the prompts it does not reach being ignored.  The file
    system and PIL answer through the [world] of file World.  An
    exception that escapes (the [ValueError] of [int()], the
    [SystemExit] of [exit()]) ends the script and is returned as [inl].
    The saved image is the [image] the embedding returns, and a second
    run on it stands for running the script again on the saved PNG (a
    lossless format).

    The theorems are about runs of the program: two runs, one embedding
    and one retrieving, give the message back ([stegem_roundtrip]); the
    concrete scenarios that lose the message; the crash caused by the
    random fallback delimiter; the menu that says "Exiting." and goes on;
    the module-level prompts of CaesarCipher.py; when the start-up
    reaches the menu; the deletion question, whose [os.remove] runs in a
    [try] block that catches and prints its failure. *)

From S2P Require Import Prelude PyStr Bitstream Channel Image Embed Retrieve Delimiter Codec Caesar World Watermark.

(** ** The model *)

(** The answers typed at the prompts of one run. *)
Record answers : Type := mk_answers {
  ans_delimiter_choice : pystr;  (* Steganography.py line 39 *)
  ans_custom_delimiter : pystr;  (* line 42 *)
  ans_action : pystr;            (* line 202 *)
  ans_message : pystr;           (* line 63 *)
  ans_confirmation : pystr;      (* line 67 *)
  ans_wm_text : pystr;           (* Watermarking.py line 14 *)
  ans_wm_position : pystr;       (* line 18 *)
  ans_wm_x : pystr;              (* line 20 *)
  ans_wm_y : pystr;              (* line 21 *)
  ans_wm_opacity : pystr;        (* line 29 *)
  ans_wm_size : pystr;           (* line 36 *)
  ans_import_message : pystr;    (* CaesarCipher.py line 2 *)
  ans_import_shift : pystr;      (* CaesarCipher.py line 3 *)
  ans_cipher_action : pystr;     (* Steganography.py line 214 *)
  ans_cipher_text : pystr;       (* lines 216 and 221 *)
  ans_cipher_shift : pystr;      (* lines 217 and 222 *)
  ans_delete : pystr             (* line 232 *)
}.

Inductive cipher_result : Type :=
| CipherEncrypted (encrypted_message : pystr)
| CipherDecrypted (decrypted_message : pystr)
| CipherInvalid.

(** What the chosen action did: the embedding's outcome (aborted or
    saved), the retrieval's, the watermark's (saved or failed and caught),
    the two texts the import of CaesarCipher.py printed and the menu's
    result, or the invalid option. *)
Inductive action_result : Type :=
| ActEmbed (o : embed_outcome)
| ActRetrieve (o : retrieve_outcome)
| ActWatermark (o : watermark_outcome)
| ActCipher (import_encrypted import_decrypted : pystr) (c : cipher_result)
| ActInvalid.

(** What a run needs of the start-up: the world, the path of the
    original image and the destination folder (lines 171-187). *)
Record session : Type := mk_session {
  ses_world : world;
  ses_image_path : pystr;
  ses_destination : pystr
}.

(** What the deletion question printed: the file was removed, [os.remove]
    raised [e] and the handler printed it, the file is kept, or the
    answer was invalid. *)
Inductive delete_outcome : Type :=
| OriginalDeleted
| DeleteFailed (e : py_error)
| OriginalKept
| DeleteInvalid.

(** [delete_original_image(path_to_original_image)] (lines 231-242):
    [os.remove] inside a [try] whose handler catches every [Exception]. *)
Definition delete_original_image (w : world) (path_to_original_image permission_line : pystr)
    : res delete_outcome :=
  let permission_delete_original := py_upper (py_strip permission_line) in
  if pystr_eqb permission_delete_original (pystr_of "Y"%string) then
    py_try (let! _ := w_remove w path_to_original_image in py_ret OriginalDeleted)
      (except_exception DeleteFailed)
  else if pystr_eqb permission_delete_original (pystr_of "N"%string) then py_ret OriginalKept
  else py_ret DeleteInvalid.

(** The prompts at the top of CaesarCipher.py (lines 1-3):
    [shift = int(input(...))]. *)
Definition caesar_module_inputs (message_line shift_line : pystr) : res (pystr * Z) :=
  let! shift := py_int shift_line in
  py_ret (message_line, shift).

(** The module-level code of CaesarCipher.py (lines 1-3, then 20-26), run
    by the import of Steganography.py line 213. *)
Definition caesar_module (message_line shift_line : pystr) : res (pystr * pystr) :=
  let! '(original_message, shift) := caesar_module_inputs message_line shift_line in
  let! encrypted_message := caesar_cipher_encrypt original_message shift in
  let! decrypted_message := caesar_cipher_decrypt encrypted_message shift in
  py_ret (encrypted_message, decrypted_message).

(** The cipher menu (lines 214-226). *)
Definition cipher_menu (a : answers) : res cipher_result :=
  let cipher_action := py_upper (py_strip (ans_cipher_action a)) in
  if pystr_eqb cipher_action (pystr_of "E"%string) then
    let! shift := py_int (ans_cipher_shift a) in
    let! encrypted_message := caesar_cipher_encrypt (ans_cipher_text a) shift in
    py_ret (CipherEncrypted encrypted_message)
  else if pystr_eqb cipher_action (pystr_of "D"%string) then
    let! shift := py_int (ans_cipher_shift a) in
    let! decrypted_message := caesar_cipher_decrypt (ans_cipher_text a) shift in
    py_ret (CipherDecrypted decrypted_message)
  else py_ret CipherInvalid.

(** Lines 109-112 of [embed_message]: [image.save] at
    [os.path.join(path_to_destination_folder, "embedded_image.png")],
    outside any [try]. *)
Definition save_embedded_image (ses : session) (im : image) : res pystr :=
  let output_path := py_path_join (ses_destination ses) (pystr_of "embedded_image.png"%string) in
  let! _ := w_save (ses_world ses) im output_path in
  py_ret output_path.

(** The action menu (lines 201-228), with the delimiter of step 3. *)
Definition stegem_action (ses : session) (a : answers) (delimiter : pystr) (im : image) : res action_result :=
  let action := py_upper (py_strip (ans_action a)) in
  if pystr_eqb action (pystr_of "E"%string) then
    match embed_message im delimiter (ans_message a) (ans_confirmation a) with
    | EmbedCrashed e => py_raise e
    | EmbedSaved warned im' =>
        let! _ := save_embedded_image ses im' in py_ret (ActEmbed (EmbedSaved warned im'))
    | o => py_ret (ActEmbed o)
    end
  else if pystr_eqb action (pystr_of "R"%string) then
    match retrieve_message im delimiter with
    | RetrieveCrashed e => py_raise e
    | o => py_ret (ActRetrieve o)
    end
  else if pystr_eqb action (pystr_of "W"%string) then
    let! o := user_driven_watermarking (ses_world ses) (ses_image_path ses) (ses_destination ses)
                (ans_wm_text a) (ans_wm_position a) (ans_wm_x a)
                (ans_wm_y a) (ans_wm_opacity a) (ans_wm_size a) in
    py_ret (ActWatermark o)
  else if pystr_eqb action (pystr_of "C"%string) then
    let! ' (encrypted_message, decrypted_message) :=
      caesar_module (ans_import_message a) (ans_import_shift a) in
    let! c := cipher_menu a in
    py_ret (ActCipher encrypted_message decrypted_message c)
  else py_ret ActInvalid.

(** Lines 198-228: the delimiter, then the action. *)
Definition stegem_menu (ses : session) (a : answers) (r : rng) (im : image) : res action_result :=
  let delimiter := get_delimiter (ans_delimiter_choice a) (ans_custom_delimiter a) r in
  stegem_action ses a delimiter im.

(** Lines 198-244: the delimiter and the action, then the deletion
    question (line 244). *)
Definition stegem_run (ses : session) (a : answers) (r : rng) (im : image) : res (action_result * delete_outcome) :=
  let! result := stegem_menu ses a r im in
  let! deleted := delete_original_image (ses_world ses) (ses_image_path ses) (ans_delete a) in
  py_ret (result, deleted).

(** ** Start-up (lines 17-25 and 158-196) *)

(** [create_directory(path)] (lines 17-25): [exit()] when
    [os.makedirs] raises. *)
Definition create_directory (w : world) (path : pystr) : res pystr :=
  py_try (let! _ := w_makedirs w path in py_ret path) (fun _ => py_raise SystemExit).

(** [validate_image_format(image_path)] (lines 158-167): whether the
    lossy-format warning is printed; [exit()] when the file does not
    open. *)
Definition validate_image_format (w : world) (image_path : pystr) : res bool :=
  py_try (let! ' (_, format) := w_open w image_path in
          py_ret (negb (existsb (pystr_eqb format) [pystr_of "PNG"%string; pystr_of "BMP"%string])))
    (fun _ => py_raise SystemExit).

(** The answers to the three start-up prompts. *)
Record startup_answers : Type := mk_startup {
  ans_image_path : pystr;        (* line 171 *)
  ans_has_destination : pystr;   (* line 177 *)
  ans_destination_path : pystr   (* line 180 *)
}.

(** Lines 170-196: the image path, the destination folder, loading the
    image. *)
Definition stegem_startup (w : world) (s : startup_answers) : res (session * image) :=
  let path_to_original_image := ans_image_path s in
  let! _ := validate_image_format w path_to_original_image in
  let ask_path_to_destination_folder := py_capitalize (py_strip (ans_has_destination s)) in
  let! path_to_destination_folder :=
    if pystr_eqb ask_path_to_destination_folder (pystr_of "Y"%string) then
      let path := py_strip (ans_destination_path s) in
      let! _ := create_directory w path in
      py_ret path
    else if pystr_eqb ask_path_to_destination_folder (pystr_of "N"%string) then
      create_directory w (pystr_of "Modified_Images_StegEM"%string)
    else py_raise SystemExit in
  py_try (let! ' (image, _) := w_open w path_to_original_image in
          py_ret (mk_session w path_to_original_image path_to_destination_folder, image))
    (fun _ => py_raise SystemExit).

(** The whole script: start-up, then one run. *)
Definition stegem_script (w : world) (s : startup_answers) (a : answers) (r : rng)
    : res (action_result * delete_outcome) :=
  let! ' (ses, image) := stegem_startup w s in
  stegem_run ses a r image.

(** ** How a run unfolds *)

(** Evaluates the comparisons of two literals left by a rewrite. *)
Ltac lit_eqb :=
  repeat match goal with
  | |- context [pystr_eqb (pystr_of ?s) (pystr_of ?t)] =>
      let b := eval vm_compute in (pystr_eqb (pystr_of s) (pystr_of t)) in
      change (pystr_eqb (pystr_of s) (pystr_of t)) with b; cbv iota beta
  end.

Lemma stegem_action_embed (ses : session) (a : answers) (d : pystr) (im : image) :
  py_upper (py_strip (ans_action a)) = pystr_of "E"%string ->
  stegem_action ses a d im =
  match embed_message im d (ans_message a) (ans_confirmation a) with
  | EmbedCrashed e => py_raise e
  | EmbedSaved warned im' =>
      let! _ := save_embedded_image ses im' in py_ret (ActEmbed (EmbedSaved warned im'))
  | o => py_ret (ActEmbed o)
  end.
Proof. intros Ha. unfold stegem_action. rewrite Ha. by lit_eqb. Qed.

Lemma stegem_action_retrieve (ses : session) (a : answers) (d : pystr) (im : image) :
  py_upper (py_strip (ans_action a)) = pystr_of "R"%string ->
  stegem_action ses a d im =
  match retrieve_message im d with
  | RetrieveCrashed e => py_raise e
  | o => py_ret (ActRetrieve o)
  end.
Proof. intros Ha. unfold stegem_action. rewrite Ha. by lit_eqb. Qed.

(** Two runs of the script: the first embeds into [im] and saves the
    result without warning; the second, on the saved image, retrieves
    and prints [X].  Both are observed when they reach the deletion
    question, after which the saved image and the printed message no
    longer change. *)
Definition two_runs (ses1 ses2 : session) (a1 a2 : answers) (r1 r2 : rng) (im : image) (X : retrieve_outcome) : Prop :=
  match stegem_menu ses1 a1 r1 im with
  | inr (ActEmbed (EmbedSaved warned im')) =>
      warned = false /\ stegem_menu ses2 a2 r2 im' = py_ret (ActRetrieve X)
  | _ => False
  end.

Lemma two_runs_intro (ses1 ses2 : session) (a1 a2 : answers) (r1 r2 : rng) (im : image) (X : retrieve_outcome) :
  let d := get_delimiter (ans_delimiter_choice a1) (ans_custom_delimiter a1) r1 in
  world_saves (ses_world ses1) ->
  py_upper (py_strip (ans_action a1)) = pystr_of "E"%string ->
  py_upper (py_strip (ans_action a2)) = pystr_of "R"%string ->
  get_delimiter (ans_delimiter_choice a2) (ans_custom_delimiter a2) r2 = d ->
  (forall e, X <> RetrieveCrashed e) ->
  match embed_message im d (ans_message a1) (ans_confirmation a1) with
  | EmbedSaved warned im' => warned = false /\ retrieve_message im' d = X
  | _ => False
  end ->
  two_runs ses1 ses2 a1 a2 r1 r2 im X.
Proof.
  intros d Hs H1 H2 Hd HX H. unfold two_runs, stegem_menu. rewrite stegem_action_embed by done.
  fold d. destruct (embed_message _ _ _ _) as [|w im'|e]; try done.
  destruct H as [-> Hr]. unfold save_embedded_image. rewrite Hs. split; [done|].
  rewrite stegem_action_retrieve, Hd, Hr by done.
  destruct X as [m| |e]; [done | done | by destruct (HX e)].
Qed.

(** Both runs answered "N" to the delimiter question. *)
Lemma two_runs_default (ses1 ses2 : session) (a1 a2 : answers) (r1 r2 : rng) (im : image) (X : retrieve_outcome) :
  world_saves (ses_world ses1) ->
  py_upper (py_strip (ans_delimiter_choice a1)) = pystr_of "N"%string ->
  py_upper (py_strip (ans_delimiter_choice a2)) = pystr_of "N"%string ->
  py_upper (py_strip (ans_action a1)) = pystr_of "E"%string ->
  py_upper (py_strip (ans_action a2)) = pystr_of "R"%string ->
  (forall e, X <> RetrieveCrashed e) ->
  match embed_message im default_delimiter (ans_message a1) (ans_confirmation a1) with
  | EmbedSaved warned im' => warned = false /\ retrieve_message im' default_delimiter = X
  | _ => False
  end ->
  two_runs ses1 ses2 a1 a2 r1 r2 im X.
Proof.
  intros Hs Hn1 Hn2 H1 H2 HX H. apply two_runs_intro; [done | done | done | | done |].
  - by rewrite !get_delimiter_no.
  - by rewrite get_delimiter_no.
Qed.

(** ** Runs of the program *)

(** C1. Round trip through the program: a run that embeds a
    one-byte-per-character message, then a run on the saved image that
    retrieves with the same delimiter, give the message back, with no
    warning; the delimiter, as [get_delimiter] returns it, must be a
    string of bits whose first occurrence in the bit string is right
    after the message, and both must fit in the 3 * w * h channels;
    [image.save] must succeed. *)
Theorem stegem_roundtrip (ses1 ses2 : session) (a1 a2 : answers) (r1 r2 : rng) (im : image) :
  let d := get_delimiter (ans_delimiter_choice a1) (ans_custom_delimiter a1) r1 in
  world_saves (ses_world ses1) ->
  image_wf im ->
  py_upper (py_strip (ans_action a1)) = pystr_of "E"%string ->
  py_upper (py_strip (ans_action a2)) = pystr_of "R"%string ->
  get_delimiter (ans_delimiter_choice a2) (ans_custom_delimiter a2) r2 = d ->
  latin1 (ans_message a1) -> binary d ->
  find_index d (binary_message (ans_message a1) d) = Some (length (encode_message (ans_message a1))) ->
  8 * length (ans_message a1) + length d <= 3 * (im_width im * im_height im) ->
  two_runs ses1 ses2 a1 a2 r1 r2 im (Retrieved (ans_message a1)).
Proof.
  intros d Hs Hwf H1 H2 Hd Hm Hb Hfirst Hfit. apply two_runs_intro; [done | done | done | done | done |].
  apply codec_roundtrip; try done.
  intros Hnil. pose proof (get_delimiter_length (ans_delimiter_choice a1) (ans_custom_delimiter a1) r1) as Hl.
  unfold d in Hnil. rewrite Hnil in Hl. simpl in Hl. lia.
Qed.

(** The answers of an embedding run and of a retrieving run, the other
    prompts being left empty. *)
Definition run_answers (choice action message : pystr) : answers :=
  mk_answers choice [] action message [] [] [] [] [] [] [] [] [] [] [] [] [].

(** A session in a world where every call succeeds. *)
Definition quiet_session : session := mk_session (quiet_world (sample_image 1 1)) [] [].

Lemma stegem_roundtrip_witness :
  image_wf (sample_image 4 4) /\
  two_runs quiet_session quiet_session (run_answers (pystr_of "N"%string) (pystr_of "e"%string) (pystr_of "A"%string))
           (run_answers (pystr_of "N"%string) (pystr_of " r"%string) [])
           letter_rng letter_rng (sample_image 4 4) (Retrieved (pystr_of "A"%string)).
Proof.
  assert (image_wf (sample_image 4 4)) as Hwf
    by (apply (bool_decide_unpack _); vm_compute; reflexivity).
  split; [done|].
  apply (stegem_roundtrip quiet_session quiet_session (run_answers (pystr_of "N"%string) (pystr_of "e"%string) (pystr_of "A"%string))
           (run_answers (pystr_of "N"%string) (pystr_of " r"%string) []) letter_rng letter_rng
           (sample_image 4 4));
    [intros ? ?; reflexivity | done | vm_compute; reflexivity | vm_compute; reflexivity | vm_compute; reflexivity
    | apply (bool_decide_unpack _); vm_compute; reflexivity
    | apply (bool_decide_unpack _); vm_compute; reflexivity
    | vm_compute; reflexivity | vm_compute; lia].
Defined.

(** ** Where the message is lost *)

(** C11. The scenario of the specification (section 8) through the menu:
    on a 2 x 2 image, "E" with the message "A" and the delimiter "0000"
    saves an image without warning, and "R" with the same delimiter on it
    prints [chr(1)], not "A": "0000" first occurs at index 2 of the bits
    [01000001] of "A" (when [image.save] succeeds). *)
Theorem spec_scenario_2x2 (ses1 ses2 : session) (a1 a2 : answers) (im : image) :
  world_saves (ses_world ses1) ->
  image_wf im -> im_width im = 2 -> im_height im = 2 ->
  py_upper (py_strip (ans_action a1)) = pystr_of "E"%string ->
  py_upper (py_strip (ans_action a2)) = pystr_of "R"%string ->
  ans_message a1 = pystr_of "A"%string ->
  match stegem_action ses1 a1 (pystr_of "0000"%string) im with
  | inr (ActEmbed (EmbedSaved warned im')) =>
      warned = false /\
      stegem_action ses2 a2 (pystr_of "0000"%string) im' = py_ret (ActRetrieve (Retrieved [1%Z]))
  | _ => False
  end.
Proof.
  intros Hs Hwf Hw Hh H1 H2 Hm. rewrite stegem_action_embed, Hm by done.
  pose proof (codec_spec_scenario im (ans_confirmation a1) Hwf Hw Hh) as H.
  destruct (embed_message _ _ _ _) as [|w im'|e]; try done.
  destruct H as [-> Hr]. unfold save_embedded_image. rewrite Hs. split; [done|]. by rewrite stegem_action_retrieve, Hr.
Qed.

Lemma spec_scenario_2x2_witness :
  match stegem_action quiet_session (run_answers [] (pystr_of "E"%string) (pystr_of "A"%string))
          (pystr_of "0000"%string) (sample_image 2 2) with
  | inr (ActEmbed (EmbedSaved warned im')) =>
      warned = false /\
      stegem_action quiet_session (run_answers [] (pystr_of "R"%string) []) (pystr_of "0000"%string) im' =
      py_ret (ActRetrieve (Retrieved [1%Z]))
  | _ => False
  end.
Proof.
  apply spec_scenario_2x2;
    [intros ? ?; reflexivity | apply (bool_decide_unpack _); vm_compute; reflexivity | reflexivity | reflexivity
    | vm_compute; reflexivity | vm_compute; reflexivity | reflexivity].
Defined.

(** C12. The capacity check forgets the delimiter: with the default
    delimiter ("N" in both runs), "A" passes the check of a 2 x 2 image
    without warning (capacity 1), but its 40 bits with the delimiter are
    cut at 12 and the second run finds no message (when [image.save]
    succeeds). *)
Theorem capacity_ignores_delimiter (ses1 ses2 : session) (a1 a2 : answers) (r1 r2 : rng) (im : image) :
  world_saves (ses_world ses1) ->
  image_wf im -> im_width im = 2 -> im_height im = 2 ->
  py_upper (py_strip (ans_delimiter_choice a1)) = pystr_of "N"%string ->
  py_upper (py_strip (ans_delimiter_choice a2)) = pystr_of "N"%string ->
  py_upper (py_strip (ans_action a1)) = pystr_of "E"%string ->
  py_upper (py_strip (ans_action a2)) = pystr_of "R"%string ->
  ans_message a1 = pystr_of "A"%string ->
  length (ans_message a1) <= calculate_max_message_size im /\ two_runs ses1 ses2 a1 a2 r1 r2 im NoMessage.
Proof.
  intros Hs Hwf Hw Hh Hn1 Hn2 H1 H2 Hm.
  destruct (codec_capacity_ignores_delimiter im (ans_confirmation a1) Hwf Hw Hh) as [Hc H].
  rewrite Hm. split; [done|]. apply two_runs_default; try done. by rewrite Hm.
Qed.

Lemma capacity_ignores_delimiter_witness :
  length (pystr_of "A"%string) <= calculate_max_message_size (sample_image 2 2) /\
  two_runs quiet_session quiet_session (run_answers (pystr_of "N"%string) (pystr_of "E"%string) (pystr_of "A"%string))
           (run_answers (pystr_of "N"%string) (pystr_of "R"%string) [])
           letter_rng letter_rng (sample_image 2 2) NoMessage.
Proof.
  apply (capacity_ignores_delimiter quiet_session quiet_session
           (run_answers (pystr_of "N"%string) (pystr_of "E"%string) (pystr_of "A"%string))
           (run_answers (pystr_of "N"%string) (pystr_of "R"%string) []) letter_rng letter_rng);
    [intros ? ?; reflexivity | apply (bool_decide_unpack _); vm_compute; reflexivity | reflexivity | reflexivity
    | vm_compute; reflexivity .. | reflexivity].
Defined.

(** C13. The default delimiter inside the message: "\x0f\x0f\x0f\x0f"
    encodes to [00001111] four times, which is the default delimiter; on
    any image with room for the 64 bits, the second run stops there and
    prints the empty message (when [image.save] succeeds). *)
Theorem default_delimiter_collision (ses1 ses2 : session) (a1 a2 : answers) (r1 r2 : rng) (im : image) :
  world_saves (ses_world ses1) ->
  image_wf im -> 64 <= 3 * (im_width im * im_height im) ->
  py_upper (py_strip (ans_delimiter_choice a1)) = pystr_of "N"%string ->
  py_upper (py_strip (ans_delimiter_choice a2)) = pystr_of "N"%string ->
  py_upper (py_strip (ans_action a1)) = pystr_of "E"%string ->
  py_upper (py_strip (ans_action a2)) = pystr_of "R"%string ->
  ans_message a1 = [15%Z; 15%Z; 15%Z; 15%Z] ->
  two_runs ses1 ses2 a1 a2 r1 r2 im (Retrieved []).
Proof.
  intros Hs Hwf Hroom Hn1 Hn2 H1 H2 Hm. apply two_runs_default; try done.
  rewrite Hm. by apply codec_default_collision.
Qed.

Lemma default_delimiter_collision_witness :
  two_runs quiet_session quiet_session (run_answers (pystr_of "N"%string) (pystr_of "E"%string) [15%Z; 15%Z; 15%Z; 15%Z])
           (run_answers (pystr_of "N"%string) (pystr_of "R"%string) [])
           letter_rng letter_rng (sample_image 5 5) (Retrieved []).
Proof.
  apply default_delimiter_collision;
    [intros ? ?; reflexivity | apply (bool_decide_unpack _); vm_compute; reflexivity | simpl; lia
    | vm_compute; reflexivity .. | reflexivity].
Defined.

(** C14. A character above U+00FF: [format(256, '08b')] has nine digits,
    the decoder cuts [100000000] into [10000000] and [0], and the short
    last slice becomes a character too: "Ā" comes back as "\x80\x00" on
    every image with room for its 41 bits (when [image.save] succeeds). *)
Theorem wide_character_split (ses1 ses2 : session) (a1 a2 : answers) (r1 r2 : rng) (im : image) :
  world_saves (ses_world ses1) ->
  image_wf im -> 41 <= 3 * (im_width im * im_height im) ->
  py_upper (py_strip (ans_delimiter_choice a1)) = pystr_of "N"%string ->
  py_upper (py_strip (ans_delimiter_choice a2)) = pystr_of "N"%string ->
  py_upper (py_strip (ans_action a1)) = pystr_of "E"%string ->
  py_upper (py_strip (ans_action a2)) = pystr_of "R"%string ->
  ans_message a1 = [256%Z] ->
  two_runs ses1 ses2 a1 a2 r1 r2 im (Retrieved [128%Z; 0%Z]).
Proof.
  intros Hs Hwf Hroom Hn1 Hn2 H1 H2 Hm. apply two_runs_default; try done.
  rewrite Hm. by apply codec_wide_character.
Qed.

Lemma wide_character_split_witness :
  two_runs quiet_session quiet_session (run_answers (pystr_of "N"%string) (pystr_of "E"%string) [256%Z])
           (run_answers (pystr_of "N"%string) (pystr_of "R"%string) [])
           letter_rng letter_rng (sample_image 4 4) (Retrieved [128%Z; 0%Z]).
Proof.
  apply wide_character_split;
    [intros ? ?; reflexivity | apply (bool_decide_unpack _); vm_compute; reflexivity | simpl; lia
    | vm_compute; reflexivity .. | reflexivity].
Defined.

(** C15. An answer other than "Y" and "N" to the delimiter question gives
    the random delimiter; unless its first character is a digit (10
    chances in 94), embedding any one-byte-per-character message that
    leaves room for that character ends the run with the [ValueError] of
    [int()]. *)
Theorem random_delimiter_crash (ses : session) (a : answers) (r : rng) (im : image) :
  image_wf im ->
  py_upper (py_strip (ans_delimiter_choice a)) <> pystr_of "Y"%string ->
  py_upper (py_strip (ans_delimiter_choice a)) <> pystr_of "N"%string ->
  py_upper (py_strip (ans_action a)) = pystr_of "E"%string ->
  latin1 (ans_message a) -> 8 * length (ans_message a) < 3 * (im_width im * im_height im) ->
  (draw r 0 < 52 \/ 61 < draw r 0) ->
  stegem_run ses a r im = py_raise ValueError.
Proof.
  intros Hwf Hy Hn H1 Hm Hroom Hdraw.
  unfold stegem_run, stegem_menu. rewrite stegem_action_embed, get_delimiter_other by done.
  by rewrite embed_random_delimiter_crash.
Qed.

Lemma random_delimiter_crash_witness :
  stegem_run quiet_session (run_answers (pystr_of "x"%string) (pystr_of "E"%string) (pystr_of "Hi"%string))
    letter_rng (sample_image 4 4) = py_raise ValueError.
Proof.
  apply random_delimiter_crash;
    [apply (bool_decide_unpack _); vm_compute; reflexivity
    | vm_compute; discriminate | vm_compute; discriminate | vm_compute; reflexivity
    | apply (bool_decide_unpack _); vm_compute; reflexivity | simpl; lia | simpl; lia].
Defined.

(** ** The menu *)

(** C23. For an answer other than "E", "R", "W" and "C" the menu prints
    "Invalid option selected. Exiting." but does not exit: the run goes on
    to the question about deleting the original image. *)
Theorem invalid_action_continues (ses : session) (a : answers) (r : rng) (im : image) :
  Forall (fun c => py_upper (py_strip (ans_action a)) <> pystr_of c) ["E"; "R"; "W"; "C"]%string ->
  stegem_run ses a r im =
  res_map (fun deleted => (ActInvalid, deleted))
    (delete_original_image (ses_world ses) (ses_image_path ses) (ans_delete a)).
Proof.
  intros H. repeat apply Forall_cons in H as [? H].
  unfold stegem_run, stegem_menu, stegem_action, pystr_eqb. by rewrite !bool_decide_eq_false_2.
Qed.

Lemma invalid_action_continues_witness :
  Forall (fun c => py_upper (py_strip (pystr_of "q"%string)) <> pystr_of c) ["E"; "R"; "W"; "C"]%string /\
  stegem_run quiet_session (mk_answers [] [] (pystr_of "q"%string) [] [] [] [] [] [] [] [] [] [] [] [] [] (pystr_of "y"%string))
    letter_rng (sample_image 1 1) = py_ret (ActInvalid, OriginalDeleted).
Proof.
  assert (Forall (fun c => py_upper (py_strip (pystr_of "q"%string)) <> pystr_of c) ["E"; "R"; "W"; "C"]%string)
    as Hq by (repeat constructor; vm_compute; discriminate).
  split; [done|]. rewrite invalid_action_continues by done. vm_compute. reflexivity.
Defined.

(** C34. The deletion question: after an action that completes, the run
    always ends normally unless [os.remove] raises [SystemExit]; it calls
    [os.remove] on the original exactly when the stripped, upper-cased
    answer is "Y" (reporting the file deleted or the error it raised),
    and reports the original deleted exactly when that answer is "Y" and
    [os.remove] succeeded: a failing removal is caught and printed. *)
Theorem deletion_question (ses : session) (a : answers) (r : rng) (im : image)
    (result : action_result) :
  stegem_menu ses a r im = py_ret result ->
  w_remove (ses_world ses) (ses_image_path ses) <> inl SystemExit ->
  exists deleted, stegem_run ses a r im = py_ret (result, deleted) /\
    ((deleted = OriginalDeleted \/ exists e, deleted = DeleteFailed e) <->
      py_upper (py_strip (ans_delete a)) = pystr_of "Y"%string) /\
    (deleted = OriginalDeleted <->
      py_upper (py_strip (ans_delete a)) = pystr_of "Y"%string /\
      w_remove (ses_world ses) (ses_image_path ses) = py_ret tt).
Proof.
  intros Hm Hx. unfold stegem_run. rewrite Hm. cbn [res_bind py_ret].
  unfold delete_original_image, pystr_eqb. case_bool_decide as HY.
  - destruct (w_remove (ses_world ses) (ses_image_path ses)) as [e|[]] eqn:Hr;
      [destruct e; try by destruct Hx|]; eexists; (split; [reflexivity|]);
      cbv [py_ret]; naive_solver.
  - case_bool_decide as HN; eexists; (split; [reflexivity|]); naive_solver.
Qed.

Lemma deletion_question_witness :
  stegem_menu quiet_session (mk_answers [] [] (pystr_of "q"%string) [] [] [] [] [] [] [] [] [] [] [] [] []
    (pystr_of " y"%string)) letter_rng (sample_image 1 1) = py_ret ActInvalid /\
  w_remove (ses_world quiet_session) (ses_image_path quiet_session) <> inl SystemExit /\
  exists deleted, stegem_run quiet_session (mk_answers [] [] (pystr_of "q"%string) [] [] [] [] [] [] [] [] [] [] [] [] []
    (pystr_of " y"%string)) letter_rng (sample_image 1 1) = py_ret (ActInvalid, deleted) /\
    ((deleted = OriginalDeleted \/ exists e, deleted = DeleteFailed e) <->
      py_upper (py_strip (pystr_of " y"%string)) = pystr_of "Y"%string) /\
    (deleted = OriginalDeleted <->
      py_upper (py_strip (pystr_of " y"%string)) = pystr_of "Y"%string /\
      w_remove (ses_world quiet_session) (ses_image_path quiet_session) = py_ret tt).
Proof.
  assert (stegem_menu quiet_session (mk_answers [] [] (pystr_of "q"%string) [] [] [] [] [] [] [] [] [] [] [] [] []
    (pystr_of " y"%string)) letter_rng (sample_image 1 1) = py_ret ActInvalid) as Hm
    by (vm_compute; reflexivity).
  assert (w_remove (ses_world quiet_session) (ses_image_path quiet_session) <> inl SystemExit) as Hx
    by (vm_compute; discriminate).
  split; [exact Hm|]. split; [exact Hx|]. exact (deletion_question _ _ _ _ _ Hm Hx).
Defined.

(** C24. "C" imports CaesarCipher.py, whose module-level code first asks
    for a message and a shift of its own: a shift that is not an integer
    ends the run with [ValueError] before the cipher menu is shown,
    whatever is answered to the menu. *)
Theorem caesar_import_prompts (ses : session) (a : answers) (r : rng) (im : image) :
  py_upper (py_strip (ans_action a)) = pystr_of "C"%string ->
  py_int (ans_import_shift a) = py_raise ValueError ->
  stegem_run ses a r im = py_raise ValueError.
Proof.
  intros Ha Hs. unfold stegem_run, stegem_menu, stegem_action. rewrite Ha. lit_eqb.
  unfold caesar_module, caesar_module_inputs. by rewrite Hs.
Qed.

Lemma caesar_import_prompts_witness :
  stegem_run quiet_session (mk_answers [] [] (pystr_of "c"%string) [] [] [] [] [] [] [] [] [] (pystr_of "three"%string)
                (pystr_of "E"%string) (pystr_of "abc"%string) (pystr_of "3"%string) [])
    letter_rng (sample_image 1 1) = py_raise ValueError.
Proof. apply caesar_import_prompts; vm_compute; reflexivity. Defined.

(** ** Start-up *)

(** C29. The start-up reaches the menu exactly when the image file opens
    and the destination answer, stripped and capitalised, is "Y" with a
    folder [os.makedirs] can create, or "N" with the folder
    [Modified_Images_StegEM] creatable; in every other case the script
    ends with [SystemExit], and nothing else escapes. *)
Theorem startup_outcome (w : world) (s : startup_answers) :
  (forall e, stegem_startup w s = inl e -> e = SystemExit) /\
  ((exists ses im, stegem_startup w s = py_ret (ses, im)) <->
   (exists im format, w_open w (ans_image_path s) = py_ret (im, format)) /\
   ((py_capitalize (py_strip (ans_has_destination s)) = pystr_of "Y"%string /\
     exists u, w_makedirs w (py_strip (ans_destination_path s)) = py_ret u) \/
    (py_capitalize (py_strip (ans_has_destination s)) = pystr_of "N"%string /\
     exists u, w_makedirs w (pystr_of "Modified_Images_StegEM"%string) = py_ret u))).
Proof.
  unfold stegem_startup, validate_image_format, create_directory, pystr_eqb.
  assert (pystr_of "Y"%string <> pystr_of "N"%string) as HYN by discriminate.
  destruct (w_open w (ans_image_path s)) as [e|[im fmt]] eqn:Ho; simpl.
  { split; [by intros ? [= <-]|]. split; [by intros (? & ? & ?)|].
    intros [(? & ? & ?) _]. discriminate. }
  case_bool_decide as Hy; [|case_bool_decide as Hn]; simpl.
  - destruct (w_makedirs w _) as [e|u] eqn:Hm; simpl.
    + split; [by intros ? [= <-]|]. split; [by intros (? & ? & ?)|].
      intros [_ [[_ [u Hu]] | [Hn _]]]; [cbv [py_ret] in Hu; congruence | by rewrite Hy in Hn].
    + split; [by intros ? ?|]. split; [intros _; split; [eauto | left; eauto] | eauto].
  - destruct (w_makedirs w _) as [e|u] eqn:Hm; simpl.
    + split; [by intros ? [= <-]|]. split; [by intros (? & ? & ?)|].
      intros [_ [[Hy' _] | [_ [u Hu]]]]; [done | cbv [py_ret] in Hu; congruence].
    + split; [by intros ? ?|]. split; [intros _; split; [eauto | right; eauto] | eauto].
  - split; [by intros ? [= <-]|]. split; [by intros (? & ? & ?)|].
    intros [_ [[Hy' _] | [Hn' _]]]; done.
Qed.

Lemma startup_outcome_witness :
  let s := mk_startup [] (pystr_of " yes"%string) (pystr_of "out"%string) in
  (forall e, stegem_startup (quiet_world (sample_image 1 1)) s = inl e -> e = SystemExit) /\
  stegem_startup (quiet_world (sample_image 1 1)) s = py_raise SystemExit.
Proof.
  intros s. split; [apply (startup_outcome (quiet_world (sample_image 1 1)) s) | vm_compute; reflexivity].
Defined.
